(** * parse_fio: extraction, naming and aggregation of fio results

    A shallow embedding of [px-fio-parsing/parse_fio.py].  Python values
    are modelled as follows:
    - [str] is [string]; inputs are taken to be ASCII text;
    - [int] is [Z];
    - [float] comes in two forms.  What [float(...)] reads, from a string
      or from an integer, is a binary64 number ([spec_float] with 53 bits of
      precision), rounded to nearest-even as Python rounds it, and the
      distances [_find_percentile_key] compares are binary64 numbers.  A
      float held by a field of a row is the rational number it denotes, of
      type [Q], and the arithmetic on the fields (unit conversions, means)
      is exact; such a field cannot hold [inf] or [nan], so a field that
      [float] would fill with one of them is [None] here;
    - [None] in an [Optional[...]] field is [None];
    - a parsed JSON document is a value of type [json]; a [dict] keeps its
      insertion order and is an association list with first-match lookup;
    - a raised exception is the [Raise] constructor of [Exc];
    - a pandas data frame is the list of its rows. *)

From Stdlib Require Import ZArith QArith Qround Qabs List String Ascii Bool Lia.
From Stdlib Require Import DecimalString Permutation Sorted SpecFloat.
From Stdlib Require DecimalZ DecimalPos.
Import ListNotations.

Local Open Scope string_scope.
Local Open Scope Z_scope.

(** ** Exceptions *)

Inductive pyerror : Type :=
| AttributeError
| TypeError
| ValueError
| KeyError.

Inductive Exc (A : Type) : Type :=
| Ok (a : A)
| Raise (e : pyerror).

Arguments Ok {A} a.
Arguments Raise {A} e.

Definition bind {A B : Type} (m : Exc A) (f : A -> Exc B) : Exc B :=
  match m with
  | Ok a => f a
  | Raise e => Raise e
  end.

Notation "x <- m ;; k" := (bind m (fun x => k))
  (at level 61, m at next level, right associativity).

(** ** The Python builtins the program relies on *)

Module Py.

Definition code (c : ascii) : nat := nat_of_ascii c.

Definition between (lo hi : nat) (c : ascii) : bool :=
  (Nat.leb lo (code c) && Nat.leb (code c) hi)%bool.

(** [str.isspace] on ASCII: TAB..CR, FS..US and the blank. *)
Definition is_space (c : ascii) : bool :=
  (between 9 13 c || between 28 31 c || Nat.eqb (code c) 32)%bool.

Definition is_digit (c : ascii) : bool := between 48 57 c.
Definition is_upper (c : ascii) : bool := between 65 90 c.
Definition is_lower (c : ascii) : bool := between 97 122 c.
Definition is_alpha (c : ascii) : bool := (is_upper c || is_lower c)%bool.

(** the class [\w] *)
Definition is_word (c : ascii) : bool :=
  (is_alpha c || is_digit c || Nat.eqb (code c) 95)%bool.

Definition lower_ascii (c : ascii) : ascii :=
  if is_upper c then ascii_of_nat (code c + 32) else c.

Definition upper_ascii (c : ascii) : ascii :=
  if is_lower c then ascii_of_nat (code c - 32) else c.

Definition digit_val (c : ascii) : Z := Z.of_nat (code c) - 48.

(** [s.lower()] *)
Fixpoint lower (s : string) : string :=
  match s with
  | EmptyString => EmptyString
  | String c s' => String (lower_ascii c) (lower s')
  end.

Fixpoint lstrip (s : string) : string :=
  match s with
  | EmptyString => EmptyString
  | String c s' => if is_space c then lstrip s' else s
  end.

Fixpoint rstrip (s : string) : string :=
  match s with
  | EmptyString => EmptyString
  | String c s' =>
      match rstrip s' with
      | EmptyString => if is_space c then EmptyString else String c EmptyString
      | r => String c r
      end
  end.

(** [s.strip()] *)
Definition strip (s : string) : string := rstrip (lstrip s).

(** [s.startswith(p)] *)
Definition startswith (p s : string) : bool := String.prefix p s.

(** [s.endswith(p)] *)
Definition endswith (p s : string) : bool :=
  let n := String.length s in
  let m := String.length p in
  (Nat.leb m n && String.eqb (String.substring (n - m) m s) p)%bool.

(** [s.split(sep)] for a one-character separator: never the empty list. *)
Fixpoint split (sep : ascii) (s : string) : list string :=
  match s with
  | EmptyString => [EmptyString]
  | String c s' =>
      if Ascii.eqb c sep then EmptyString :: split sep s'
      else match split sep s' with
           | [] => [String c EmptyString]
           | p :: ps => String c p :: ps
           end
  end.

(** [os.path.basename] on a POSIX path: what follows the last slash. *)
Definition basename (path : string) : string :=
  last (split "/" path) EmptyString.

(** A run of decimal digits in which single underscores may separate
    digits, as [int] and [float] accept it.  Returns the value read so
    far, the number of digits read and what is left. *)
Fixpoint digit_run (s : list ascii) (acc : Z) (n : nat) : Z * nat * list ascii :=
  match s with
  | c :: s' =>
      if is_digit c then digit_run s' (acc * 10 + digit_val c) (S n)
      else if (Ascii.eqb c "_" && Nat.ltb 0 n)%bool then
        match s' with
        | d :: _ => if is_digit d then digit_run s' acc n else (acc, n, s)
        | [] => (acc, n, s)
        end
      else (acc, n, s)
  | [] => (acc, n, s)
  end.

(** An optional sign; [true] is a minus. *)
Definition sign (s : list ascii) : bool * list ascii :=
  match s with
  | "-"%char :: s' => (true, s')
  | "+"%char :: s' => (false, s')
  | _ => (false, s)
  end.

Definition signed (neg : bool) (z : Z) : Z := if neg then - z else z.

(** [int(s)] for a string, base 10; [None] stands for [ValueError]. *)
Definition int_of_str (s : string) : option Z :=
  let '(neg, body) := sign (list_ascii_of_string (strip s)) in
  match digit_run body 0 0%nat with
  | (z, S _, []) => Some (signed neg z)
  | _ => None
  end.

(** The exponent part of a float literal. *)
Definition exponent (s : list ascii) : option Z :=
  match s with
  | [] => Some 0
  | c :: s' =>
      if Ascii.eqb (lower_ascii c) "e" then
        let '(neg, body) := sign s' in
        match digit_run body 0 0%nat with
        | (z, S _, []) => Some (signed neg z)
        | _ => None
        end
      else None
  end.

(** The digits and the power of ten of a decimal literal (digits,
    fraction, exponent) that has lost its sign: [(m, k)] stands for
    [m * 10^k]; [None] stands for a text that is no such literal. *)
Definition decimal_literal (body : list ascii) : option (Z * Z) :=
  let '(ip, n1, r1) := digit_run body 0 0%nat in
  let '(fp, n2, r2) :=
    match r1 with
    | "."%char :: r => digit_run r 0 0%nat
    | _ => (0, 0%nat, r1)
    end in
  match (n1 + n2)%nat with
  | O => None
  | S _ =>
      match exponent r2 with
      | Some e => Some (ip * 10 ^ Z.of_nat n2 + fp, e - Z.of_nat n2)
      | None => None
      end
  end.

(** *** Floats

    A Python float is an IEEE 754 binary64 number: a [spec_float] of the
    Standard Library with 53 bits of precision and the exponent bound
    1024, whose operations round to the nearest number, ties to even. *)
Definition prec : Z := 53.
Definition emax : Z := 1024.

(** [float(z)] for an int [z]; the result is an infinity exactly when
    Python raises [OverflowError]. *)
Definition float_of_int (z : Z) : spec_float := binary_normalize prec emax z 0 false.

(** The float nearest to [m * 10^k] with the sign [neg], for [0 <= m]:
    what the correctly rounded reading of a decimal literal gives. *)
Definition float_of_decimal (neg : bool) (m k : Z) : spec_float :=
  match m with
  | Zpos p =>
      if 0 <=? k then binary_normalize prec emax (signed neg (m * 10 ^ k)) 0 false
      else SFdiv prec emax (S754_finite neg p 0)
                 (S754_finite false (Z.to_pos (10 ^ (- k))) 0)
  | _ => S754_zero neg
  end.

(** The float nearest to a rational. *)
Definition float_of_Q (q : Q) : spec_float :=
  match Qnum q with
  | Z0 => S754_zero false
  | Zpos p => SFdiv prec emax (S754_finite false p 0) (S754_finite false (Qden q) 0)
  | Zneg p => SFdiv prec emax (S754_finite true p 0) (S754_finite false (Qden q) 0)
  end.

(** The number a finite float is; an infinity and nan are no number. *)
Definition float_value (f : spec_float) : option Q :=
  match f with
  | S754_zero _ => Some 0%Q
  | S754_finite s m e =>
      let n := if s then Zneg m else Zpos m in
      Some (Qred (if 0 <=? e then inject_Z (n * 2 ^ e) else n # Z.to_pos (2 ^ (- e))))
  | S754_infinity _ | S754_nan => None
  end.

(** [a - b], [abs(a)], [a < b] and [a == b] on floats *)
Definition fsub (a b : spec_float) : spec_float := SFsub prec emax a b.
Definition fabs (a : spec_float) : spec_float := SFabs a.
Definition flt (a b : spec_float) : bool := SFltb a b.
Definition feq (a b : spec_float) : bool := SFeqb a b.

(** [float(s)] for a string: an optional sign, then [inf], [infinity] or
    [nan] in any case, or a decimal literal, which is rounded to the
    nearest float and to an infinity beyond the range; [None] stands for
    [ValueError]. *)
Definition float (s : string) : option spec_float :=
  let '(neg, body) := sign (list_ascii_of_string (strip s)) in
  let word := string_of_list_ascii (map lower_ascii body) in
  if (String.eqb word "inf" || String.eqb word "infinity")%bool
  then Some (S754_infinity neg)
  else if String.eqb word "nan" then Some S754_nan
  else match decimal_literal body with
       | Some (m, k) => Some (float_of_decimal neg m k)
       | None => None
       end.

(** [float(s)] as the number it is, for a string that [float] reads as a
    finite float.  [None] stands for [ValueError] and also for an infinity
    and for nan, which no float field of the model holds. *)
Definition float_of_str (s : string) : option Q :=
  match float s with
  | Some f => float_value f
  | None => None
  end.

Definition string_of_Z (z : Z) : string := NilZero.string_of_int (Z.to_int z).

(** The digits of the fraction [r / d] (with [0 <= r < d]), at least one
    and at most [fuel] of them, stopping when the remainder vanishes. *)
Fixpoint frac_digits (fuel : nat) (r d : Z) : string :=
  match fuel with
  | O => EmptyString
  | S fuel' =>
      let q := (r * 10) / d in
      let r' := (r * 10) mod d in
      append (string_of_Z q)
             (if r' =? 0 then EmptyString else frac_digits fuel' r' d)
  end.

(** [str(x)] for a float in the range where [repr] uses positional
    notation and the decimal expansion is short: [str(99.0) = "99.0"],
    [str(98.5) = "98.5"]. *)
Definition str_of_float (x : Q) : string :=
  let n := Qnum (Qred x) in
  let d := Zpos (Qden (Qred x)) in
  let a := Z.abs n in
  append (if n <? 0 then "-" else "")
    (append (string_of_Z (a / d))
       (append "." (frac_digits 17 (a mod d) d))).

(** Rounding to the nearest integer, ties to even. *)
Definition round_half_even (x : Q) : Z :=
  let f := Qfloor x in
  let r := Qminus x (inject_Z f) in
  match Qcompare r (1 # 2) with
  | Lt => f
  | Gt => f + 1
  | Eq => if Z.even f then f else f + 1
  end.

Fixpoint zeros (n : nat) : string :=
  match n with
  | O => EmptyString
  | S n' => String "0" (zeros n')
  end.

Definition pad_left (width : nat) (s : string) : string :=
  append (zeros (width - String.length s)) s.

(** [f"{x:.6f}"] *)
Definition format_6f (x : Q) : string :=
  let n := round_half_even (Qmult x (inject_Z 1000000)) in
  let a := Z.abs n in
  append (if n <? 0 then "-" else "")
    (append (string_of_Z (a / 1000000))
       (append "." (pad_left 6 (string_of_Z (a mod 1000000))))).

End Py.

(** ** Regular expressions

    The patterns of the program use literals, classes, greedy and lazy
    repetition, alternation, groups and the anchors [^], [$] and [\b].
    [run] is a backtracking matcher in continuation-passing style with the
    ordered-choice semantics of Python's [re]. *)

Module Re.

Record cursor : Type := { prev : option ascii; rest : list ascii }.

Definition captures : Type := list (string * string).

Inductive re : Type :=
| Eps
| Chr (p : ascii -> bool)
| Seq (a b : re)
| Alt (a b : re)
| Star (greedy : bool) (a : re)
| Group (name : string) (a : re)
| Bol
| Eol
| WordB.

(** Character classes *)
Definition lit (c : ascii) : ascii -> bool := Ascii.eqb c.
Definition any : ascii -> bool := fun _ => true.
Definition dot : ascii -> bool := fun c => negb (Ascii.eqb c "010").
Definition one_of (s : string) : ascii -> bool :=
  fun c => existsb (Ascii.eqb c) (list_ascii_of_string s).
Definition none_of (s : string) : ascii -> bool := fun c => negb (one_of s c).
Definition digit : ascii -> bool := Py.is_digit.
Definition space : ascii -> bool := Py.is_space.
Definition word : ascii -> bool := Py.is_word.
Definition non_space : ascii -> bool := fun c => negb (Py.is_space c).
Definition range (lo hi : ascii) : ascii -> bool :=
  Py.between (Py.code lo) (Py.code hi).
Definition union (p q : ascii -> bool) : ascii -> bool := fun c => (p c || q c)%bool.

(** Derived forms *)
Definition cat (rs : list re) : re := fold_right Seq Eps rs.
Definition str (s : string) : re := cat (map (fun c => Chr (lit c)) (list_ascii_of_string s)).
Definition plus (a : re) : re := Seq a (Star true a).
Definition opt (a : re) : re := Alt a Eps.
Definition alts (rs : list re) (last : re) : re := fold_right Alt last rs.
Definition times (n : nat) (a : re) : re := cat (repeat a n).

(** Whether a class takes a character; under [re.IGNORECASE] the other
    case of the character counts too.  (The one negated class of the
    program, [[^)]], excludes a character that has no case.) *)
Definition takes (icase : bool) (p : ascii -> bool) (c : ascii) : bool :=
  (p c || (icase && (p (Py.lower_ascii c) || p (Py.upper_ascii c))))%bool.

Definition is_word_opt (o : option ascii) : bool :=
  match o with
  | Some c => Py.is_word c
  | None => false
  end.

Definition consumed (from to : cursor) : string :=
  string_of_list_ascii
    (firstn (List.length (rest from) - List.length (rest to)) (rest from)).

Section Run.
Context {R : Type}.
Variable icase : bool.

Definition cont : Type := cursor -> captures -> option R.

(** One more round of a repetition is taken only if it consumed input. *)
Definition progress (from : cursor) (k : cont) : cont :=
  fun cur' caps' =>
    if Nat.ltb (List.length (rest cur')) (List.length (rest from))
    then k cur' caps' else None.

(** [a*] and [a*?], [step] being the matcher of [a]: the greedy form
    tries another round before it leaves the loop, the lazy form leaves
    first. *)
Fixpoint star_loop (greedy : bool) (step : cursor -> captures -> cont -> option R)
         (k : cont) (fuel : nat) (cur : cursor) (caps : captures) : option R :=
  match fuel with
  | O => k cur caps
  | S fuel' =>
      if greedy then
        match step cur caps (progress cur (star_loop greedy step k fuel')) with
        | Some x => Some x
        | None => k cur caps
        end
      else
        match k cur caps with
        | Some x => Some x
        | None => step cur caps (progress cur (star_loop greedy step k fuel'))
        end
  end.

Fixpoint run (r : re) (cur : cursor) (caps : captures) (k : cont) {struct r}
  : option R :=
  match r with
  | Eps => k cur caps
  | Chr p =>
      match rest cur with
      | c :: s => if takes icase p c then k {| prev := Some c; rest := s |} caps else None
      | [] => None
      end
  | Seq a b => run a cur caps (fun cur' caps' => run b cur' caps' k)
  | Alt a b =>
      match run a cur caps k with
      | Some x => Some x
      | None => run b cur caps k
      end
  | Star greedy a =>
      star_loop greedy (run a) k (List.length (rest cur)) cur caps
  | Group name a =>
      run a cur caps (fun cur' caps' => k cur' ((name, consumed cur cur') :: caps'))
  | Bol => match prev cur with None => k cur caps | Some _ => None end
  | Eol =>
      match rest cur with
      | [] => k cur caps
      | ["010"%char] => k cur caps
      | _ => None
      end
  | WordB =>
      if xorb (is_word_opt (prev cur)) (is_word_opt (hd_error (rest cur)))
      then k cur caps else None
  end.
End Run.

(** A match: the groups and where it ends. *)
Definition match_at (icase : bool) (r : re) (cur : cursor) : option (captures * cursor) :=
  run icase r cur [] (fun cur' caps' => Some (caps', cur')).

(** [pattern.match(s)]: at the start of the string only. *)
Definition pmatch (icase : bool) (r : re) (s : string) : option captures :=
  option_map fst (match_at icase r {| prev := None; rest := list_ascii_of_string s |}).

(** The leftmost match at or after the cursor, with its start. *)
Fixpoint search_from (icase : bool) (r : re) (p : option ascii) (s : list ascii)
  : option (captures * cursor * cursor) :=
  match match_at icase r {| prev := p; rest := s |} with
  | Some (caps, stop) => Some (caps, {| prev := p; rest := s |}, stop)
  | None =>
      match s with
      | [] => None
      | c :: s' => search_from icase r (Some c) s'
      end
  end.

(** [pattern.search(s)] *)
Definition search (icase : bool) (r : re) (s : string) : option captures :=
  option_map (fun m => fst (fst m)) (search_from icase r None (list_ascii_of_string s)).

(** [pattern.finditer(s)]: the successive matches, none overlapping. *)
Fixpoint finditer_from (fuel : nat) (icase : bool) (r : re) (p : option ascii)
         (s : list ascii) : list captures :=
  match fuel with
  | O => []
  | S fuel' =>
      match search_from icase r p s with
      | None => []
      | Some (caps, start, stop) =>
          caps ::
            (if Nat.ltb (List.length (rest stop)) (List.length (rest start))
             then finditer_from fuel' icase r (prev stop) (rest stop)
             else match rest stop with
                  | [] => []
                  | c :: s' => finditer_from fuel' icase r (Some c) s'
                  end)
      end
  end.

Definition finditer (icase : bool) (r : re) (s : string) : list captures :=
  finditer_from (S (String.length s)) icase r None (list_ascii_of_string s).

(** [m.group(name)] for a group that took part in the match. *)
Fixpoint group (name : string) (caps : captures) : string :=
  match caps with
  | [] => EmptyString
  | (n, v) :: caps' => if String.eqb n name then v else group name caps'
  end.

End Re.

(** ** JSON documents *)

#[local] Unset Elimination Schemes.

Inductive json : Type :=
| JNull
| JBool (b : bool)
| JInt (z : Z)
| JFloat (q : Q)
| JStr (s : string)
| JArr (items : list json)
| JObj (fields : list (string * json)).

#[local] Set Elimination Schemes.

(** Python truthiness: what [not v] and [v or w] test. *)
Definition truthy (v : json) : bool :=
  match v with
  | JNull => false
  | JBool b => b
  | JInt z => negb (z =? 0)
  | JFloat q => negb (Qeq_bool q 0)
  | JStr s => negb (String.eqb s "")
  | JArr items => match items with [] => false | _ => true end
  | JObj fields => match fields with [] => false | _ => true end
  end.

Definition is_None (v : json) : bool :=
  match v with
  | JNull => true
  | _ => false
  end.

(** [isinstance(v, dict)] *)
Definition is_dict (v : json) : bool :=
  match v with
  | JObj _ => true
  | _ => false
  end.

(** [key in d] for a dict [d] *)
Definition has_key (key : string) (fields : list (string * json)) : bool :=
  existsb (fun kv => String.eqb (fst kv) key) fields.

(** [d.get(key, default)] for a dict [d] *)
Fixpoint dict_get (fields : list (string * json)) (key : string) (default : json) : json :=
  match fields with
  | [] => default
  | (k, v) :: fields' => if String.eqb k key then v else dict_get fields' key default
  end.

(** [v.get(key, default)] for any value: only a dict has the method. *)
Definition get_default (v : json) (key : string) (default : json) : Exc json :=
  match v with
  | JObj fields => Ok (dict_get fields key default)
  | _ => Raise AttributeError
  end.

(** [v.get(key)] *)
Definition get (v : json) (key : string) : Exc json := get_default v key JNull.

(** [key in v] where [v] is known to be a dict *)
Definition contains (v : json) (key : string) : bool :=
  match v with
  | JObj fields => has_key key fields
  | _ => false
  end.

(** [for x in v] *)
Definition iterate (v : json) : Exc (list json) :=
  match v with
  | JArr items => Ok items
  | JStr s => Ok (map (fun c => JStr (String c EmptyString)) (list_ascii_of_string s))
  | JObj fields => Ok (map (fun kv => JStr (fst kv)) fields)
  | _ => Raise TypeError
  end.

(** ** Helpers and data models *)

Record datetime : Type :=
  { year : Z; month : Z; day : Z; hour : Z; minute : Z; second : Z }.

Record ParsedRow : Type :=
  { source_file : string;
    task : option string;
    timestamp : option datetime;
    runner : option string;
    jobname : json;
    rw : json;
    access_pattern : option string;
    bs : json;
    bs_bytes : option Z;
    iodepth : option Z;
    numjobs : option Z;
    runtime_s : option Q;
    size_bytes : option Z;
    op : string;
    iops : option Q;
    bw_MBps : option Q;
    lat_mean_ms : option Q;
    clat_p99_ms : option Q;
    clat_p95_ms : option Q;
    clat_p50_ms : option Q;
    total_ios : option Z }.

(** A keyword argument of a call: passed or left out. *)
Inductive kwarg (A : Type) : Type :=
| Given (a : A)
| Missing.

Arguments Given {A} a.
Arguments Missing {A}.

(** The [__init__] that [@dataclass] generates for [ParsedRow].  None of the
    21 fields has a default, so each is a required parameter and a call
    that leaves one out raises [TypeError].  The call in [parse_fio_json]
    passes all 21 keywords; the two calls in [parse_fio_text] pass the first
    20 and leave [total_ios] out, so that is the one keyword modelled as
    [kwarg]. *)
Definition ParsedRow_init
  (source_file : string) (task : option string) (timestamp : option datetime)
  (runner : option string) (jobname rw : json) (access_pattern : option string)
  (bs : json) (bs_bytes iodepth numjobs : option Z) (runtime_s : option Q)
  (size_bytes : option Z) (op : string)
  (iops bw_MBps lat_mean_ms clat_p99_ms clat_p95_ms clat_p50_ms : option Q)
  (total_ios : kwarg (option Z)) : Exc ParsedRow :=
  match total_ios with
  | Missing => Raise TypeError
  | Given t =>
      Ok {| source_file := source_file; task := task; timestamp := timestamp;
            runner := runner; jobname := jobname; rw := rw;
            access_pattern := access_pattern; bs := bs; bs_bytes := bs_bytes;
            iodepth := iodepth; numjobs := numjobs; runtime_s := runtime_s;
            size_bytes := size_bytes; op := op; iops := iops; bw_MBps := bw_MBps;
            lat_mean_ms := lat_mean_ms; clat_p99_ms := clat_p99_ms;
            clat_p95_ms := clat_p95_ms; clat_p50_ms := clat_p50_ms;
            total_ios := t |}
  end.

(** Float division [a / b] for a non-zero constant [b]. *)
Definition fdiv (a b : Q) : Q := Qred (a / b).
Definition fmul (a b : Q) : Q := Qred (a * b).

(** [a > b] on floats *)
Definition Qgt_bool (a b : Q) : bool := negb (Qle_bool a b).

(** [int(x)] for a float: truncation towards zero. *)
Definition trunc (q : Q) : Z := Z.quot (Qnum q) (Zpos (Qden q)).

Definition Z_of_bool (b : bool) : Z := if b then 1 else 0.

Definition _to_float (value : json) : option Q :=
  match value with
  | JNull => None
  | JBool b => Some (inject_Z (Z_of_bool b))
  | JInt z => Py.float_value (Py.float_of_int z)
  | JFloat q => Some q
  | JStr s => Py.float_of_str s
  | JArr _ | JObj _ => None
  end.

Definition _ns_to_ms (ns_value : option Q) : option Q :=
  match ns_value with
  | None => None
  | Some x => Some (fdiv x 1000000)
  end.

Definition _us_to_ms (us_value : option Q) : option Q :=
  match us_value with
  | None => None
  | Some x => Some (fdiv x 1000)
  end.

Definition _kbps_to_MBps (kb_per_s : option Q) : option Q :=
  match kb_per_s with
  | None => None
  | Some x => Some (fdiv (fmul x 1024) 1000000)
  end.

(** [^(\d+)([KkMmGgTtPp]?)[Bb]?$] *)
Definition _RE_SIZE : Re.re :=
  Re.cat [Re.Bol;
          Re.Group "1" (Re.plus (Re.Chr Re.digit));
          Re.Group "2" (Re.opt (Re.Chr (Re.one_of "KkMmGgTtPp")));
          Re.opt (Re.Chr (Re.one_of "Bb"));
          Re.Eol].

(** [{"": 0, "k": 10, "m": 20, "g": 30, "t": 40, "p": 50}.get(unit, 0)] *)
Definition unit_power (unit : string) : Z :=
  if String.eqb unit "" then 0
  else if String.eqb unit "k" then 10
  else if String.eqb unit "m" then 20
  else if String.eqb unit "g" then 30
  else if String.eqb unit "t" then 40
  else if String.eqb unit "p" then 50
  else 0.

Definition _parse_size_to_bytes (value : json) : option Z :=
  if negb (truthy value) then None
  else
    match value with
    | JStr s =>
        match Re.pmatch false _RE_SIZE (Py.strip s) with
        | None => Py.int_of_str s
        | Some m =>
            match Py.int_of_str (Re.group "1" m) with
            | Some num =>
                let unit := Py.lower (Re.group "2" m) in
                Some (num * Z.shiftl 1 (unit_power unit))
            | None => None
            end
        end
    | _ => None
    end.

Definition _parse_bs_to_bytes (value : json) : option Z := _parse_size_to_bytes value.

(** [str(rw)] of a value that is not a string is the text of a number, of
    [True], of a list or of a dict: lower-cased, none starts with [rand] and
    none is one of the four mode names, so only strings are classified. *)
Definition _normalize_access_pattern (rw : json) : option string :=
  if negb (truthy rw) then None
  else
    match rw with
    | JStr s =>
        let rw_l := Py.lower s in
        if Py.startswith "rand" rw_l then Some "random"
        else if existsb (String.eqb rw_l) ["read"; "write"; "rw"; "readwrite"]
             then Some "sequential"
             else None
    | _ => None
    end.

Definition _to_int (value : json) : option Z :=
  match value with
  | JNull => None
  | JBool b => Some (Z_of_bool b)
  | JInt z => Some z
  | JFloat q => Some (trunc q)
  | JStr s =>
      match Py.int_of_str s with
      | Some z => Some z
      | None => option_map trunc (Py.float_of_str s)
      end
  | JArr _ | JObj _ => None
  end.

(** ** JSON parser *)

(** [abs(float(key) - target)], for the float [x] of the key *)
Definition distance (x : spec_float) (target : Q) : spec_float :=
  Py.fabs (Py.fsub x (Py.float_of_Q target)).

(** [a < b] on the tuples [(distance, key)]: the keys decide where the
    distances are equal. *)
Definition pair_lt (a b : spec_float * string) : bool :=
  if Py.feq (fst a) (fst b)
  then match String.compare (snd a) (snd b) with
       | Lt => true
       | _ => false
       end
  else Py.flt (fst a) (fst b).

Fixpoint insert_sorted (x : spec_float * string) (l : list (spec_float * string))
  : list (spec_float * string) :=
  match l with
  | [] => [x]
  | y :: l' => if pair_lt y x then y :: insert_sorted x l' else x :: l
  end.

(** [as_pairs.sort()].  The sort compares with [<] alone; a distance
    that is nan compares false with every other, and where its pair ends
    up depends on the steps of the sort, which an insertion does not
    reproduce. *)
Definition sort_pairs (l : list (spec_float * string)) : list (spec_float * string) :=
  fold_right insert_sorted [] l.

(** The list [as_pairs]: a pair for each key that [float] accepts. *)
Fixpoint as_pairs_of (keys : list string) (target : Q) : list (spec_float * string) :=
  match keys with
  | [] => []
  | key :: keys' =>
      match Py.float key with
      | Some x => (distance x target, key) :: as_pairs_of keys' target
      | None => as_pairs_of keys' target
      end
  end.

(** The three stages of [_find_percentile_key]. *)
Definition pct_exact_str (percentiles : list (string * json)) (target : Q) : option string :=
  if has_key (Py.str_of_float target) percentiles
  then Some (Py.str_of_float target) else None.

Definition pct_exact_formatted (percentiles : list (string * json)) (target : Q) : option string :=
  if has_key (Py.format_6f target) percentiles
  then Some (Py.format_6f target) else None.

Definition pct_nearest (percentiles : list (string * json)) (target : Q) : option string :=
  match sort_pairs (as_pairs_of (map fst percentiles) target) with
  | [] => None
  | p :: _ => Some (snd p)
  end.

Definition _find_percentile_key (percentiles : list (string * json)) (target : Q)
  : option string :=
  match pct_exact_str percentiles target with
  | Some key => Some key
  | None =>
      match pct_exact_formatted percentiles target with
      | Some key => Some key
      | None => pct_nearest percentiles target
      end
  end.

(** [(20\d{6}T\d{6}Z)] *)
Definition _RE_TIMESTAMP : Re.re :=
  Re.Group "1"
    (Re.cat [Re.str "20"; Re.times 6 (Re.Chr Re.digit); Re.str "T";
             Re.times 6 (Re.Chr Re.digit); Re.str "Z"]).

Definition two_digits (s : string) (at_ : nat) : Z :=
  match Py.int_of_str (String.substring at_ 2 s) with
  | Some z => z
  | None => 0
  end.

Definition days_in_month (y m : Z) : Z :=
  if m =? 2 then
    if ((y mod 4 =? 0) && (negb (y mod 100 =? 0) || (y mod 400 =? 0)))%bool then 29 else 28
  else if existsb (Z.eqb m) [4; 6; 9; 11] then 30 else 31.

(** [datetime.strptime(ts, "%Y%m%dT%H%M%SZ")] on a token that matched
    [_RE_TIMESTAMP]; [None] stands for [ValueError]. *)
Definition strptime (ts : string) : option datetime :=
  let y := match Py.int_of_str (String.substring 0 4 ts) with Some z => z | None => 0 end in
  let mo := two_digits ts 4 in
  let d := two_digits ts 6 in
  let h := two_digits ts 9 in
  let mi := two_digits ts 11 in
  let s := two_digits ts 13 in
  if ((1 <=? mo) && (mo <=? 12) && (1 <=? d) && (d <=? days_in_month y mo)
      && (h <=? 23) && (mi <=? 59) && (s <=? 59))%bool
  then Some {| year := y; month := mo; day := d; hour := h; minute := mi; second := s |}
  else None.

Definition compute_timestamp_from_path (path : string) : option datetime :=
  match Re.search false _RE_TIMESTAMP path with
  | Some m => strptime (Re.group "1" m)
  | None =>
      match Re.search false _RE_TIMESTAMP (Py.basename path) with
      | Some m => strptime (Re.group "1" m)
      | None => None
      end
  end.

(** Which unit family a latency container reports in, and which of the two
    measurements it belongs to. *)
Inductive family : Type := Nanosecond | Microsecond | Generic.
Inductive measure : Type := Completion | Total.

(** The conversion the code applies to a container of the family. *)
Definition to_ms (f : family) : option Q -> option Q :=
  match f with
  | Nanosecond => _ns_to_ms
  | Microsecond | Generic => _us_to_ms
  end.

(** The key under which [op_data] holds a container. *)
Definition container_key (m : measure) (f : family) : string :=
  match m, f with
  | Completion, Nanosecond => "clat_ns"
  | Completion, Microsecond => "clat_us"
  | Completion, Generic => "clat"
  | Total, Nanosecond => "lat_ns"
  | Total, Microsecond => "lat_us"
  | Total, Generic => "lat"
  end.

(** [isinstance(c, dict) and "mean" in c] *)
Definition has_mean (c : json) : bool := (is_dict c && contains c "mean")%bool.

(** [c.get("mean")] once [c] is known to be a dict *)
Definition mean_of (c : json) : json :=
  match c with
  | JObj fields => dict_get fields "mean" JNull
  | _ => JNull
  end.

(** The [if]/[elif] chain that sets [lat_mean_ms]. *)
Definition lat_mean_ms_of (clat_ns clat_us clat_generic lat_ns lat_us lat_generic : json)
  : option Q :=
  if has_mean clat_ns then _ns_to_ms (_to_float (mean_of clat_ns))
  else if has_mean clat_us then _us_to_ms (_to_float (mean_of clat_us))
  else if has_mean clat_generic then _us_to_ms (_to_float (mean_of clat_generic))
  else if has_mean lat_ns then _ns_to_ms (_to_float (mean_of lat_ns))
  else if has_mean lat_us then _us_to_ms (_to_float (mean_of lat_us))
  else if has_mean lat_generic then _us_to_ms (_to_float (mean_of lat_generic))
  else None.

(** One of the three assignments of [_extract_pcts]. *)
Definition pct_value (percentiles : list (string * json)) (target : Q)
           (to_ms_fn : option Q -> option Q) : option Q :=
  match _find_percentile_key percentiles target with
  | Some key => to_ms_fn (_to_float (dict_get percentiles key JNull))
  | None => None
  end.

(** The closure [_extract_pcts]: the values it leaves in [clat_p99_ms],
    [clat_p95_ms] and [clat_p50_ms], which are [None] before the call. *)
Definition _extract_pcts (container : json) (to_ms_fn : option Q -> option Q)
  : option Q * option Q * option Q :=
  match container with
  | JObj fields =>
      let p1 := dict_get fields "percentile" JNull in
      let percentiles := if truthy p1 then p1 else dict_get fields "percentiles" JNull in
      match percentiles with
      | JObj ps =>
          (pct_value ps 99 to_ms_fn, pct_value ps 95 to_ms_fn, pct_value ps 50 to_ms_fn)
      | _ => (None, None, None)
      end
  | _ => (None, None, None)
  end.

(** The [if]/[elif] chain that calls [_extract_pcts]. *)
Definition clat_pcts_of (clat_ns clat_us clat_generic : json)
  : option Q * option Q * option Q :=
  if negb (is_None clat_ns) then _extract_pcts clat_ns _ns_to_ms
  else if negb (is_None clat_us) then _extract_pcts clat_us _us_to_ms
  else if negb (is_None clat_generic) then _extract_pcts clat_generic _us_to_ms
  else (None, None, None).

(** [runtime_ms = job.get("runtime") or data.get("global options", {}).get("runtime")] *)
Definition runtime_ms_of (data job : json) : Exc json :=
  r <- get job "runtime" ;;
  if truthy r then Ok r
  else (g <- get_default data "global options" (JObj []) ;; get g "runtime").

(** [runtime_s], from [runtime_ms] *)
Definition runtime_s_of (runtime_ms : json) : option Q :=
  let runtime_s := if is_None runtime_ms then None else _to_float runtime_ms in
  match runtime_s with
  | Some x => if Qgt_bool x 1000 then Some (fdiv x 1000) else Some x
  | None => None
  end.

(** [size_bytes] *)
Definition size_bytes_of (job : json) : Exc (option Z) :=
  o <- get_default job "job options" (JObj []) ;;
  size <- get o "size" ;;
  match _to_int size with
  | Some z => Ok (Some z)
  | None => Ok (_parse_size_to_bytes size)
  end.

(** The workload descriptors of a job, read before the loop over [op]. *)
Record job_meta : Type :=
  { jm_jobname : json; jm_rw : json; jm_bs : json; jm_iodepth : option Z;
    jm_numjobs : option Z; jm_runtime_s : option Q; jm_size_bytes : option Z }.

Definition job_meta_of (data job : json) : Exc job_meta :=
  jobname <- get job "jobname" ;;
  o <- get job "job options" ;;
  let options := if truthy o then o else JObj [] in
  rw1 <- get options "rw" ;;
  rw <- (if truthy rw1 then Ok rw1 else get options "readwrite") ;;
  bs <- get options "bs" ;;
  iodepth <- get options "iodepth" ;;
  numjobs <- get options "numjobs" ;;
  runtime_ms <- runtime_ms_of data job ;;
  size_bytes <- size_bytes_of job ;;
  Ok {| jm_jobname := jobname; jm_rw := rw; jm_bs := bs;
        jm_iodepth := _to_int iodepth; jm_numjobs := _to_int numjobs;
        jm_runtime_s := runtime_s_of runtime_ms; jm_size_bytes := size_bytes |}.

(** The body of [for op in ("read", "write")] for an [op] that is a key of
    the job. *)
Definition parse_op (meta : job_meta) (op : string) (op_data : json)
           (source_file : string) (task runner : option string) : Exc ParsedRow :=
  iops <- get op_data "iops" ;;
  bw <- get op_data "bw" ;;
  total_ios <- get op_data "total_ios" ;;
  clat_ns <- get op_data "clat_ns" ;;
  clat_us <- get op_data "clat_us" ;;
  clat_generic <- get op_data "clat" ;;
  lat_ns <- get op_data "lat_ns" ;;
  lat_us <- get op_data "lat_us" ;;
  lat_generic <- get op_data "lat" ;;
  let lat_mean_ms := lat_mean_ms_of clat_ns clat_us clat_generic lat_ns lat_us lat_generic in
  let '(p99, p95, p50) := clat_pcts_of clat_ns clat_us clat_generic in
  ParsedRow_init
    (Py.basename source_file) task (compute_timestamp_from_path source_file) runner
    (jm_jobname meta) (jm_rw meta) (_normalize_access_pattern (jm_rw meta))
    (jm_bs meta) (_parse_bs_to_bytes (jm_bs meta)) (jm_iodepth meta) (jm_numjobs meta)
    (jm_runtime_s meta) (jm_size_bytes meta) op
    (_to_float iops) (_kbps_to_MBps (_to_float bw)) lat_mean_ms p99 p95 p50
    (Given (_to_int total_ios)).

(** [xs] mapped by a function that may raise, left to right. *)
Fixpoint map_exc {A B : Type} (f : A -> Exc B) (xs : list A) : Exc (list B) :=
  match xs with
  | [] => Ok []
  | x :: xs' => y <- f x ;; ys <- map_exc f xs' ;; Ok (y :: ys)
  end.

(** The rows of one job: the body of [for job in jobs]. *)
Definition parse_job (data job : json) (source_file : string) (task runner : option string)
  : Exc (list ParsedRow) :=
  meta <- job_meta_of data job ;;
  match job with
  | JObj fields =>
      map_exc
        (fun op => parse_op meta op (dict_get fields op JNull) source_file task runner)
        (filter (fun op => has_key op fields) ["read"; "write"])
  | _ => Raise AttributeError
  end.

Definition parse_fio_json (data : json) (source_file : string) (task runner : option string)
  : Exc (list ParsedRow) :=
  j <- get data "jobs" ;;
  let jobs := if truthy j then j else JArr [] in
  items <- iterate jobs ;;
  per_job <- map_exc (fun job => parse_job data job source_file task runner) items ;;
  Ok (List.concat per_job).

(** ** Text parser (best-effort) *)

(** The class [[\d\.]] *)
Definition digit_or_dot : ascii -> bool := Re.union Re.digit (Re.lit ".").

Definition spaces : Re.re := Re.Star true (Re.Chr Re.space).

(** [(?P<op>read|write):.*?IOPS\s*=\s*(?P<iops>[\d\.]+)\s*,\s*BW\s*=\s*(?P<bw_value>[\d\.]+)\s*(?P<bw_unit>(?:[KMG]i?)?B/s)],
    compiled with [re.IGNORECASE] *)
Definition _RE_IOPS_BW : Re.re :=
  Re.cat [Re.Group "op" (Re.Alt (Re.str "read") (Re.str "write"));
          Re.str ":"; Re.Star false (Re.Chr Re.dot);
          Re.str "IOPS"; spaces; Re.str "="; spaces;
          Re.Group "iops" (Re.plus (Re.Chr digit_or_dot));
          spaces; Re.str ","; spaces;
          Re.str "BW"; spaces; Re.str "="; spaces;
          Re.Group "bw_value" (Re.plus (Re.Chr digit_or_dot));
          spaces;
          Re.Group "bw_unit"
            (Re.cat [Re.opt (Re.cat [Re.Chr (Re.one_of "KMG"); Re.opt (Re.str "i")]);
                     Re.str "B/s"])].

(** [\b(?:clat|lat)\s*\([^)]*\):.*?avg\s*=\s*(?P<avg>[\d\.]+)\s*(?P<unit>n?sec|usec|msec|ms|us|ns)],
    compiled with [re.IGNORECASE | re.DOTALL] *)
Definition _RE_LAT_AVG : Re.re :=
  Re.cat [Re.WordB; Re.Alt (Re.str "clat") (Re.str "lat");
          spaces; Re.str "("; Re.Star true (Re.Chr (Re.none_of ")")); Re.str "):";
          Re.Star false (Re.Chr Re.any);
          Re.str "avg"; spaces; Re.str "="; spaces;
          Re.Group "avg" (Re.plus (Re.Chr digit_or_dot));
          spaces;
          Re.Group "unit"
            (Re.alts [Re.cat [Re.opt (Re.str "n"); Re.str "sec"];
                      Re.str "usec"; Re.str "msec"; Re.str "ms"; Re.str "us"]
                     (Re.str "ns"))].

(** [\brw=(?P<rw>\w+).*?bs=(?P<bs>\S+)\b.*?(?:iodepth|iodepth_batch)=(?P<iodepth>\d+)],
    compiled with [re.IGNORECASE] *)
Definition _RE_META : Re.re :=
  Re.cat [Re.WordB; Re.str "rw="; Re.Group "rw" (Re.plus (Re.Chr Re.word));
          Re.Star false (Re.Chr Re.dot);
          Re.str "bs="; Re.Group "bs" (Re.plus (Re.Chr Re.non_space)); Re.WordB;
          Re.Star false (Re.Chr Re.dot);
          Re.Alt (Re.str "iodepth") (Re.str "iodepth_batch"); Re.str "=";
          Re.Group "iodepth" (Re.plus (Re.Chr Re.digit))].

Definition _parse_bw_to_MBps (value unit : string) : option Q :=
  let unit := Py.strip unit in
  match Py.float_of_str value with
  | None => None
  | Some v =>
      let unit_norm := Py.lower unit in
      if existsb (String.eqb unit_norm) ["kb/s"; "kib/s"] then
        Some (fdiv (fmul v 1024) 1000000)
      else if existsb (String.eqb unit_norm) ["mb/s"; "mib/s"] then
        Some (fdiv (fmul (fmul v 1024) 1024) 1000000)
      else if existsb (String.eqb unit_norm) ["gb/s"; "gib/s"] then
        Some (fdiv (fmul (fmul (fmul v 1024) 1024) 1024) 1000000)
      else if Py.endswith "b/s" unit_norm then
        Some (fdiv v 1000000)
      else None
  end.

Definition _parse_latency_to_ms (value unit : string) : option Q :=
  match Py.float_of_str value with
  | None => None
  | Some v =>
      let u := Py.lower unit in
      if existsb (String.eqb u) ["ns"; "nsec"] then Some (fdiv v 1000000)
      else if existsb (String.eqb u) ["us"; "usec"] then Some (fdiv v 1000)
      else if existsb (String.eqb u) ["ms"; "msec"] then Some v
      else None
  end.

(** What the metadata scan leaves in [rw], [bs] and [iodepth]. *)
Definition text_meta (text : string) : json * json * option Z :=
  match Re.search true _RE_META text with
  | Some m =>
      (JStr (Re.group "rw" m), JStr (Re.group "bs" m), _to_int (JStr (Re.group "iodepth" m)))
  | None => (JNull, JNull, None)
  end.

(** [lat_mean_ms_global] *)
Definition text_latency (text : string) : option Q :=
  match Re.search true _RE_LAT_AVG text with
  | Some m => _parse_latency_to_ms (Re.group "avg" m) (Re.group "unit" m)
  | None => None
  end.

(** The matches of the throughput scan. *)
Definition text_throughput (text : string) : list Re.captures :=
  Re.finditer true _RE_IOPS_BW text.

Definition parse_fio_text (text source_file : string) (task runner : option string)
  : Exc (list ParsedRow) :=
  let '(rw, bs, iodepth) := text_meta text in
  let lat_mean_ms_global := text_latency text in
  rows <- map_exc
            (fun m =>
               let op := Py.lower (Re.group "op" m) in
               let iops := _to_float (JStr (Re.group "iops" m)) in
               let bw_MBps := _parse_bw_to_MBps (Re.group "bw_value" m) (Re.group "bw_unit" m) in
               ParsedRow_init
                 (Py.basename source_file) task (compute_timestamp_from_path source_file)
                 runner JNull rw (_normalize_access_pattern rw) bs (_parse_bs_to_bytes bs)
                 iodepth None None None op iops bw_MBps lat_mean_ms_global
                 None None None Missing)
            (text_throughput text) ;;
  match rows, lat_mean_ms_global with
  | [], Some _ =>
      row <- ParsedRow_init
               (Py.basename source_file) task (compute_timestamp_from_path source_file)
               runner JNull rw (_normalize_access_pattern rw) bs (_parse_bs_to_bytes bs)
               iodepth None None None "unknown" None None lat_mean_ms_global
               None None None Missing ;;
      Ok [row]
  | _, _ => Ok rows
  end.

(** ** Discovery *)

(** [^parallel-\d+-[a-z]+-], compiled with [re.IGNORECASE] *)
Definition _RE_TASK : Re.re :=
  Re.cat [Re.Bol; Re.str "parallel-"; Re.plus (Re.Chr Re.digit); Re.str "-";
          Re.plus (Re.Chr (Re.range "a" "z")); Re.str "-"].

(** [^fio-runner-[a-z0-9]+$], compiled with [re.IGNORECASE] *)
Definition _RE_RUNNER : Re.re :=
  Re.cat [Re.Bol; Re.str "fio-runner-";
          Re.plus (Re.Chr (Re.union (Re.range "a" "z") Re.digit)); Re.Eol].

(** [bool(pattern.match(s))] *)
Definition matches (icase : bool) (r : Re.re) (s : string) : bool :=
  match Re.pmatch icase r s with
  | Some _ => true
  | None => false
  end.

(** What [parse_file] writes to [sys.stderr]. *)
Inductive diagnostic : Type :=
| FailedToRead (path : string) (e : pyerror)
| FailedToParseText (path : string) (e : pyerror).

Section Environment.

(** [os.path.relpath], [open(path).read()] and [json.loads] *)
Variable relpath : string -> string -> Exc string.
Variable read_text : string -> Exc string.
Variable json_loads : string -> Exc json.

(** [rel.split(os.sep)] with [rel] as the [try] leaves it *)
Definition rel_parts (path input_root : string) : list string :=
  let rel := match relpath path input_root with
             | Ok r => r
             | Raise _ => path
             end in
  Py.split "/" rel.

(** The rest of [compute_task_name], from the loop over [parts] on. *)
Definition task_of_parts (parts : list string) : option string :=
  match find (matches true _RE_TASK) parts with
  | Some part => Some part
  | None =>
      if Nat.ltb 1 (List.length parts) then Some (hd EmptyString parts) else None
  end.

Definition compute_task_name (path input_root : string) : option string :=
  task_of_parts (rel_parts path input_root).

Definition compute_runner_name (path input_root : string) : option string :=
  find (matches true _RE_RUNNER) (rel_parts path input_root).

(** The second [try] block of [parse_file]: the text parser on the raw
    content, an exception turned into a diagnostic and no rows. *)
Definition text_fallback (content path input_root : string)
  : list ParsedRow * list diagnostic :=
  let task := compute_task_name path input_root in
  let runner := compute_runner_name path input_root in
  match parse_fio_text content path task runner with
  | Ok rows => (rows, [])
  | Raise e => ([], [FailedToParseText path e])
  end.

(** The first [try] block of [parse_file]: [json.loads] and the JSON
    parser; any exception of either leaves the block without a result. *)
Definition json_attempt (content path input_root : string) : Exc (list ParsedRow) :=
  data <- json_loads content ;;
  parse_fio_json data path (compute_task_name path input_root)
    (compute_runner_name path input_root).

(** [parse_file], with what it writes to [sys.stderr]. *)
Definition parse_file (path input_root : string) : list ParsedRow * list diagnostic :=
  match read_text path with
  | Raise e => ([], [FailedToRead path e])
  | Ok content =>
      match json_attempt content path input_root with
      | Ok rows => (rows, [])
      | Raise _ => text_fallback content path input_root
      end
  end.

End Environment.

(** ** Aggregation

    A data frame is the list of its rows.  [df.groupby(keys, dropna=False)]
    has one group for each distinct key, a missing key ([None]) being a key
    like another.  The groups come here in the order in which their keys
    first occur; pandas sorts them by key, which permutes the groups and
    leaves each group, and the exact sums and means taken over it, as they
    are. *)

Section GroupBy.
Context {A K : Type}.
Variable eqb : K -> K -> bool.

(** The distinct keys, in order of first occurrence. *)
Fixpoint uniq (l : list K) : list K :=
  match l with
  | [] => []
  | x :: l' => x :: filter (fun y => negb (eqb y x)) (uniq l')
  end.

(** [df.groupby(key, dropna=False)]: each key with the rows that have it. *)
Definition groupby (key : A -> K) (df : list A) : list (K * list A) :=
  map (fun k => (k, filter (fun r => eqb (key r) k) df)) (uniq (map key df)).

(** [df.groupby(key, dropna=False)[col].agg(f).reset_index()]: the frame
    with the key and the aggregated column. *)
Definition groupby_agg (key : A -> K) (col : A -> option Q)
           (f : list (option Q) -> option Q) (df : list A) : list (K * option Q) :=
  map (fun g => (fst g, f (map col (snd g)))) (groupby key df).

(** The aggregated column at the row of a key. *)
Definition at_key (k : K) (frame : list (K * option Q)) : option (option Q) :=
  option_map snd (find (fun x => eqb (fst x) k) frame).
End GroupBy.

(** The values of a column that are not NaN. *)
Fixpoint somes (vals : list (option Q)) : list Q :=
  match vals with
  | [] => []
  | Some x :: vals' => x :: somes vals'
  | None :: vals' => somes vals'
  end.

Definition Qsum (xs : list Q) : Q := fold_right Qplus 0%Q xs.

(** [.mean()] of a group: NaN is skipped, and a group without a value has
    the mean NaN. *)
Definition col_mean (vals : list (option Q)) : option Q :=
  match somes vals with
  | [] => None
  | xs => Some (Qred (Qsum xs / inject_Z (Z.of_nat (List.length xs))))
  end.

(** [.sum()] of a group: NaN is skipped, and a group without a value has
    the sum 0. *)
Definition col_sum (vals : list (option Q)) : option Q :=
  Some (Qred (Qsum (somes vals))).

Definition option_eqb {T : Type} (eqb : T -> T -> bool) (a b : option T) : bool :=
  match a, b with
  | Some x, Some y => eqb x y
  | None, None => true
  | _, _ => false
  end.

Definition pair_eqb {S T : Type} (eqS : S -> S -> bool) (eqT : T -> T -> bool)
           (a b : S * T) : bool :=
  (eqS (fst a) (fst b) && eqT (snd a) (snd b))%bool.

Definition name_eqb : option string -> option string -> bool := option_eqb String.eqb.

(** [df["runner"].notna().any()] *)
Definition runner_present (df : list ParsedRow) : bool :=
  existsb (fun r => match runner r with Some _ => true | None => false end) df.

(** *** The summary block of a task sheet ([_write_task_sheet]) *)






(** *** The summary sheet ([export_to_excel]) *)

(** The key [group_with_op]: the task column, [access_pattern] and [op]. *)
Definition group_key : Type := option string * option string * string.

Definition group_key_eqb : group_key -> group_key -> bool :=
  pair_eqb (pair_eqb name_eqb name_eqb) String.eqb.

Definition group_runner_eqb : group_key * option string -> group_key * option string -> bool :=
  pair_eqb group_key_eqb name_eqb.

Section Summary.
(** The task column [tcol]: [task], or [task_norm] under [remove_suffix]. *)
Variable tcol : ParsedRow -> option string.

Definition group_with_op (r : ParsedRow) : group_key :=
  (tcol r, access_pattern r, op r).

(** [tmp = df_summary.groupby(group_with_op + ["runner"], dropna=False)[...].mean()] *)
Definition summary_tmp (col : ParsedRow -> option Q) (df : list ParsedRow)
  : list ((group_key * option string) * option Q) :=
  groupby_agg group_runner_eqb (fun r => (group_with_op r, runner r)) col col_mean df.


(** [agg_lat = tmp.groupby(group_with_op, dropna=False)[metrics_lat].mean()] *)
Definition agg_lat (col : ParsedRow -> option Q) (df : list ParsedRow)
  : list (group_key * option Q) :=
  groupby_agg group_key_eqb (fun x => fst (fst x)) snd col_mean (summary_tmp col df).

(** The [else] branch: the rows aggregated without regard to runners. *)
Definition agg_rows (f : list (option Q) -> option Q) (col : ParsedRow -> option Q)
           (df : list ParsedRow) : list (group_key * option Q) :=
  groupby_agg group_key_eqb group_with_op col f df.

End Summary.

(** *** The two-step computation, in the words of the specification

    For the rows of one group: the mean of the repeated attempts within
    each runner, then the sum of those means over the runners. *)

Definition rows_of_runner (rho : option string) (group : list ParsedRow) : list ParsedRow :=
  filter (fun r => name_eqb (runner r) rho) group.

Definition runners_of (group : list ParsedRow) : list (option string) :=
  uniq name_eqb (map runner group).

Definition mean_within_runner (col : ParsedRow -> option Q) (group : list ParsedRow)
           (rho : option string) : option Q :=
  col_mean (map col (rows_of_runner rho group)).


(** A row of a run: one attempt of a runner at a task. *)
Definition attempt (task runner : string) (op : string) (iops bw : Q) : ParsedRow :=
  {| source_file := "fio.json"; task := Some task; timestamp := None;
     runner := Some runner; jobname := JNull; rw := JStr "randread";
     access_pattern := Some "random"; bs := JStr "4k"; bs_bytes := Some 4096;
     iodepth := None; numjobs := None; runtime_s := None; size_bytes := None;
     op := op; iops := Some iops; bw_MBps := Some bw; lat_mean_ms := None;
     clat_p99_ms := None; clat_p95_ms := None; clat_p50_ms := None;
     total_ios := None |}.

(** ** Where the latency fields of a row come from

    The two [if]/[elif] chains of [parse_fio_json], read as searches in a
    priority list. *)

(** The container of a measure and family in [op_data] ([None] when the
    key is missing). *)
Definition container (op_data : json) (m : measure) (f : family) : json :=
  match op_data with
  | JObj fields => dict_get fields (container_key m f) JNull
  | _ => JNull
  end.

Definition mean_priority : list (measure * family) :=
  [(Completion, Nanosecond); (Completion, Microsecond); (Completion, Generic);
   (Total, Nanosecond); (Total, Microsecond); (Total, Generic)].

(** The container whose mean becomes [lat_mean_ms]: the first that is a
    dict with a [mean] key. *)
Definition mean_source (op_data : json) : option (measure * family) :=
  find (fun mf => has_mean (container op_data (fst mf) (snd mf))) mean_priority.

Definition pct_priority : list family := [Nanosecond; Microsecond; Generic].

(** The completion-latency container handed to [_extract_pcts]: the first
    that is not [None]. *)
Definition pct_source (op_data : json) : option family :=
  find (fun f => negb (is_None (container op_data Completion f))) pct_priority.

(** ** Notions used in the statements *)

(** The value of a JSON number. *)
Definition number_value (v : json) : option Q :=
  match v with
  | JInt z => Some (inject_Z z)
  | JFloat q => Some q
  | _ => None
  end.

(** The number a string of decimal digits denotes. *)
Definition decimal_value (ds : list ascii) : Z :=
  fold_left (fun acc c => acc * 10 + Py.digit_val c) ds 0.

(** The unit letters of the size table with their powers of two. *)
Definition size_units : list (ascii * Z) :=
  [("k"%char, 10); ("K"%char, 10); ("m"%char, 20); ("M"%char, 20);
   ("g"%char, 30); ("G"%char, 30); ("t"%char, 40); ("T"%char, 40);
   ("p"%char, 50); ("P"%char, 50)].

(** The optional byte suffix of a size. *)
Definition byte_suffixes : list (list ascii) := [[]; ["B"%char]; ["b"%char]].

(** The rows of a result, none when it is an exception. *)
Definition rows_of (e : Exc (list ParsedRow)) : list ParsedRow :=
  match e with
  | Ok rows => rows
  | Raise _ => []
  end.

(** The unit token as [_parse_bw_to_MBps] compares it. *)
Definition unit_norm (unit : string) : string := Py.lower (Py.strip unit).

(** ** Sample inputs *)

Definition quote : string := String (ascii_of_nat 34) EmptyString.



(** A direction whose nanosecond container has percentiles and no mean,
    and whose microsecond container has a mean. *)
Definition mixed_op_data : json :=
  JObj [("iops", JInt 100); ("bw", JInt 400);
        ("clat_ns", JObj [("percentile", JObj [("99.000000", JInt 2000000)])]);
        ("clat_us", JObj [("mean", JInt 5)])].

Definition mixed_doc : json :=
  JObj [("jobs", JArr [JObj [("jobname", JStr "job1"); ("read", mixed_op_data)]])].

(** A direction in the layout of current fio: one nanosecond container
    with mean and percentiles. *)
Definition plain_op_data : json :=
  JObj [("iops", JInt 100); ("bw", JInt 400);
        ("clat_ns", JObj [("mean", JInt 3000000);
                          ("percentile", JObj [("99.000000", JInt 2000000)])])].

(** A job that reports a runtime of zero and a measured IOPS of zero. *)
Definition zero_runtime_doc : json :=
  JObj [("jobs", JArr [JObj [("jobname", JStr "job1"); ("runtime", JInt 0);
                             ("read", JObj [("iops", JInt 0); ("bw", JInt 0)])]])].

(** A job that reports a runtime of zero, in a document whose global
    options hold a runtime of 5000. *)
Definition zero_runtime_job : json :=
  JObj [("jobname", JStr "job1"); ("runtime", JInt 0);
        ("read", JObj [("iops", JInt 100)])].

Definition global_runtime_doc : json :=
  JObj [("global options", JObj [("runtime", JInt 5000)]);
        ("jobs", JArr [zero_runtime_job])].

(** A job with a runtime in milliseconds. *)
Definition runtime_job : json :=
  JObj [("jobname", JStr "job1"); ("runtime", JInt 60000);
        ("read", JObj [("iops", JInt 100)])].

(** A text with a latency line and no throughput line, the unit after the
    value as [_RE_LAT_AVG] wants it; and the text of the specification. *)
Definition latency_only_text : string := "clat (usec): avg=120.5 usec".
Definition spec_latency_text : string := "clat (usec): avg=120.5".

(** A JSON mapping without [jobs] whose text holds a latency line. *)
Definition no_jobs_content : string :=
  "{" ++ quote ++ "note" ++ quote ++ ": " ++ quote ++ latency_only_text ++ quote ++ "}".

Definition no_jobs_doc : json := JObj [("note", JStr latency_only_text)].

(** An environment for one file: its relative path, its content and what
    [json.loads] makes of that content. *)
Definition one_file_relpath (rel : string) : string -> string -> Exc string :=
  fun _ _ => Ok rel.

Definition one_file_read (content : string) : string -> Exc string :=
  fun _ => Ok content.

Definition one_file_loads (content : string) (doc : Exc json) : string -> Exc json :=
  fun s => if String.eqb s content then doc else Raise ValueError.

(** A float result and the rational it stands for. *)
Definition float_is (o : option Q) (q : Q) : Prop :=
  match o with
  | Some y => Qeq y q
  | None => False
  end.

(** The unit tokens with a prefix, as [_parse_bw_to_MBps] lists them. *)
Definition prefixed_units : list string :=
  ["kb/s"; "kib/s"; "mb/s"; "mib/s"; "gb/s"; "gib/s"].

(** A job without workload descriptors. *)
Definition empty_meta : job_meta :=
  {| jm_jobname := JNull; jm_rw := JNull; jm_bs := JNull; jm_iodepth := None;
     jm_numjobs := None; jm_runtime_s := None; jm_size_bytes := None |}.

(** The row of a direction, for the statements about one direction. *)
Definition row_of (e : Exc ParsedRow) : ParsedRow :=
  match e with
  | Ok row => row
  | Raise _ => attempt "" "" "" 0 0
  end.

(** The percentile mappings of the examples. *)
Definition six_decimal_keys : list (string * json) :=
  [("50.000000", JInt 1); ("95.000000", JInt 2); ("99.000000", JInt 3)].
Definition bare_key : list (string * json) := [("99", JInt 3)].
Definition near_key : list (string * json) := [("98.5", JInt 9)].
Definition bare_and_six_decimal : list (string * json) :=
  [("99", JInt 3); ("99.000000", JInt 4)].

(** Two keys whose distances to 50 differ in the last bit of the floats
    and are equal as decimal numbers; two keys at the same distance of 99;
    and a key that [float] reads as an infinity. *)
Definition last_bit_keys : list (string * json) := [("30.2", JInt 1); ("69.8", JInt 2)].
Definition tied_keys : list (string * json) := [("98", JInt 1); ("100", JInt 2)].
Definition infinite_key : list (string * json) := [("inf", JInt 1)].

(** Whether a float is nan. *)
Definition is_nan (f : spec_float) : bool :=
  match f with
  | S754_nan => true
  | _ => false
  end.

(** The floats that [abs] returns apart from nan: zero, the positive
    numbers and the positive infinity. *)
Definition in_abs_form (f : spec_float) : bool :=
  match f with
  | S754_zero false | S754_infinity false | S754_finite false _ _ => true
  | _ => false
  end.

(** The place of such a float among them: zero, then the numbers by
    exponent and mantissa, then the infinity. *)
Definition float_rank (f : spec_float) : Z * Z * Z :=
  match f with
  | S754_finite _ m e => (1, e, Zpos m)
  | S754_infinity _ => (2, 0, 0)
  | _ => (0, 0, 0)
  end.

Definition rank_lt (a b : Z * Z * Z) : Prop :=
  let '(c1, e1, m1) := a in
  let '(c2, e2, m2) := b in
  c1 < c2 \/ (c1 = c2 /\ (e1 < e2 \/ (e1 = e2 /\ m1 < m2))).

(** [a < b] on the tuples, read through the ranks of the distances. *)
Definition pair_before (a b : spec_float * string) : Prop :=
  rank_lt (float_rank (fst a)) (float_rank (fst b))
  \/ (float_rank (fst a) = float_rank (fst b) /\ String.compare (snd a) (snd b) = Lt).

(** The character before the cursor once the run [ds] is consumed. *)
Definition prev_after (pv : option ascii) (ds : list ascii) : option ascii :=
  fold_left (fun _ c => Some c) ds pv.

(** The next character is not of the class, or there is none. *)
Definition stops (icase : bool) (p : ascii -> bool) (tail : list ascii) : Prop :=
  match tail with
  | [] => True
  | c :: _ => Re.takes icase p c = false
  end.

(** The directions of a job that yield a row, in the order of the loop
    [for op in ("read", "write")]. *)
Definition directions_of (job : json) : list string :=
  match job with
  | JObj fields => filter (fun o => has_key o fields) ["read"; "write"]
  | _ => []
  end.

(** For the rows of one group: the mean of the repeated attempts within
    each runner, then the mean of those means over the runners. *)
Definition two_step_mean (col : ParsedRow -> option Q) (group : list ParsedRow) : option Q :=
  col_mean (map (mean_within_runner col group) (runners_of group)).

(** The unit tokens [_parse_latency_to_ms] knows. *)
Definition latency_units : list string := ["ns"; "nsec"; "us"; "usec"; "ms"; "msec"].

(** A job with a direction that is present and not a mapping. *)
Definition broken_direction_doc : json :=
  JObj [("jobs", JArr [JObj [("jobname", JStr "good"); ("read", plain_op_data)];
                       JObj [("jobname", JStr "bad"); ("write", JNull)]])].

(** A document of two jobs, the first with both directions. *)
Definition two_jobs_doc : json :=
  JObj [("jobs", JArr [JObj [("jobname", JStr "a"); ("write", plain_op_data);
                             ("read", plain_op_data);
                             ("job options", JObj [("rw", JStr "RandRW"); ("bs", JStr "4k")])];
                       JObj [("jobname", JStr "b"); ("write", plain_op_data)]])].

(** A job of the list is malformed: it is not a mapping, or one of its two
    directions is a key whose value is not a mapping. *)
Definition malformed_job (job : json) : Prop :=
  is_dict job = false
  \/ exists jf o, job = JObj jf /\ In o ["read"; "write"]
                  /\ has_key o jf = true /\ is_dict (dict_get jf o JNull) = false.

(** The latency columns of [agg]: [agg_lat] when a runner is known, the
    mean over the rows of the group otherwise. *)
Definition agg_latency (tcol : ParsedRow -> option string)
           (col : ParsedRow -> option Q) (df : list ParsedRow)
  : list (group_key * option Q) :=
  if runner_present df then agg_lat tcol col df else agg_rows tcol col_mean col df.

(** A row with a 99th percentile latency, and the same row without its
    runner. *)
Definition with_p99 (r : ParsedRow) (p99 : Q) : ParsedRow :=
  {| source_file := source_file r; task := task r; timestamp := timestamp r;
     runner := runner r; jobname := jobname r; rw := rw r;
     access_pattern := access_pattern r; bs := bs r; bs_bytes := bs_bytes r;
     iodepth := iodepth r; numjobs := numjobs r; runtime_s := runtime_s r;
     size_bytes := size_bytes r; op := op r; iops := iops r; bw_MBps := bw_MBps r;
     lat_mean_ms := lat_mean_ms r; clat_p99_ms := Some p99;
     clat_p95_ms := clat_p95_ms r; clat_p50_ms := clat_p50_ms r;
     total_ios := total_ios r |}.

Definition without_runner (r : ParsedRow) : ParsedRow :=
  {| source_file := source_file r; task := task r; timestamp := timestamp r;
     runner := None; jobname := jobname r; rw := rw r;
     access_pattern := access_pattern r; bs := bs r; bs_bytes := bs_bytes r;
     iodepth := iodepth r; numjobs := numjobs r; runtime_s := runtime_s r;
     size_bytes := size_bytes r; op := op r; iops := iops r; bw_MBps := bw_MBps r;
     lat_mean_ms := lat_mean_ms r; clat_p99_ms := clat_p99_ms r;
     clat_p95_ms := clat_p95_ms r; clat_p50_ms := clat_p50_ms r;
     total_ios := total_ios r |}.

(** Runner a with two attempts (p99 of 2 and 4 ms), runner b with one
    (5 ms). *)
Definition latency_rows : list ParsedRow :=
  [with_p99 (attempt "parallel-3-randread-a" "fio-runner-a" "read" 1000 4) 2;
   with_p99 (attempt "parallel-3-randread-a" "fio-runner-a" "read" 1100 4) 4;
   with_p99 (attempt "parallel-3-randread-a" "fio-runner-b" "read" 900 4) 5].

Definition sample_group : group_key :=
  (Some "parallel-3-randread-a", Some "random", "read").

(** ** Order of the tasks *)

(** [parallel-(\d+)], compiled with [re.IGNORECASE] *)
Definition _RE_PARALLEL_DEGREE : Re.re :=
  Re.cat [Re.str "parallel-"; Re.Group "1" (Re.plus (Re.Chr Re.digit))].

(** A task name is a string, or [None] for a value that is not a string. *)
Definition _extract_parallel_degree (task_name : option string) : option Z :=
  match task_name with
  | None => None
  | Some s =>
      if String.eqb s "" then None
      else match Re.search true _RE_PARALLEL_DEGREE s with
           | None => None
           | Some m => Py.int_of_str (Re.group "1" m)
           end
  end.

Definition desired : list Z := [3; 6; 9; 12; 15].

(** [l.index(z)], [None] when [z] is not in [l] *)
Fixpoint index_of (z : Z) (l : list Z) : option nat :=
  match l with
  | [] => None
  | y :: l' => if Z.eqb y z then Some O else option_map S (index_of z l')
  end.

(** The closure [parts] of [_sort_df_by_task_order]: the two helper
    columns [__ord1__] and [__ord2__]. *)
Definition task_order_parts (name : option string) : Z * Z :=
  match _extract_parallel_degree name with
  | Some deg =>
      match index_of deg desired with
      | Some i => (Z.of_nat i, deg)
      | None => (Z.of_nat (List.length desired), deg)
      end
  | None => (Z.of_nat (List.length desired), 10 ^ 9)
  end.

(** The order of the task column: strings by code point, missing values
    last. *)
Definition task_name_leb (a b : option string) : bool :=
  match a, b with
  | Some x, Some y => String.leb x y
  | Some _, None => true
  | None, Some _ => false
  | None, None => true
  end.

(** The order of [sort_values(by=["__ord1__", "__ord2__", task_col])]. *)
Definition task_order_leb (a b : option string) : bool :=
  let '(a1, a2) := task_order_parts a in
  let '(b1, b2) := task_order_parts b in
  if a1 <? b1 then true
  else if b1 <? a1 then false
  else if a2 <? b2 then true
  else if b2 <? a2 then false
  else task_name_leb a b.

Section Sorting.
Context {A : Type}.
Variable leb : A -> A -> bool.

Fixpoint insert_by (x : A) (l : list A) : list A :=
  match l with
  | [] => [x]
  | y :: l' => if leb x y then x :: l else y :: insert_by x l'
  end.

(** A stable sort ([kind="mergesort"]): rows of equal key keep their
    order. *)
Definition sort_by (l : list A) : list A := fold_right insert_by [] l.
End Sorting.

(** [_sort_df_by_task_order], for a frame that has the task column.  On a
    frame without rows the call of [zip] yields nothing, and the
    assignment of it to the two helper columns raises [ValueError]. *)
Definition _sort_df_by_task_order {A : Type} (task_col : A -> option string)
           (df : list A) : Exc (list A) :=
  match df with
  | [] => Raise ValueError
  | _ :: _ => Ok (sort_by (fun a b => task_order_leb (task_col a) (task_col b)) df)
  end.

(** The order of two pairs of helper columns. *)
Definition parts_le (p q : Z * Z) : Prop :=
  fst p < fst q \/ (fst p = fst q /\ snd p <= snd q).

(** ** Sheet names *)

(** [set(':\\/?*[]')]: the characters a sheet name may not hold. *)
Definition invalid : list ascii := list_ascii_of_string ":\/?*[]".

(** [c in invalid] *)
Definition is_invalid (c : ascii) : bool := existsb (Ascii.eqb c) invalid.

(** [''.join(c if c not in invalid else '_' for c in name)] cut by
    [safe[:31]]. *)
Definition safe_of (name : string) : string :=
  String.substring 0 31
    (string_of_list_ascii
       (map (fun c => if is_invalid c then "_"%char else c) (list_ascii_of_string name))).

(** The registry [used]: a dict from sheet names to counters, in insertion
    order. *)
Definition registry : Type := list (string * Z).

(** [key in used] *)
Definition reg_has (key : string) (used : registry) : bool :=
  existsb (fun kv => String.eqb (fst kv) key) used.

(** [used.get(key, default)] *)
Fixpoint reg_get (used : registry) (key : string) (default : Z) : Z :=
  match used with
  | [] => default
  | (k, v) :: used' => if String.eqb k key then v else reg_get used' key default
  end.

(** [used[key] = v]: a key that is there keeps its place, a new key goes
    to the end. *)
Fixpoint reg_set (used : registry) (key : string) (v : Z) : registry :=
  match used with
  | [] => [(key, v)]
  | (k, x) :: used' =>
      if String.eqb k key then (k, v) :: used' else (k, x) :: reg_set used' key v
  end.

(** [f"_{idx}"] *)
Definition suffix_of (idx : Z) : string := String "_" (Py.string_of_Z idx).

(** [base[: max(0, 31 - len(f"_{idx}"))] + f"_{idx}"] *)
Definition candidate_of (base : string) (idx : Z) : string :=
  append (String.substring 0 (31 - String.length (suffix_of idx)) base) (suffix_of idx).

(** The [while True] loop, entered with the value [idx] has before the
    increment.  [fuel] bounds the number of rounds; [None] stands for a loop
    that has not returned within the bound. *)
Fixpoint next_free (fuel : nat) (base : string) (used : registry) (idx : Z) : option string :=
  match fuel with
  | O => None
  | S fuel' =>
      let idx := idx + 1 in
      let candidate := candidate_of base idx in
      if reg_has candidate used then next_free fuel' base used idx else Some candidate
  end.

(** [sanitize_sheet_name(name, used)]: the name returned and the registry
    after the call.  The loop is given one round more than the registry has
    keys. *)
Definition sanitize_sheet_name (name : string) (used : option registry)
  : option (string * option registry) :=
  let safe := safe_of name in
  match used with
  | None => Some (safe, None)
  | Some used =>
      let base := safe in
      let idx := reg_get used base 0 in
      if ((idx =? 0) && negb (reg_has base used))%bool then
        Some (base, Some (reg_set used base 1))
      else
        match next_free (S (List.length used)) base used idx with
        | Some candidate => Some (candidate, Some (reg_set used candidate 1))
        | None => None
        end
  end.

(** The candidates the loop goes through in [fuel] rounds after [idx]. *)
Fixpoint candidates (fuel : nat) (base : string) (idx : Z) : list string :=
  match fuel with
  | O => []
  | S fuel' => candidate_of base (idx + 1) :: candidates fuel' base (idx + 1)
  end.

(** What is read of a list of characters before its first underscore. *)
Fixpoint until_underscore (l : list ascii) : list ascii :=
  match l with
  | [] => []
  | c :: l' => if Ascii.eqb c "_" then [] else c :: until_underscore l'
  end.

(** ** Time stamps *)

(** A stamp [20YYMMDDThhmmssZ], [date] being [YYMMDD] and [time]
    [hhmmss]. *)
Definition stamp_of (date time : list ascii) : list ascii :=
  ("2"%char :: "0"%char :: date ++ "T"%char :: time ++ ["Z"%char])%list.

(** The date and time the fields of a stamp denote. *)
Definition stamp_datetime (date time : list ascii) : datetime :=
  {| year := decimal_value ("2"%char :: "0"%char :: firstn 2 date);
     month := decimal_value (firstn 2 (skipn 2 date));
     day := decimal_value (skipn 4 date);
     hour := decimal_value (firstn 2 time);
     minute := decimal_value (firstn 2 (skipn 2 time));
     second := decimal_value (skipn 4 time) |}.

(** A date of the calendar and a time of the day. *)
Definition in_calendar (dt : datetime) : bool :=
  ((1 <=? month dt) && (month dt <=? 12) && (1 <=? day dt)
   && (day dt <=? days_in_month (year dt) (month dt))
   && (hour dt <=? 23) && (minute dt <=? 59) && (second dt <=? 59))%bool.

(** ** Task names without their time stamp ([remove_suffix]) *)

(** [-20\d{6}T\d{6}Z$] *)
Definition task_suffix_pattern : Re.re :=
  Re.cat [Re.str "-20"; Re.times 6 (Re.Chr Re.digit); Re.str "T";
          Re.times 6 (Re.Chr Re.digit); Re.str "Z"; Re.Eol].

(** [pattern.sub("", s)]: the text outside the successive matches. *)
Fixpoint sub_from (fuel : nat) (icase : bool) (r : Re.re) (p : option ascii)
         (s : list ascii) : list ascii :=
  match fuel with
  | O => s
  | S fuel' =>
      match Re.search_from icase r p s with
      | None => s
      | Some (caps, start, stop) =>
          (firstn (List.length s - List.length (Re.rest start)) s ++
           (if Nat.ltb (List.length (Re.rest stop)) (List.length (Re.rest start))
            then sub_from fuel' icase r (Re.prev stop) (Re.rest stop)
            else match Re.rest stop with
                 | [] => []
                 | c :: s' => c :: sub_from fuel' icase r (Some c) s'
                 end))%list
      end
  end.

Definition re_sub_empty (icase : bool) (r : Re.re) (s : string) : string :=
  string_of_list_ascii
    (sub_from (S (String.length s)) icase r None (list_ascii_of_string s)).

(** [lambda x: re.sub(r"-20\d{6}T\d{6}Z$", "", x) if isinstance(x, str) else x] *)
Definition strip_task_suffix (x : option string) : option string :=
  option_map (re_sub_empty false task_suffix_pattern) x.

(** The column [task] of the frame that [export_to_excel] writes from. *)
Definition output_task (remove_suffix : bool) (r : ParsedRow) : option string :=
  if remove_suffix then strip_task_suffix (task r) else task r.

(** The column [tcol] of the summary: [task_norm], computed from the
    column [task] of that frame, under [remove_suffix]. *)
Definition summary_task (remove_suffix : bool) (r : ParsedRow) : option string :=
  if remove_suffix then strip_task_suffix (output_task remove_suffix r)
  else output_task remove_suffix r.

(** A task name followed by a dash and a stamp. *)
Definition stamped (name date time : list ascii) : list ascii :=
  (name ++ "-"%char :: stamp_of date time)%list.

(** The classes a pattern of fixed shape takes one after the other; a
    pattern with an alternative or a repetition has none. *)
Fixpoint shape (r : Re.re) : option (list (ascii -> bool)) :=
  match r with
  | Re.Eps | Re.Bol | Re.Eol | Re.WordB => Some []
  | Re.Chr p => Some [p]
  | Re.Seq a b =>
      match shape a, shape b with
      | Some x, Some y => Some (x ++ y)%list
      | _, _ => None
      end
  | Re.Group _ a => shape a
  | Re.Alt _ _ | Re.Star _ _ => None
  end.

(** The part of [task_suffix_pattern] in front of the [$]. *)
Definition task_suffix_body : Re.re :=
  Re.cat [Re.str "-20"; Re.times 6 (Re.Chr Re.digit); Re.str "T";
          Re.times 6 (Re.Chr Re.digit); Re.str "Z"].

(** * Properties *)

(** ** Arithmetic of the float model *)

Lemma fdiv_spec (a b : Q) : Qeq (fdiv a b) (a / b).
Proof. unfold fdiv. apply Qred_correct. Qed.

Lemma fmul_spec (a b : Q) : Qeq (fmul a b) (a * b).
Proof. unfold fmul. apply Qred_correct. Qed.

Lemma Qgt_bool_true (a b : Q) : Qgt_bool a b = true <-> (b < a)%Q.
Proof.
  unfold Qgt_bool. rewrite negb_true_iff.
  split; intros H.
  - apply Qnot_le_lt. intros Hle. apply Qle_bool_iff in Hle. congruence.
  - destruct (Qle_bool a b) eqn:E; [|reflexivity].
    apply Qle_bool_iff in E. exfalso. exact (Qlt_not_le _ _ H E).
Qed.

Lemma Qgt_bool_false (a b : Q) : Qgt_bool a b = false <-> (a <= b)%Q.
Proof.
  unfold Qgt_bool. rewrite negb_false_iff. apply Qle_bool_iff.
Qed.

(** ** Bandwidth units of the text parser *)

Lemma existsb_eqb_In (s : string) (l : list string) :
  existsb (String.eqb s) l = true <-> In s l.
Proof.
  rewrite existsb_exists. split.
  - intros [x [Hin Heq]]. apply String.eqb_eq in Heq. now subst.
  - intros Hin. exists s. split; [assumption|apply String.eqb_refl].
Qed.

Lemma existsb_eqb_not_In (s : string) (l : list string) :
  ~ In s l -> existsb (String.eqb s) l = false.
Proof.
  intros H. destruct (existsb (String.eqb s) l) eqn:E; [|reflexivity].
  apply existsb_eqb_In in E. contradiction.
Qed.

Lemma bw_kilo (value unit : string) (v : Q) :
  Py.float_of_str value = Some v ->
  In (unit_norm unit) ["kb/s"; "kib/s"] ->
  float_is (_parse_bw_to_MBps value unit) (v * 1024 / 1000000).
Proof.
  intros Hv Hu. unfold _parse_bw_to_MBps. rewrite Hv.
  fold (unit_norm unit).
  apply existsb_eqb_In in Hu. rewrite Hu. simpl.
  rewrite fdiv_spec, fmul_spec. reflexivity.
Qed.

Lemma bw_mega (value unit : string) (v : Q) :
  Py.float_of_str value = Some v ->
  In (unit_norm unit) ["mb/s"; "mib/s"] ->
  float_is (_parse_bw_to_MBps value unit) (v * 1024 * 1024 / 1000000).
Proof.
  intros Hv Hu. unfold _parse_bw_to_MBps. rewrite Hv.
  fold (unit_norm unit).
  rewrite (existsb_eqb_not_In (unit_norm unit) ["kb/s"; "kib/s"]).
  2:{ simpl in *. intros [E|[E|[]]]; rewrite <- E in Hu;
      destruct Hu as [F|[F|[]]]; discriminate F. }
  apply existsb_eqb_In in Hu. rewrite Hu. simpl.
  rewrite fdiv_spec, !fmul_spec. reflexivity.
Qed.

Lemma bw_giga (value unit : string) (v : Q) :
  Py.float_of_str value = Some v ->
  In (unit_norm unit) ["gb/s"; "gib/s"] ->
  float_is (_parse_bw_to_MBps value unit) (v * 1024 * 1024 * 1024 / 1000000).
Proof.
  intros Hv Hu. unfold _parse_bw_to_MBps. rewrite Hv.
  fold (unit_norm unit).
  rewrite (existsb_eqb_not_In (unit_norm unit) ["kb/s"; "kib/s"]).
  2:{ simpl in *. intros [E|[E|[]]]; rewrite <- E in Hu;
      destruct Hu as [F|[F|[]]]; discriminate F. }
  rewrite (existsb_eqb_not_In (unit_norm unit) ["mb/s"; "mib/s"]).
  2:{ simpl in *. intros [E|[E|[]]]; rewrite <- E in Hu;
      destruct Hu as [F|[F|[]]]; discriminate F. }
  apply existsb_eqb_In in Hu. rewrite Hu. simpl.
  rewrite fdiv_spec, !fmul_spec. reflexivity.
Qed.

Lemma bw_bytes (value unit : string) (v : Q) :
  Py.float_of_str value = Some v ->
  ~ In (unit_norm unit) prefixed_units ->
  Py.endswith "b/s" (unit_norm unit) = true ->
  float_is (_parse_bw_to_MBps value unit) (v / 1000000).
Proof.
  intros Hv Hu He. unfold _parse_bw_to_MBps. rewrite Hv.
  fold (unit_norm unit).
  rewrite !existsb_eqb_not_In, He.
  - simpl. apply fdiv_spec.
  - intros H. apply Hu. unfold prefixed_units. simpl in *. tauto.
  - intros H. apply Hu. unfold prefixed_units. simpl in *. tauto.
  - intros H. apply Hu. unfold prefixed_units. simpl in *. tauto.
Qed.

Lemma bw_other (value unit : string) :
  Py.endswith "b/s" (unit_norm unit) = false ->
  _parse_bw_to_MBps value unit = None.
Proof.
  intros He. unfold _parse_bw_to_MBps.
  destruct (Py.float_of_str value) as [v|]; [|reflexivity].
  fold (unit_norm unit).
  rewrite !existsb_eqb_not_In, He; try reflexivity;
    simpl; intros H; repeat destruct H as [H|H]; try contradiction;
    rewrite <- H in He; discriminate He.
Qed.

(** C10: the bandwidth conversion of the text parser takes the SI and the
    binary spelling of a prefix for the same factor of 1024: for a value
    [v] that [float] reads, [KB/s] and [KiB/s] give [v*1024/10^6], [MB/s]
    and [MiB/s] give [v*1024^2/10^6], [GB/s] and [GiB/s] give
    [v*1024^3/10^6]; another token that ends in [B/s] gives [v/10^6]; a
    token that does not end in [B/s] gives no result.  The token is
    compared as the code compares it, stripped and in lower case. *)
Theorem C10_bandwidth_units (value : string) (v : Q)
        (Hv : Py.float_of_str value = Some v) :
  (float_is (_parse_bw_to_MBps value "KB/s") (v * 1024 / 1000000)
   /\ _parse_bw_to_MBps value "KB/s" = _parse_bw_to_MBps value "KiB/s")
  /\ (float_is (_parse_bw_to_MBps value "MB/s") (v * 1024 * 1024 / 1000000)
      /\ _parse_bw_to_MBps value "MB/s" = _parse_bw_to_MBps value "MiB/s")
  /\ (float_is (_parse_bw_to_MBps value "GB/s") (v * 1024 * 1024 * 1024 / 1000000)
      /\ _parse_bw_to_MBps value "GB/s" = _parse_bw_to_MBps value "GiB/s")
  /\ (forall unit, In (unit_norm unit) ["kb/s"; "kib/s"] ->
        float_is (_parse_bw_to_MBps value unit) (v * 1024 / 1000000))
  /\ (forall unit, In (unit_norm unit) ["mb/s"; "mib/s"] ->
        float_is (_parse_bw_to_MBps value unit) (v * 1024 * 1024 / 1000000))
  /\ (forall unit, In (unit_norm unit) ["gb/s"; "gib/s"] ->
        float_is (_parse_bw_to_MBps value unit) (v * 1024 * 1024 * 1024 / 1000000))
  /\ (forall unit, ~ In (unit_norm unit) prefixed_units ->
        Py.endswith "b/s" (unit_norm unit) = true ->
        float_is (_parse_bw_to_MBps value unit) (v / 1000000))
  /\ (forall unit, Py.endswith "b/s" (unit_norm unit) = false ->
        _parse_bw_to_MBps value unit = None).
Proof.
  split; [split|split; [split|split; [split|repeat split]]].
  - apply bw_kilo; [assumption|simpl; tauto].
  - unfold _parse_bw_to_MBps. rewrite Hv. reflexivity.
  - apply bw_mega; [assumption|simpl; tauto].
  - unfold _parse_bw_to_MBps. rewrite Hv. reflexivity.
  - apply bw_giga; [assumption|simpl; tauto].
  - unfold _parse_bw_to_MBps. rewrite Hv. reflexivity.
  - intros unit. now apply bw_kilo.
  - intros unit. now apply bw_mega.
  - intros unit. now apply bw_giga.
  - intros unit. now apply bw_bytes.
  - intros unit. now apply bw_other.
Qed.

Lemma C10_bandwidth_units_witness :
  Py.float_of_str "4000" = Some (4000 # 1)
  /\ float_is (_parse_bw_to_MBps "4000" "KB/s") ((4000 # 1) * 1024 / 1000000)
  /\ _parse_bw_to_MBps "4000" "KB/s" = _parse_bw_to_MBps "4000" "KiB/s"
  /\ _parse_bw_to_MBps "4000" "sectors" = None.
Proof.
  assert (H : Py.float_of_str "4000" = Some (4000 # 1)) by reflexivity.
  pose proof (C10_bandwidth_units "4000" (4000 # 1) H) as T.
  split; [exact H|].
  split; [exact (proj1 (proj1 T))|].
  split; [exact (proj2 (proj1 T))|].
  apply (proj2 (proj2 (proj2 (proj2 (proj2 (proj2 (proj2 T))))))).
  reflexivity.
Defined.

(** ** The exception monad *)

Lemma bind_Ok {A B : Type} (m : Exc A) (f : A -> Exc B) (b : B) :
  bind m f = Ok b -> exists a, m = Ok a /\ f a = Ok b.
Proof.
  destruct m as [a|e]; simpl; intros H; [|discriminate H].
  exists a. split; [reflexivity|assumption].
Qed.

Ltac bind_inv H :=
  let a := fresh "a" in
  let Ha := fresh "Ha" in
  apply bind_Ok in H; destruct H as [a [Ha H]].

Lemma map_exc_In {A B : Type} (f : A -> Exc B) (xs : list A) (ys : list B) :
  map_exc f xs = Ok ys ->
  forall y, In y ys -> exists x, In x xs /\ f x = Ok y.
Proof.
  revert ys. induction xs as [|x xs IH]; simpl; intros ys H y Hy.
  - inversion H; subst. contradiction.
  - bind_inv H. bind_inv H. inversion H; subst.
    destruct Hy as [Hy|Hy].
    + subst. exists x. split; [now left|assumption].
    + destruct (IH _ Ha0 y Hy) as [x' [Hin Hx']].
      exists x'. split; [now right|assumption].
Qed.

Lemma ParsedRow_init_Given
      sf tk ts rn jn rw_ ap bs_ bb io nj rt sz op_ i bw lm p99 p95 p50 t row :
  ParsedRow_init sf tk ts rn jn rw_ ap bs_ bb io nj rt sz op_ i bw lm p99 p95 p50 (Given t)
  = Ok row ->
  row = {| source_file := sf; task := tk; timestamp := ts; runner := rn;
           jobname := jn; rw := rw_; access_pattern := ap; bs := bs_;
           bs_bytes := bb; iodepth := io; numjobs := nj; runtime_s := rt;
           size_bytes := sz; op := op_; iops := i; bw_MBps := bw;
           lat_mean_ms := lm; clat_p99_ms := p99; clat_p95_ms := p95;
           clat_p50_ms := p50; total_ios := t |}.
Proof. simpl. intros H. now inversion H. Qed.

(** What [parse_op] puts in a row. *)
Lemma parse_op_row meta op_ od sf tk rn row :
  parse_op meta op_ od sf tk rn = Ok row ->
  exists fields,
    od = JObj fields
    /\ op row = op_
    /\ runtime_s row = jm_runtime_s meta
    /\ iops row = _to_float (dict_get fields "iops" JNull)
    /\ bw_MBps row = _kbps_to_MBps (_to_float (dict_get fields "bw" JNull))
    /\ total_ios row = _to_int (dict_get fields "total_ios" JNull)
    /\ lat_mean_ms row =
         lat_mean_ms_of (container od Completion Nanosecond)
           (container od Completion Microsecond) (container od Completion Generic)
           (container od Total Nanosecond) (container od Total Microsecond)
           (container od Total Generic)
    /\ (clat_p99_ms row, clat_p95_ms row, clat_p50_ms row) =
         clat_pcts_of (container od Completion Nanosecond)
           (container od Completion Microsecond) (container od Completion Generic).
Proof.
  intros H. destruct od as [| | | | | |fields]; try discriminate H.
  exists fields. split; [reflexivity|].
  unfold parse_op in H. simpl in H.
  destruct (clat_pcts_of _ _ _) as [[p99 p95] p50] eqn:E.
  apply ParsedRow_init_Given in H. subst row. simpl.
  repeat split; try reflexivity; try (symmetry; exact E).
Qed.

Lemma job_meta_runtime data job meta :
  job_meta_of data job = Ok meta ->
  exists raw, runtime_ms_of data job = Ok raw /\ jm_runtime_s meta = runtime_s_of raw.
Proof.
  intros H. unfold job_meta_of in H.
  repeat bind_inv H.
  inversion H; subst; simpl.
  eexists. split; [eassumption|reflexivity].
Qed.

Lemma parse_job_rows data job sf tk rn rows :
  parse_job data job sf tk rn = Ok rows ->
  exists meta fields,
    job_meta_of data job = Ok meta /\ job = JObj fields
    /\ forall r, In r rows ->
         exists op_, In op_ ["read"; "write"] /\ has_key op_ fields = true
                     /\ parse_op meta op_ (dict_get fields op_ JNull) sf tk rn = Ok r.
Proof.
  intros H. unfold parse_job in H. bind_inv H.
  destruct job as [| | | | | |fields]; try discriminate H.
  exists a, fields. repeat split; try assumption.
  intros r Hr. destruct (map_exc_In _ _ _ H r Hr) as [o [Ho Hp]].
  apply filter_In in Ho. destruct Ho as [Ho Hk].
  exists o. repeat split; assumption.
Qed.

(** ** Runtime *)

Lemma runtime_s_of_float (raw : json) (y : Q) :
  _to_float raw = Some y ->
  runtime_s_of raw = Some (if Qgt_bool y 1000 then fdiv y 1000 else y).
Proof.
  intros H. unfold runtime_s_of.
  destruct (is_None raw) eqn:E.
  - destruct raw; try discriminate E. discriminate H.
  - rewrite H. destruct (Qgt_bool y 1000); reflexivity.
Qed.

Lemma runtime_s_of_no_float (raw : json) :
  _to_float raw = None -> runtime_s_of raw = None.
Proof.
  intros H. unfold runtime_s_of. destruct (is_None raw); [reflexivity|].
  now rewrite H.
Qed.

(** A number is falsy exactly when it is zero. *)
Lemma number_truthy (v : json) (x : Q) :
  number_value v = Some x -> truthy v = negb (Qeq_bool x 0).
Proof.
  destruct v; simpl; intros H; inversion H; subst; [|reflexivity].
  unfold Qeq_bool, inject_Z. cbn [Qnum Qden].
  rewrite Z.mul_1_r. reflexivity.
Qed.

(** ** Integers as floats *)

Lemma digits2_size (p : positive) : digits2_pos p = Pos.size p.
Proof. induction p as [p IH|p IH|]; simpl; [now rewrite IH|now rewrite IH|reflexivity]. Qed.

Lemma digits2_bound (p : positive) (n : Z) :
  0 <= n -> Zpos p < 2 ^ n -> Zpos (digits2_pos p) <= n.
Proof.
  intros Hn H. rewrite digits2_size.
  pose proof (Pos.size_le p) as L.
  assert (L' : 2 ^ Zpos (Pos.size p) <= 2 * Zpos p).
  { apply Pos2Z.pos_le_pos in L. rewrite Pos2Z.inj_pow in L. exact L. }
  destruct (Z.le_gt_cases (Zpos (Pos.size p)) n) as [C|C]; [exact C|].
  exfalso.
  assert (2 ^ (n + 1) <= 2 ^ Zpos (Pos.size p)) by (apply Z.pow_le_mono_r; lia).
  rewrite Z.pow_add_r in H0 by lia. lia.
Qed.

Lemma digits2_iter_xO (p k : positive) :
  Zpos (digits2_pos (Pos.iter xO p k)) = Zpos (digits2_pos p) + Zpos k.
Proof.
  induction k as [|k IH] using Pos.peano_ind.
  - simpl. lia.
  - rewrite Pos.iter_succ. simpl. lia.
Qed.

Lemma iter_xO_value (p k : positive) : Zpos (Pos.iter xO p k) = Zpos p * 2 ^ Zpos k.
Proof.
  induction k as [|k IH] using Pos.peano_ind.
  - simpl. lia.
  - rewrite Pos.iter_succ. rewrite Pos2Z.inj_succ, Z.pow_succ_r by lia.
    change (Zpos (Pos.iter xO p k)~0) with (2 * Zpos (Pos.iter xO p k)). lia.
Qed.

(** A mantissa of 53 digits with an exponent between -52 and 0 is kept as
    it is by the rounding. *)
Lemma binary_round_aux_exact (s : bool) (m : positive) (e : Z) :
  Zpos (digits2_pos m) = 53 -> -52 <= e <= 0 ->
  binary_round_aux Py.prec Py.emax s (Zpos m) e loc_Exact = S754_finite s m e.
Proof.
  intros Hd He. unfold binary_round_aux.
  assert (F : shr_fexp Py.prec Py.emax (Zpos m) e loc_Exact
            = ({| shr_m := Zpos m; shr_r := false; shr_s := false |}, e)).
  { unfold shr_fexp, shr, fexp, emin, Py.prec, Py.emax. cbn [Zdigits2 shr_record_of_loc].
    rewrite Hd.
    replace (Z.max (53 + e - 53) (3 - 1024 - 53) - e) with 0 by lia. reflexivity. }
  rewrite F. cbn [shr_m loc_of_shr_record round_nearest_even].
  rewrite F. cbn [shr_m].
  replace (e <=? Py.emax - Py.prec) with true; [reflexivity|].
  symmetry. apply Z.leb_le. unfold Py.emax, Py.prec. lia.
Qed.

Lemma float_of_pos_exact (s : bool) (p : positive) :
  Zpos p < 2 ^ 53 ->
  exists m e, binary_round Py.prec Py.emax s p 0 = S754_finite s m e
              /\ e <= 0 /\ Zpos m = Zpos p * 2 ^ (- e).
Proof.
  intros H. pose proof (digits2_bound p 53 ltac:(lia) H) as D.
  assert (D1 : 1 <= Zpos (digits2_pos p)) by lia.
  unfold binary_round.
  assert (Fx : fexp Py.prec Py.emax (Zpos (digits2_pos p) + 0) = Zpos (digits2_pos p) - 53).
  { unfold fexp, emin, Py.prec, Py.emax. lia. }
  rewrite Fx. unfold shl_align.
  destruct (Zpos (digits2_pos p) - 53 - 0) as [|k|k] eqn:K; try lia.
  - exists p, 0. split; [|split; [lia|simpl; lia]].
    apply binary_round_aux_exact; lia.
  - exists (Pos.iter xO p k), (Zpos (digits2_pos p) - 53).
    split; [|split; [lia|]].
    + apply binary_round_aux_exact; [|lia].
      rewrite digits2_iter_xO. lia.
    + rewrite iter_xO_value. f_equal. f_equal. lia.
Qed.

Lemma float_value_exact (s : bool) (m : positive) (e : Z) (z : Z) :
  e <= 0 -> (if s then Zneg m else Zpos m) = z * 2 ^ (- e) ->
  float_is (Py.float_value (S754_finite s m e)) (inject_Z z).
Proof.
  intros He Hm. unfold Py.float_value, float_is. rewrite Qred_correct.
  destruct (Z.leb_spec 0 e) as [C|C].
  - assert (e = 0) by lia. subst e. simpl in Hm. rewrite Hm.
    unfold Qeq, inject_Z. simpl. lia.
  - rewrite Hm. unfold Qeq. cbn [Qnum Qden inject_Z].
    rewrite Z2Pos.id by (apply Z.pow_pos_nonneg; lia). lia.
Qed.

(** An integer below 2^53 in size is a float. *)
Lemma float_of_small_int (z : Z) :
  Z.abs z < 2 ^ 53 -> float_is (_to_float (JInt z)) (inject_Z z).
Proof.
  intros H. unfold _to_float, Py.float_of_int, binary_normalize.
  destruct z as [|p|p].
  - simpl. reflexivity.
  - destruct (float_of_pos_exact false p H) as [m [e [E [He Hm]]]].
    rewrite E. now apply float_value_exact.
  - destruct (float_of_pos_exact true p H) as [m [e [E [He Hm]]]].
    rewrite E. apply float_value_exact; [exact He|].
    change (Zneg m) with (- Zpos m). change (Zneg p) with (- Zpos p). lia.
Qed.

(** C8, as the code has it: the runtime of a row is taken from the
    runtime of the job unless that is zero, and then from the global
    options.  For a job whose runtime is a number other than zero, which
    [float] gives as [y], every row stores [y / 1000] if [y] exceeds 1000
    and [y] otherwise, and no runtime if [float] does not give it (an
    integer beyond the range of the floats, such as 10^400); [y] is the
    number itself for a JSON float and for an integer below 2^53 in size.
    For a job whose runtime is the number zero the rows do not store the
    zero: they store what the runtime of the global options gives, 5 where
    that is 5000, although the heuristic applied to the zero would keep
    it. *)
Theorem C8_runtime_as_coded (data : json) (jf : list (string * json)) (x : Q)
        (source_file : string) (task runner : option string) (rows : list ParsedRow)
        (Hnum : number_value (dict_get jf "runtime" JNull) = Some x)
        (Hrows : parse_job data (JObj jf) source_file task runner = Ok rows) :
  (forall r, In r rows ->
     (~ (x == 0)%Q ->
        (forall y, _to_float (dict_get jf "runtime" JNull) = Some y ->
           ((1000 < y)%Q -> float_is (runtime_s r) (y / 1000))
           /\ ((y <= 1000)%Q -> runtime_s r = Some y))
        /\ (_to_float (dict_get jf "runtime" JNull) = None -> runtime_s r = None))
     /\ ((x == 0)%Q ->
           exists g graw,
             get_default data "global options" (JObj []) = Ok g
             /\ get g "runtime" = Ok graw
             /\ runtime_s r = runtime_s_of graw))
  /\ (forall q, _to_float (JFloat q) = Some q)
  /\ (forall z, Z.abs z < 2 ^ 53 -> float_is (_to_float (JInt z)) (inject_Z z))
  /\ _to_float (JInt (10 ^ 400)) = None
  /\ map runtime_s (rows_of (parse_fio_json global_runtime_doc "a/fio.json" None None))
     = [Some 5%Q]
  /\ runtime_s_of (JInt 0) = Some 0%Q.
Proof.
  split; [|split; [reflexivity|split; [exact float_of_small_int|split; [vm_compute; reflexivity|]]]].
  2: split; reflexivity.
  intros r Hr.
  destruct (parse_job_rows _ _ _ _ _ _ Hrows) as [meta [fields [Hm [Hj Hall]]]].
  destruct (Hall r Hr) as [o [_ [_ Hp]]].
  destruct (parse_op_row _ _ _ _ _ _ _ Hp) as [fs [_ [_ [Hrt _]]]].
  destruct (job_meta_runtime _ _ _ Hm) as [raw [Hraw Hs]].
  rewrite Hrt, Hs.
  unfold runtime_ms_of, get at 1, get_default at 1 in Hraw. cbn [bind] in Hraw.
  rewrite (number_truthy _ _ Hnum) in Hraw.
  split; intros Hx.
  - assert (E : Qeq_bool x 0 = false).
    { destruct (Qeq_bool x 0) eqn:Q0; [|reflexivity].
      apply Qeq_bool_iff in Q0. contradiction. }
    rewrite E in Hraw. cbn [negb] in Hraw. inversion Hraw; subst raw.
    split.
    + intros y Hy. rewrite (runtime_s_of_float _ _ Hy).
      split; intros Hc.
      * apply Qgt_bool_true in Hc. rewrite Hc. simpl. apply fdiv_spec.
      * apply Qgt_bool_false in Hc. rewrite Hc. reflexivity.
    + intros Hn. now apply runtime_s_of_no_float.
  - apply Qeq_bool_iff in Hx. rewrite Hx in Hraw. cbn [negb] in Hraw.
    bind_inv Hraw. exists a, raw. repeat split; assumption.
Qed.

Lemma C8_runtime_as_coded_witness :
  _to_float (JInt 60000) = Some 60000%Q
  /\ float_is
       (hd None (map runtime_s (rows_of (parse_job (JObj []) runtime_job "a/fio.json" None None))))
       (60000 / 1000)
  /\ hd None (map runtime_s
                (rows_of (parse_job global_runtime_doc zero_runtime_job "a/fio.json" None None)))
     = Some 5%Q.
Proof.
  split; [reflexivity|].
  pose proof (C8_runtime_as_coded (JObj [])
                [("jobname", JStr "job1"); ("runtime", JInt 60000);
                 ("read", JObj [("iops", JInt 100)])]
                60000%Q "a/fio.json" None None
                (rows_of (parse_job (JObj []) runtime_job "a/fio.json" None None))
                eq_refl eq_refl) as T.
  destruct T as [T _].
  specialize (T (hd (attempt "" "" "" 0 0)
                    (rows_of (parse_job (JObj []) runtime_job "a/fio.json" None None)))
                (or_introl eq_refl)).
  destruct T as [T _].
  split.
  - destruct (T ltac:(discriminate)) as [Ta _].
    apply (Ta 60000%Q eq_refl). reflexivity.
  - reflexivity.
Defined.

(** ** Task names *)

Lemma find_first {A : Type} (p : A -> bool) (l : list A) (x : A) :
  find p l = Some x ->
  exists pre post, l = (pre ++ x :: post)%list /\ p x = true
                   /\ forall y, In y pre -> p y = false.
Proof.
  induction l as [|a l IH]; simpl; intros H; [discriminate H|].
  destruct (p a) eqn:E.
  - inversion H; subst. exists [], l. repeat split; [assumption|contradiction].
  - destruct (IH H) as [pre [post [Hl [Hx Hpre]]]].
    exists (a :: pre), post. subst l. repeat split; [assumption|].
    intros y [Hy|Hy]; [now subst|now apply Hpre].
Qed.

Lemma find_none_all {A : Type} (p : A -> bool) (l : list A) :
  find p l = None <-> forall y, In y l -> p y = false.
Proof.
  split.
  - intros H y Hy. exact (find_none p l H y Hy).
  - induction l as [|a l IH]; simpl; intros H; [reflexivity|].
    rewrite (H a (or_introl eq_refl)). apply IH.
    intros y Hy. apply H. now right.
Qed.

Lemma find_app_first {A : Type} (p : A -> bool) (pre post : list A) (x : A) :
  p x = true -> (forall y, In y pre -> p y = false) ->
  find p (pre ++ x :: post) = Some x.
Proof.
  intros Hx. induction pre as [|a pre IH]; simpl; intros Hpre.
  - now rewrite Hx.
  - rewrite (Hpre a (or_introl eq_refl)). apply IH.
    intros y Hy. apply Hpre. now right.
Qed.

Lemma split_not_nil (sep : ascii) (s : string) : Py.split sep s <> [].
Proof.
  destruct s as [|c s]; simpl; [discriminate|].
  destruct (Ascii.eqb c sep); [discriminate|].
  destruct (Py.split sep s); discriminate.
Qed.

(** C9, as the code has it: the task is the first segment of the relative
    path that matches the [parallel-<N>-<letters>-] convention; when no
    segment matches and the path has more than one segment, it is the
    first segment; it is absent exactly when no segment matches and the
    path is a single segment. *)
Theorem C9_task_name (relpath : string -> string -> Exc string)
        (path input_root : string) :
  let parts := rel_parts relpath path input_root in
  let conv := matches true _RE_TASK in
  parts <> []
  /\ (forall pre part post,
        parts = (pre ++ part :: post)%list -> conv part = true ->
        (forall y, In y pre -> conv y = false) ->
        compute_task_name relpath path input_root = Some part)
  /\ ((forall y, In y parts -> conv y = false) -> (1 < List.length parts)%nat ->
        compute_task_name relpath path input_root = Some (hd EmptyString parts))
  /\ (compute_task_name relpath path input_root = None <->
        (forall y, In y parts -> conv y = false) /\ List.length parts = 1%nat).
Proof.
  intros parts conv. unfold compute_task_name, task_of_parts.
  fold parts. fold conv.
  assert (Hne : parts <> []) by apply split_not_nil.
  split; [exact Hne|]. split; [|split].
  - intros pre part post Hp Hc Hpre.
    rewrite Hp. now rewrite (find_app_first conv pre post part Hc Hpre).
  - intros Hall Hlen. apply find_none_all in Hall. rewrite Hall.
    apply Nat.ltb_lt in Hlen. now rewrite Hlen.
  - split.
    + intros H. destruct (find conv parts) eqn:E; [discriminate H|].
      split; [now apply find_none_all|].
      destruct (Nat.ltb 1 (List.length parts)) eqn:L; [discriminate H|].
      apply Nat.ltb_ge in L.
      destruct parts; [contradiction|simpl in *; lia].
    + intros [Hall Hlen]. apply find_none_all in Hall. rewrite Hall, Hlen.
      reflexivity.
Qed.

Lemma C9_task_name_witness :
  compute_task_name (one_file_relpath "run1/parallel-3-randread-a/fio-runner-x/out.json")
    "/data/run1/parallel-3-randread-a/fio-runner-x/out.json" "/data"
  = Some "parallel-3-randread-a"
  /\ compute_task_name (one_file_relpath "run1/out.json") "/data/run1/out.json" "/data"
     = Some "run1".
Proof.
  split.
  - apply (proj1 (proj2 (C9_task_name
             (one_file_relpath "run1/parallel-3-randread-a/fio-runner-x/out.json")
             "/data/run1/parallel-3-randread-a/fio-runner-x/out.json" "/data"))
             ["run1"] "parallel-3-randread-a" ["fio-runner-x"; "out.json"]).
    + reflexivity.
    + reflexivity.
    + intros y [Hy|[]]. subst y. reflexivity.
  - apply (proj1 (proj2 (proj2 (C9_task_name (one_file_relpath "run1/out.json")
                                  "/data/run1/out.json" "/data")))).
    + intros y [Hy|[Hy|[]]]; subst y; reflexivity.
    + simpl. lia.
Defined.

(** C9 as the specification words it fails for a file that lies in the
    scan root: its relative path has a segment, matching nothing, and the
    task is absent all the same. *)
Lemma C9_single_segment_absent :
  rel_parts (one_file_relpath "result.json") "/data/result.json" "/data" = ["result.json"]
  /\ compute_task_name (one_file_relpath "result.json") "/data/result.json" "/data" = None.
Proof. split; reflexivity. Qed.

(** ** Latency containers *)

Lemma lat_mean_by_source (od : json) :
  lat_mean_ms_of (container od Completion Nanosecond)
    (container od Completion Microsecond) (container od Completion Generic)
    (container od Total Nanosecond) (container od Total Microsecond)
    (container od Total Generic)
  = match mean_source od with
    | Some (m, f) => to_ms f (_to_float (mean_of (container od m f)))
    | None => None
    end.
Proof.
  unfold lat_mean_ms_of, mean_source, mean_priority. simpl.
  repeat (destruct (has_mean _); [reflexivity|]). reflexivity.
Qed.

Lemma pcts_by_source (od : json) :
  clat_pcts_of (container od Completion Nanosecond)
    (container od Completion Microsecond) (container od Completion Generic)
  = match pct_source od with
    | Some f => _extract_pcts (container od Completion f) (to_ms f)
    | None => (None, None, None)
    end.
Proof.
  unfold clat_pcts_of, pct_source, pct_priority. simpl.
  repeat (destruct (negb (is_None _)); [reflexivity|]). reflexivity.
Qed.

Lemma None_has_no_mean (c : json) : negb (is_None c) = false -> has_mean c = false.
Proof. destruct c; simpl; intros H; try discriminate H; reflexivity. Qed.

Lemma same_container (od : json) (f : family) :
  pct_source od = Some f ->
  has_mean (container od Completion f) = true ->
  mean_source od = Some (Completion, f).
Proof.
  unfold pct_source, pct_priority, mean_source, mean_priority. simpl.
  destruct (negb (is_None (container od Completion Nanosecond))) eqn:E1.
  - intros H Hm. inversion H; subst f. now rewrite Hm.
  - rewrite (None_has_no_mean _ E1).
    destruct (negb (is_None (container od Completion Microsecond))) eqn:E2.
    + intros H Hm. inversion H; subst f. now rewrite Hm.
    + rewrite (None_has_no_mean _ E2).
      destruct (negb (is_None (container od Completion Generic))) eqn:E3.
      * intros H Hm. inversion H; subst f. now rewrite Hm.
      * intros H. discriminate H.
Qed.

(** C2, as the code has it: the percentiles of a row come from the first
    completion-latency container that is present (nanosecond, microsecond,
    generic, in that order) and are converted with the unit of that
    container; the mean comes from the first container that is a mapping
    with a mean, converted with its own unit; when the container of the
    percentiles is a mapping with a mean, the mean comes from that same
    container. *)
Theorem C2_latency_sources (meta : job_meta) (op_ : string) (od : json)
        (source_file : string) (task runner : option string) (row : ParsedRow)
        (Hrow : parse_op meta op_ od source_file task runner = Ok row) :
  lat_mean_ms row =
    match mean_source od with
    | Some (m, f) => to_ms f (_to_float (mean_of (container od m f)))
    | None => None
    end
  /\ (clat_p99_ms row, clat_p95_ms row, clat_p50_ms row) =
       match pct_source od with
       | Some f => _extract_pcts (container od Completion f) (to_ms f)
       | None => (None, None, None)
       end
  /\ (forall f, pct_source od = Some f ->
        has_mean (container od Completion f) = true ->
        mean_source od = Some (Completion, f)).
Proof.
  destruct (parse_op_row _ _ _ _ _ _ _ Hrow)
    as [fields [_ [_ [_ [_ [_ [_ [Hm Hp]]]]]]]].
  split; [|split].
  - rewrite Hm. apply lat_mean_by_source.
  - rewrite Hp. apply pcts_by_source.
  - intros f. apply same_container.
Qed.

Lemma C2_latency_sources_witness :
  pct_source plain_op_data = Some Nanosecond
  /\ has_mean (container plain_op_data Completion Nanosecond) = true
  /\ mean_source plain_op_data = Some (Completion, Nanosecond)
  /\ lat_mean_ms (row_of (parse_op empty_meta "read" plain_op_data "f.json" None None))
     = Some 3%Q.
Proof.
  pose proof (C2_latency_sources empty_meta "read" plain_op_data "f.json" None None
                (row_of (parse_op empty_meta "read" plain_op_data "f.json" None None))
                eq_refl) as T.
  split; [reflexivity|]. split; [reflexivity|]. split.
  - apply (proj2 (proj2 T)); reflexivity.
  - rewrite (proj1 T). reflexivity.
Defined.

(** C2 as the specification words it fails: this direction has a
    nanosecond and a microsecond completion-latency container; the mean of
    its row comes from the microsecond container and the percentile from
    the nanosecond container. *)
Lemma C2_mixed_families :
  is_None (container mixed_op_data Completion Nanosecond) = false
  /\ is_None (container mixed_op_data Completion Microsecond) = false
  /\ mean_source mixed_op_data = Some (Completion, Microsecond)
  /\ pct_source mixed_op_data = Some Nanosecond
  /\ map lat_mean_ms (rows_of (parse_fio_json mixed_doc "f.json" None None))
     = [Some (1 # 200)%Q]
  /\ map clat_p99_ms (rows_of (parse_fio_json mixed_doc "f.json" None None))
     = [Some 2%Q].
Proof. repeat split; reflexivity. Qed.

(** ** Zero and missing values *)

(** A throughput value of a direction goes through [_to_float]: a zero
    stays a zero and a missing key leaves the field absent. *)
Lemma throughput_zero_or_missing meta op_ fields sf tk rn row :
  parse_op meta op_ (JObj fields) sf tk rn = Ok row ->
  (dict_get fields "iops" JNull = JInt 0 -> iops row = Some 0%Q)
  /\ (dict_get fields "iops" JNull = JNull -> iops row = None)
  /\ (dict_get fields "bw" JNull = JInt 0 -> bw_MBps row = Some 0%Q)
  /\ (dict_get fields "bw" JNull = JNull -> bw_MBps row = None).
Proof.
  intros H. destruct (parse_op_row _ _ _ _ _ _ _ H)
    as [fs [Hf [_ [_ [Hi [Hb _]]]]]].
  inversion Hf; subst fs.
  repeat split; intros E.
  - rewrite Hi, E. reflexivity.
  - rewrite Hi, E. reflexivity.
  - rewrite Hb, E. reflexivity.
  - rewrite Hb, E. reflexivity.
Qed.

(** C5 at a job that reports a runtime of zero: [0 or ...] passes over the
    zero, the global options hold no runtime, and the row has no runtime,
    while the measured IOPS of zero of the same row is kept. *)
Lemma C5_zero_runtime_lost :
  map runtime_s (rows_of (parse_fio_json zero_runtime_doc "a/fio.json" None None)) = [None]
  /\ map iops (rows_of (parse_fio_json zero_runtime_doc "a/fio.json" None None))
     = [Some 0%Q]
  /\ runtime_s_of (JInt 0) = Some 0%Q.
Proof. repeat split; reflexivity. Qed.

(** ** Percentile keys *)

Lemma has_key_In (key : string) (ps : list (string * json)) :
  has_key key ps = true <-> In key (map fst ps).
Proof.
  unfold has_key. rewrite existsb_exists. split.
  - intros [kv [Hin Heq]]. apply String.eqb_eq in Heq. subst key.
    now apply in_map.
  - intros Hin. apply in_map_iff in Hin. destruct Hin as [kv [Heq Hin]].
    exists kv. split; [assumption|]. rewrite Heq. apply String.eqb_refl.
Qed.

(** *** The order of the floats that [abs] returns *)

Lemma fabs_form (x : spec_float) : is_nan x = false -> in_abs_form (Py.fabs x) = true.
Proof. destruct x as [[]|[]| |[] m e]; simpl; intros H; try reflexivity; discriminate H. Qed.

Lemma flt_rank (a b : spec_float) :
  in_abs_form a = true -> in_abs_form b = true ->
  (Py.flt a b = true <-> rank_lt (float_rank a) (float_rank b)).
Proof.
  destruct a as [[]|[]| |[] m1 e1]; try discriminate;
    destruct b as [[]|[]| |[] m2 e2]; try discriminate; intros _ _;
    unfold Py.flt, SFltb, SFcompare, float_rank, rank_lt;
    try (split; [discriminate|lia]); try (split; [lia|reflexivity]).
  change (Pos.compare_cont Eq m1 m2) with (Pos.compare m1 m2).
  destruct (Z.compare_spec e1 e2) as [E|E|E];
    [destruct (Pos.compare_spec m1 m2) as [M|M|M]| |];
    split; intros H; try reflexivity; try discriminate H; try lia.
Qed.

Lemma feq_rank (a b : spec_float) :
  in_abs_form a = true -> in_abs_form b = true ->
  (Py.feq a b = true <-> float_rank a = float_rank b).
Proof.
  destruct a as [[]|[]| |[] m1 e1]; try discriminate;
    destruct b as [[]|[]| |[] m2 e2]; try discriminate; intros _ _;
    unfold Py.feq, SFeqb, SFcompare, float_rank;
    try (split; [discriminate|intros H; inversion H]);
    try (split; reflexivity).
  change (Pos.compare_cont Eq m1 m2) with (Pos.compare m1 m2).
  destruct (Z.compare_spec e1 e2) as [E|E|E];
    [destruct (Pos.compare_spec m1 m2) as [M|M|M]| |];
    split; intros H; try reflexivity; try discriminate H;
    try (inversion H; lia); subst; reflexivity.
Qed.

Lemma rank_lt_irrefl (a : Z * Z * Z) : ~ rank_lt a a.
Proof. destruct a as [[c e] m]. unfold rank_lt. lia. Qed.

Lemma rank_lt_cases (a b : Z * Z * Z) : rank_lt a b \/ a = b \/ rank_lt b a.
Proof.
  destruct a as [[c1 e1] m1], b as [[c2 e2] m2]. unfold rank_lt.
  destruct (Z.lt_trichotomy c1 c2) as [C|[C|C]]; [lia| |lia].
  destruct (Z.lt_trichotomy e1 e2) as [E|[E|E]]; [lia| |lia].
  destruct (Z.lt_trichotomy m1 m2) as [M|[M|M]]; [lia| |lia].
  right. left. subst. reflexivity.
Qed.

Lemma rank_lt_trans (a b c : Z * Z * Z) : rank_lt a b -> rank_lt b c -> rank_lt a c.
Proof.
  destruct a as [[c1 e1] m1], b as [[c2 e2] m2], c as [[c3 e3] m3].
  unfold rank_lt. lia.
Qed.

(** *** The order of the keys *)

Lemma ascii_compare_lt_trans (a b c : ascii) :
  Ascii.compare a b = Lt -> Ascii.compare b c = Lt -> Ascii.compare a c = Lt.
Proof.
  unfold Ascii.compare. rewrite !N.compare_lt_iff. apply N.lt_trans.
Qed.

Lemma ascii_compare_refl (a : ascii) : Ascii.compare a a = Eq.
Proof. unfold Ascii.compare. apply N.compare_refl. Qed.

Lemma string_compare_refl (a : string) : String.compare a a = Eq.
Proof. induction a as [|x a IH]; simpl; [reflexivity|]. now rewrite ascii_compare_refl. Qed.

Lemma string_compare_lt_trans (a b c : string) :
  String.compare a b = Lt -> String.compare b c = Lt -> String.compare a c = Lt.
Proof.
  revert b c. induction a as [|x a IH]; intros [|y b] [|z c]; simpl;
    try discriminate; try reflexivity.
  destruct (Ascii.compare x y) eqn:XY; try discriminate;
    destruct (Ascii.compare y z) eqn:YZ; try discriminate; intros H1 H2.
  - apply Ascii.compare_eq_iff in XY, YZ. subst.
    rewrite ascii_compare_refl. now apply (IH b c).
  - apply Ascii.compare_eq_iff in XY. subst. now rewrite YZ.
  - apply Ascii.compare_eq_iff in YZ. subst. now rewrite XY.
  - now rewrite (ascii_compare_lt_trans x y z XY YZ).
Qed.

(** *** The order of the tuples *)

Lemma pair_lt_before (a b : spec_float * string) :
  in_abs_form (fst a) = true -> in_abs_form (fst b) = true ->
  (pair_lt a b = true <-> pair_before a b).
Proof.
  intros Ha Hb. unfold pair_lt, pair_before.
  destruct (Py.feq (fst a) (fst b)) eqn:E.
  - apply (feq_rank _ _ Ha Hb) in E. rewrite E. split.
    + destruct (String.compare (snd a) (snd b)); try discriminate. intros _. now right.
    + intros [H|[_ H]]; [now apply rank_lt_irrefl in H|now rewrite H].
  - rewrite (flt_rank _ _ Ha Hb). split; [now left|].
    intros [H|[H _]]; [exact H|].
    apply (feq_rank _ _ Ha Hb) in H. congruence.
Qed.

Lemma pair_before_irrefl (a : spec_float * string) : ~ pair_before a a.
Proof.
  intros [H|[_ H]]; [now apply rank_lt_irrefl in H|].
  rewrite string_compare_refl in H. discriminate H.
Qed.

Lemma pair_before_asym (a b : spec_float * string) : pair_before a b -> ~ pair_before b a.
Proof.
  intros [H|[E H]] [H'|[E' H']].
  - exact (rank_lt_irrefl _ (rank_lt_trans _ _ _ H H')).
  - rewrite E' in H. now apply rank_lt_irrefl in H.
  - rewrite E in H'. now apply rank_lt_irrefl in H'.
  - rewrite String.compare_antisym, H' in H. discriminate H.
Qed.

(** What is before [x] is before [y] or has [y] before [x]. *)
Lemma pair_before_split (q y x : spec_float * string) :
  pair_before q x -> pair_before q y \/ pair_before y x.
Proof.
  unfold pair_before. intros [H|[E H]].
  - destruct (rank_lt_cases (float_rank (fst q)) (float_rank (fst y))) as [C|[C|C]].
    + left. now left.
    + right. left. now rewrite <- C.
    + right. left. exact (rank_lt_trans _ _ _ C H).
  - destruct (rank_lt_cases (float_rank (fst q)) (float_rank (fst y))) as [C|[C|C]].
    + left. now left.
    + destruct (String.compare (snd q) (snd y)) eqn:S1.
      * apply String.compare_eq_iff in S1. right. right.
        split; [congruence|]. now rewrite <- S1.
      * left. right. now split.
      * right. right. split; [congruence|].
        apply string_compare_lt_trans with (snd q); [|exact H].
        rewrite String.compare_antisym, S1. reflexivity.
    + right. left. now rewrite <- E.
Qed.

(** *** The sorted list *)

Lemma insert_sorted_In (x y : spec_float * string) (l : list (spec_float * string)) :
  In y (insert_sorted x l) <-> y = x \/ In y l.
Proof.
  induction l as [|z l IH]; simpl; [intuition congruence|].
  destruct (pair_lt z x); simpl; [rewrite IH|]; intuition congruence.
Qed.

Lemma sort_pairs_In (y : spec_float * string) (l : list (spec_float * string)) :
  In y (sort_pairs l) <-> In y l.
Proof.
  induction l as [|x l IH]; simpl; [tauto|].
  rewrite insert_sorted_In, IH. intuition congruence.
Qed.

Lemma sort_pairs_nil l : sort_pairs l = [] -> l = [].
Proof.
  destruct l as [|x l]; [reflexivity|]. intros H.
  assert (Hx : In x (sort_pairs (x :: l))) by (apply sort_pairs_In; now left).
  rewrite H in Hx. contradiction.
Qed.

(** No pair of the list is before the head of the sorted list. *)
Lemma sort_pairs_head l p rest :
  (forall q, In q l -> in_abs_form (fst q) = true) ->
  sort_pairs l = p :: rest ->
  forall q, In q l -> ~ pair_before q p.
Proof.
  revert p rest. induction l as [|x l IH]; simpl; intros p rest Hform H; [discriminate H|].
  assert (Hx : in_abs_form (fst x) = true) by (apply Hform; now left).
  assert (Hl : forall q, In q l -> in_abs_form (fst q) = true)
    by (intros q Hq; apply Hform; now right).
  destruct (sort_pairs l) as [|y s] eqn:E.
  - apply sort_pairs_nil in E. subst l. simpl in H. inversion H; subst.
    intros q [Hq|[]]. subst q. apply pair_before_irrefl.
  - assert (Hy : in_abs_form (fst y) = true).
    { apply Hl. apply sort_pairs_In. rewrite E. now left. }
    pose proof (IH y s Hl eq_refl) as Hmin.
    simpl in H. destruct (pair_lt y x) eqn:L; inversion H; subst.
    + apply (pair_lt_before _ _ Hy Hx) in L.
      intros q [Hq|Hq]; [subst q; now apply pair_before_asym|now apply Hmin].
    + intros q [Hq|Hq]; [subst q; apply pair_before_irrefl|].
      intros Hb. destruct (pair_before_split q y p Hb) as [C|C].
      * exact (Hmin q Hq C).
      * apply (pair_lt_before _ _ Hy Hx) in C. congruence.
Qed.

Lemma as_pairs_In keys target d key :
  In (d, key) (as_pairs_of keys target) <->
  In key keys /\ exists x, Py.float key = Some x /\ d = distance x target.
Proof.
  induction keys as [|k keys IH]; simpl.
  - split; [contradiction|]. intros [[] _].
  - destruct (Py.float k) as [x|] eqn:E; simpl.
    + rewrite IH. split.
      * intros [H|[Hin Hx]].
        -- inversion H; subst. split; [now left|]. now exists x.
        -- split; [now right|assumption].
      * intros [[Hk|Hin] [x' [Hx' Hd]]].
        -- subst k. left. rewrite E in Hx'. inversion Hx'; subst. reflexivity.
        -- right. split; [assumption|]. now exists x'.
    + rewrite IH. split.
      * intros [Hin Hx]. split; [now right|assumption].
      * intros [[Hk|Hin] [x' [Hx' Hd]]].
        -- subst k. rewrite E in Hx'. discriminate Hx'.
        -- split; [assumption|]. now exists x'.
Qed.

Lemma as_pairs_nil keys target :
  as_pairs_of keys target = [] <-> forall key, In key keys -> Py.float key = None.
Proof.
  induction keys as [|k keys IH]; simpl.
  - split; [intros _ key []|reflexivity].
  - destruct (Py.float k) as [x|] eqn:E.
    + split; [discriminate|]. intros H. specialize (H k (or_introl eq_refl)).
      rewrite E in H. discriminate H.
    + rewrite IH. split.
      * intros H key [Hk|Hin]; [now subst|now apply H].
      * intros H key Hin. apply H. now right.
Qed.

Lemma pct_nearest_None ps target :
  pct_nearest ps target = None <->
  forall key, In key (map fst ps) -> Py.float key = None.
Proof.
  unfold pct_nearest. rewrite <- as_pairs_nil.
  destruct (sort_pairs (as_pairs_of (map fst ps) target)) as [|p s] eqn:E.
  - apply sort_pairs_nil in E. rewrite E. tauto.
  - split; [discriminate|]. intros H. rewrite H in E. discriminate E.
Qed.

(** The key of the nearest stage is a key that [float] reads. *)
Lemma pct_nearest_key ps target key :
  pct_nearest ps target = Some key ->
  In key (map fst ps) /\ exists x, Py.float key = Some x.
Proof.
  unfold pct_nearest.
  destruct (sort_pairs (as_pairs_of (map fst ps) target)) as [|p s] eqn:E;
    intros H; inversion H; subst key.
  assert (Hin : In p (as_pairs_of (map fst ps) target)).
  { apply sort_pairs_In. rewrite E. now left. }
  destruct p as [d key]. apply as_pairs_In in Hin.
  destruct Hin as [Hk [x [Hx _]]]. split; [exact Hk|now exists x].
Qed.

(** *** Distances are no nan *)

Lemma iter_pos_inv {A : Type} (P : A -> Prop) (f : A -> A) :
  (forall x, P x -> P (f x)) -> forall n x, P x -> P (iter_pos f n x).
Proof.
  intros Hf. induction n as [n IH|n IH|]; simpl; intros x Hx; auto.
Qed.

Lemma shr_1_nonneg (mrs : shr_record) : 0 <= shr_m mrs -> 0 <= shr_m (shr_1 mrs).
Proof.
  destruct mrs as [m r s]. destruct m as [|p|p]; simpl; intros H; try lia;
    destruct p; simpl; lia.
Qed.

Lemma shr_nonneg (mrs : shr_record) (e n : Z) :
  0 <= shr_m mrs -> 0 <= shr_m (fst (shr mrs e n)).
Proof.
  intros H. unfold shr. destruct n as [|p|p]; simpl; try exact H.
  apply (iter_pos_inv (fun x => 0 <= shr_m x)); [apply shr_1_nonneg|exact H].
Qed.

Lemma shr_fexp_nonneg (m e : Z) (l : location) :
  0 <= m -> 0 <= shr_m (fst (shr_fexp Py.prec Py.emax m e l)).
Proof.
  intros H. unfold shr_fexp. apply shr_nonneg.
  destruct l as [|[]]; simpl; exact H.
Qed.

Lemma binary_round_aux_not_nan (sx : bool) (mx ex : Z) (lx : location) :
  0 <= mx -> is_nan (binary_round_aux Py.prec Py.emax sx mx ex lx) = false.
Proof.
  intros H. unfold binary_round_aux.
  pose proof (shr_fexp_nonneg mx ex lx H) as H1.
  destruct (shr_fexp Py.prec Py.emax mx ex lx) as [mrs' e'].
  cbn [fst] in H1.
  assert (H2 : 0 <= round_nearest_even (shr_m mrs') (loc_of_shr_record mrs')).
  { unfold round_nearest_even. destruct (loc_of_shr_record mrs') as [|[]]; try lia.
    destruct (Z.even (shr_m mrs')); lia. }
  pose proof (shr_fexp_nonneg _ e' loc_Exact H2) as H3.
  destruct (shr_fexp Py.prec Py.emax _ e' loc_Exact) as [mrs'' e''].
  cbn [fst] in H3.
  destruct (shr_m mrs'') as [|p|p]; [reflexivity| |lia].
  destruct (e'' <=? Py.emax - Py.prec); reflexivity.
Qed.

Lemma binary_normalize_not_nan (m e : Z) (sz : bool) :
  is_nan (binary_normalize Py.prec Py.emax m e sz) = false.
Proof.
  unfold binary_normalize, binary_round. destruct m as [|p|p]; [reflexivity| |];
    destruct (shl_align _ _ _) as [mz ez]; apply binary_round_aux_not_nan; lia.
Qed.

(** The distance of a float that is no nan to a target that is a number
    is no nan. *)
Lemma distance_form (x : spec_float) (target : Q) :
  is_nan x = false -> Py.float_value (Py.float_of_Q target) <> None ->
  in_abs_form (distance x target) = true.
Proof.
  intros Hx Ht. unfold distance. apply fabs_form.
  destruct (Py.float_of_Q target) as [st|st| |st mt et];
    try (exfalso; apply Ht; reflexivity);
    destruct x as [sx|sx| |sx mx ex]; try discriminate Hx;
    unfold Py.fsub, SFsub; try reflexivity.
  - destruct sx, st; reflexivity.
  - apply binary_normalize_not_nan.
Qed.

(** The key of the nearest stage: no key that [float] reads is at a
    smaller distance, nor at an equal distance with a smaller text. *)
Lemma pct_nearest_least ps target key x :
  pct_nearest ps target = Some key -> Py.float key = Some x ->
  Py.float_value (Py.float_of_Q target) <> None ->
  (forall k y, In k (map fst ps) -> Py.float k = Some y -> is_nan y = false) ->
  forall key' x', In key' (map fst ps) -> Py.float key' = Some x' ->
    Py.flt (distance x' target) (distance x target) = false
    /\ (Py.feq (distance x' target) (distance x target) = true ->
        String.compare key' key <> Lt).
Proof.
  unfold pct_nearest. intros H Hx Ht Hnan key' x' Hk' Hx'.
  destruct (sort_pairs (as_pairs_of (map fst ps) target)) as [|p s] eqn:E;
    inversion H; subst key.
  assert (Hform : forall q, In q (as_pairs_of (map fst ps) target) ->
                            in_abs_form (fst q) = true).
  { intros [d k] Hq. apply as_pairs_In in Hq. destruct Hq as [Hk [y [Hy Hd]]].
    subst d. apply distance_form; [exact (Hnan k y Hk Hy)|exact Ht]. }
  assert (Hp : In p (as_pairs_of (map fst ps) target)).
  { apply sort_pairs_In. rewrite E. now left. }
  assert (Hq : In (distance x' target, key') (as_pairs_of (map fst ps) target)).
  { apply as_pairs_In. split; [exact Hk'|]. now exists x'. }
  pose proof (sort_pairs_head _ _ _ Hform E _ Hq) as Hmin.
  destruct p as [d key]. cbn [snd] in *.
  pose proof Hp as Hp'. apply as_pairs_In in Hp'.
  destruct Hp' as [_ [y [Hy Hd]]]. rewrite Hx in Hy. inversion Hy; subst y. subst d.
  pose proof (Hform _ Hp) as F1. pose proof (Hform _ Hq) as F2. cbn [fst] in F1, F2.
  split.
  - destruct (Py.flt (distance x' target) (distance x target)) eqn:L; [|reflexivity].
    exfalso. apply Hmin. left. cbn [fst]. now apply (flt_rank _ _ F2 F1).
  - intros Heq Hlt. apply Hmin. right. cbn [fst snd].
    split; [now apply (feq_rank _ _ F2 F1)|exact Hlt].
Qed.

(** C6, as the code has it: the resolver looks for the key [str(target)]
    (for the target 99.0 that is ["99.0"]), then for the key with six
    decimals, then for the key that [float] reads nearest to the target,
    the distances being floats and the smaller key deciding between equal
    distances (stated for a target that is a float and keys none of which
    [float] reads as nan); it returns no key only when [float] reads none
    of the keys.  With the six-decimal keys the target 99.0 resolves to the
    value 3; with the one key ["99"] it resolves to 3 through the nearest
    key, the distance being zero; with the one key ["98.5"] it resolves to
    9 through the nearest key. *)
Theorem C6_percentile_resolution (ps : list (string * json)) (target : Q) :
  (has_key (Py.str_of_float target) ps = true ->
     _find_percentile_key ps target = Some (Py.str_of_float target))
  /\ (has_key (Py.str_of_float target) ps = false ->
      has_key (Py.format_6f target) ps = true ->
        _find_percentile_key ps target = Some (Py.format_6f target))
  /\ (has_key (Py.str_of_float target) ps = false ->
      has_key (Py.format_6f target) ps = false ->
      forall key, _find_percentile_key ps target = Some key ->
        In key (map fst ps)
        /\ exists x, Py.float key = Some x
             /\ (float_is (Py.float_value (Py.float_of_Q target)) target ->
                 (forall k y, In k (map fst ps) -> Py.float k = Some y -> is_nan y = false) ->
                 forall key' x', In key' (map fst ps) -> Py.float key' = Some x' ->
                   Py.flt (distance x' target) (distance x target) = false
                   /\ (Py.feq (distance x' target) (distance x target) = true ->
                       String.compare key' key <> Lt)))
  /\ (_find_percentile_key ps target = None ->
        forall key, In key (map fst ps) -> Py.float key = None)
  /\ ((forall key, In key (map fst ps) -> Py.float key = None) ->
      has_key (Py.str_of_float target) ps = false ->
      has_key (Py.format_6f target) ps = false ->
        _find_percentile_key ps target = None)
  /\ (Py.str_of_float 99 = "99.0" /\ Py.format_6f 99 = "99.000000")
  /\ (_find_percentile_key six_decimal_keys 99 = Some "99.000000"
      /\ dict_get six_decimal_keys "99.000000" JNull = JInt 3)
  /\ (_find_percentile_key bare_key 99 = Some "99"
      /\ pct_nearest bare_key 99 = Some "99"
      /\ dict_get bare_key "99" JNull = JInt 3)
  /\ (_find_percentile_key near_key 99 = Some "98.5"
      /\ pct_nearest near_key 99 = Some "98.5"
      /\ dict_get near_key "98.5" JNull = JInt 9)
  /\ (_find_percentile_key tied_keys 99 = Some "100"
      /\ _find_percentile_key last_bit_keys 50 = Some "69.8"
      /\ _find_percentile_key infinite_key 99 = Some "inf").
Proof.
  unfold _find_percentile_key, pct_exact_str, pct_exact_formatted.
  split; [|split; [|split; [|split; [|split]]]].
  - intros H. now rewrite H.
  - intros H1 H2. now rewrite H1, H2.
  - intros H1 H2 key. rewrite H1, H2. intros Hk.
    destruct (pct_nearest_key _ _ _ Hk) as [Hin [x Hx]].
    split; [exact Hin|]. exists x. split; [exact Hx|].
    intros Ht Hnan. apply (pct_nearest_least ps target key x Hk Hx); [|exact Hnan].
    intros Hn. rewrite Hn in Ht. exact Ht.
  - destruct (has_key (Py.str_of_float target) ps); [discriminate|].
    destruct (has_key (Py.format_6f target) ps); [discriminate|].
    apply pct_nearest_None.
  - intros Hall H1 H2. rewrite H1, H2. now apply pct_nearest_None.
  - repeat split; vm_compute; reflexivity.
Qed.

Lemma C6_percentile_resolution_witness :
  has_key (Py.str_of_float 95) six_decimal_keys = false
  /\ has_key (Py.format_6f 95) six_decimal_keys = true
  /\ _find_percentile_key six_decimal_keys 95 = Some "95.000000".
Proof.
  split; [reflexivity|]. split; [reflexivity|].
  apply (proj1 (proj2 (C6_percentile_resolution six_decimal_keys 95))); reflexivity.
Defined.

(** C6 as the specification words it fails: the key ["99"] is not found by
    the exact match, which looks for ["99.0"], but by the nearest key; and
    where the mapping holds both ["99"] and ["99.000000"], the six-decimal
    key is returned, not the bare number. *)
Lemma C6_bare_number_not_exact :
  pct_exact_str bare_key 99 = None
  /\ pct_exact_formatted bare_key 99 = None
  /\ _find_percentile_key bare_key 99 = pct_nearest bare_key 99
  /\ _find_percentile_key bare_and_six_decimal 99 = Some "99.000000"
  /\ dict_get bare_and_six_decimal "99.000000" JNull = JInt 4.
Proof. repeat split; reflexivity. Qed.

(** ** The text parser and the fallback to it *)

(** No call of [parse_fio_text] returns a row: each of its two calls of
    the [ParsedRow] constructor leaves [total_ios] out. *)
Lemma parse_fio_text_no_rows text sf tk rn rows :
  parse_fio_text text sf tk rn = Ok rows -> rows = [].
Proof.
  unfold parse_fio_text.
  destruct (text_meta text) as [[rw_ bs_] io].
  destruct (text_throughput text) as [|m ms]; simpl.
  - destruct (text_latency text); simpl; intros H; [discriminate H|].
    now inversion H.
  - intros H. discriminate H.
Qed.

(** C3 at a text with a latency line and no throughput line: the latency
    scan finds 120.5 usec, that is 0.1205 ms, the throughput scan finds
    nothing, and the one row the parser then builds is built without
    [total_ios], so the constructor raises [TypeError]; [parse_file] turns
    that into a diagnostic and no rows.  At the text of the specification,
    which has no unit behind the value, the latency scan finds nothing and
    the parser returns no rows. *)
Lemma C3_text_row_raises :
  text_throughput latency_only_text = []
  /\ text_latency latency_only_text = Some (241 # 2000)%Q
  /\ parse_fio_text latency_only_text "t/fio.log" (Some "t") None = Raise TypeError
  /\ parse_file (one_file_relpath "t/fio.log") (one_file_read latency_only_text)
       (one_file_loads latency_only_text (Raise ValueError)) "t/fio.log" ""
     = ([], [FailedToParseText "t/fio.log" TypeError])
  /\ text_latency spec_latency_text = None
  /\ parse_fio_text spec_latency_text "t/fio.log" (Some "t") None = Ok [].
Proof. repeat split; reflexivity. Qed.

Lemma dict_get_missing (fields : list (string * json)) (key : string) (d : json) :
  has_key key fields = false -> dict_get fields key d = d.
Proof.
  induction fields as [|[k v] fields IH]; simpl; intros H; [reflexivity|].
  apply orb_false_iff in H. destruct H as [Hk Hrest].
  rewrite Hk. now apply IH.
Qed.

Lemma parse_fio_json_not_dict data sf tk rn :
  is_dict data = false -> parse_fio_json data sf tk rn = Raise AttributeError.
Proof. destruct data; simpl; intros H; try reflexivity; discriminate H. Qed.

Lemma parse_fio_json_no_jobs fields sf tk rn :
  has_key "jobs" fields = false -> parse_fio_json (JObj fields) sf tk rn = Ok [].
Proof.
  intros H. unfold parse_fio_json, get, get_default. simpl.
  rewrite (dict_get_missing _ _ _ H). reflexivity.
Qed.

(** C4, as the code has it: when the content of a file is not a document
    at all, or is a document that is not a mapping, [parse_file] returns
    what the text parser makes of the same content; when the content is a
    mapping without the [jobs] list, [parse_file] returns no rows and no
    diagnostic, the text parser not being called. *)
Theorem C4_text_fallback
        (relpath : string -> string -> Exc string)
        (read_text : string -> Exc string) (json_loads : string -> Exc json)
        (path input_root content : string)
        (Hread : read_text path = Ok content) :
  (forall e, json_loads content = Raise e ->
     parse_file relpath read_text json_loads path input_root
     = text_fallback relpath content path input_root)
  /\ (forall data, json_loads content = Ok data -> is_dict data = false ->
        parse_file relpath read_text json_loads path input_root
        = text_fallback relpath content path input_root)
  /\ (forall fields, json_loads content = Ok (JObj fields) ->
        has_key "jobs" fields = false ->
        parse_file relpath read_text json_loads path input_root = ([], [])).
Proof.
  unfold parse_file, json_attempt. rewrite Hread.
  split; [|split].
  - intros e He. rewrite He. reflexivity.
  - intros data Hd Hn. rewrite Hd. simpl.
    now rewrite (parse_fio_json_not_dict _ _ _ _ Hn).
  - intros fields Hd Hk. rewrite Hd. simpl.
    now rewrite (parse_fio_json_no_jobs _ _ _ _ Hk).
Qed.

Lemma C4_text_fallback_witness :
  parse_file (one_file_relpath "t/fio.log") (one_file_read latency_only_text)
    (one_file_loads latency_only_text (Raise ValueError)) "t/fio.log" ""
  = text_fallback (one_file_relpath "t/fio.log") latency_only_text "t/fio.log" "".
Proof.
  apply (proj1 (C4_text_fallback (one_file_relpath "t/fio.log")
                  (one_file_read latency_only_text)
                  (one_file_loads latency_only_text (Raise ValueError))
                  "t/fio.log" "" latency_only_text eq_refl) ValueError).
  reflexivity.
Defined.

(** C4 as the specification words it fails for a mapping without [jobs]:
    [parse_file] returns no rows and writes nothing, where the text parser
    on the same content finds the latency line (and leaves its
    diagnostic). *)
Lemma C4_mapping_without_jobs :
  has_key "jobs" [("note", JStr latency_only_text)] = false
  /\ parse_file (one_file_relpath "t/fio.json") (one_file_read no_jobs_content)
       (one_file_loads no_jobs_content (Ok no_jobs_doc)) "t/fio.json" ""
     = ([], [])
  /\ text_latency no_jobs_content = Some (241 # 2000)%Q
  /\ text_fallback (one_file_relpath "t/fio.json") no_jobs_content "t/fio.json" ""
     = ([], [FailedToParseText "t/fio.json" TypeError]).
Proof. repeat split; reflexivity. Qed.

(** ** Strings of digits *)

Lemma digit_not_space (c : ascii) : Py.is_digit c = true -> Py.is_space c = false.
Proof.
  unfold Py.is_digit, Py.is_space, Py.between. intros H.
  apply andb_true_iff in H. destruct H as [H1 H2].
  apply Nat.leb_le in H1. apply Nat.leb_le in H2.
  repeat rewrite orb_false_iff. repeat split.
  - apply andb_false_iff. right. apply Nat.leb_gt. lia.
  - apply andb_false_iff. right. apply Nat.leb_gt. lia.
  - apply Nat.eqb_neq. lia.
Qed.

Lemma lstrip_id (c : ascii) (s : string) :
  Py.is_space c = false -> Py.lstrip (String c s) = String c s.
Proof. intros H. simpl. now rewrite H. Qed.

Lemma rstrip_id (l : list ascii) :
  forallb (fun c => negb (Py.is_space c)) l = true ->
  Py.rstrip (string_of_list_ascii l) = string_of_list_ascii l.
Proof.
  induction l as [|c l IH]; simpl; intros H; [reflexivity|].
  apply andb_true_iff in H. destruct H as [Hc Hl].
  rewrite (IH Hl). apply negb_true_iff in Hc.
  destruct (string_of_list_ascii l); [now rewrite Hc|reflexivity].
Qed.

Lemma strip_id (l : list ascii) :
  forallb (fun c => negb (Py.is_space c)) l = true ->
  Py.strip (string_of_list_ascii l) = string_of_list_ascii l.
Proof.
  intros H. unfold Py.strip. destruct l as [|c l]; [reflexivity|].
  assert (Hc : Py.is_space c = false).
  { simpl in H. apply andb_true_iff in H. now apply negb_true_iff. }
  change (string_of_list_ascii (c :: l)) with (String c (string_of_list_ascii l)).
  rewrite lstrip_id by assumption.
  exact (rstrip_id (c :: l) H).
Qed.

Lemma digits_no_space (ds : list ascii) :
  forallb Py.is_digit ds = true ->
  forallb (fun c => negb (Py.is_space c)) ds = true.
Proof.
  induction ds as [|d ds IH]; simpl; intros H; [reflexivity|].
  apply andb_true_iff in H. destruct H as [Hd Hs].
  rewrite (digit_not_space d Hd). simpl. now apply IH.
Qed.

Lemma digit_run_digits (ds : list ascii) (acc : Z) (n : nat) :
  forallb Py.is_digit ds = true ->
  Py.digit_run ds acc n
  = (fold_left (fun a c => a * 10 + Py.digit_val c) ds acc, (n + List.length ds)%nat, []).
Proof.
  revert acc n. induction ds as [|d ds IH]; simpl; intros acc n H.
  - now rewrite Nat.add_0_r.
  - apply andb_true_iff in H. destruct H as [Hd Hs].
    rewrite Hd, (IH _ _ Hs). now rewrite Nat.add_succ_r.
Qed.

Lemma sign_digit (d : ascii) (ds : list ascii) :
  Py.is_digit d = true -> Py.sign (d :: ds) = (false, d :: ds).
Proof.
  destruct d as [[] [] [] [] [] [] [] []]; intros H; try reflexivity; discriminate H.
Qed.

(** [int] reads a string of digits as the number it denotes. *)
Lemma int_of_digits (ds : list ascii) :
  ds <> [] -> forallb Py.is_digit ds = true ->
  Py.int_of_str (string_of_list_ascii ds) = Some (decimal_value ds).
Proof.
  intros Hne Hd. unfold Py.int_of_str.
  rewrite (strip_id ds (digits_no_space ds Hd)).
  rewrite list_ascii_of_string_of_list_ascii.
  destruct ds as [|d ds]; [contradiction|].
  assert (Hd0 : Py.is_digit d = true).
  { simpl in Hd. now apply andb_true_iff in Hd. }
  rewrite (sign_digit d ds Hd0), (digit_run_digits (d :: ds) 0 0 Hd).
  reflexivity.
Qed.

(** ** The matcher on a run of one class *)

(** A greedy repetition of a class consumes a whole run of the class
    when the rest of the pattern matches behind the run. *)
Lemma star_greedy_run {R : Type} (icase : bool) (p : ascii -> bool)
      (k : Re.cursor -> Re.captures -> option R) (tail : list ascii)
      (caps : Re.captures) (res : R) :
  stops icase p tail ->
  forall (ds : list ascii) (pv : option ascii) (fuel : nat),
    forallb (Re.takes icase p) ds = true ->
    (List.length ds <= fuel)%nat ->
    k {| Re.prev := prev_after pv ds; Re.rest := tail |} caps = Some res ->
    Re.star_loop true (Re.run icase (Re.Chr p)) k fuel
      {| Re.prev := pv; Re.rest := ds ++ tail |} caps = Some res.
Proof.
  intros Hstop.
  remember (Re.run icase (Re.Chr p)) as step eqn:Hstep.
  assert (Hcons : forall pv c s caps' k',
             step {| Re.prev := pv; Re.rest := c :: s |} caps' k'
             = if Re.takes icase p c
               then k' {| Re.prev := Some c; Re.rest := s |} caps' else None)
    by (intros; subst step; reflexivity).
  assert (Hnil : forall pv caps' k',
             step {| Re.prev := pv; Re.rest := [] |} caps' k' = None)
    by (intros; subst step; reflexivity).
  clear Hstep.
  induction ds as [|d ds IH]; intros pv fuel Hds Hfuel Hk.
  - simpl in *. destruct fuel as [|fuel]; simpl; [assumption|].
    destruct tail as [|c tail].
    + now rewrite Hnil.
    + rewrite Hcons. simpl in Hstop. now rewrite Hstop.
  - destruct fuel as [|fuel]; [simpl in Hfuel; lia|].
    simpl in Hds. apply andb_true_iff in Hds. destruct Hds as [Hd Hds].
    cbn [Re.star_loop app]. rewrite Hcons, Hd. unfold Re.progress at 1.
    cbn [Re.rest List.length].
    replace (Nat.ltb (List.length (ds ++ tail)) (S (List.length (ds ++ tail))))
      with true by (symmetry; apply Nat.ltb_lt; lia).
    rewrite (IH (Some d) fuel Hds); [reflexivity| simpl in Hfuel; lia |exact Hk].
Qed.

Lemma consumed_run (pv pv' : option ascii) (ds tail : list ascii) :
  Re.consumed {| Re.prev := pv; Re.rest := ds ++ tail |}
              {| Re.prev := pv'; Re.rest := tail |}
  = string_of_list_ascii ds.
Proof.
  unfold Re.consumed. simpl. rewrite length_app.
  replace (List.length ds + List.length tail - List.length tail)%nat
    with (List.length ds) by lia.
  rewrite firstn_app, firstn_all, Nat.sub_diag. simpl.
  now rewrite app_nil_r.
Qed.

(** A group [(p+)] in front of a run of the class [p]. *)
Lemma group_plus_run {R : Type} (icase : bool) (name : string) (p : ascii -> bool)
      (k : Re.cursor -> Re.captures -> option R) (d : ascii) (ds tail : list ascii)
      (pv : option ascii) (caps : Re.captures) (res : R) :
  forallb (Re.takes icase p) (d :: ds) = true ->
  stops icase p tail ->
  k {| Re.prev := prev_after pv (d :: ds); Re.rest := tail |}
    ((name, string_of_list_ascii (d :: ds)) :: caps) = Some res ->
  Re.run icase (Re.Group name (Re.plus (Re.Chr p)))
    {| Re.prev := pv; Re.rest := (d :: ds) ++ tail |} caps k = Some res.
Proof.
  intros Hds Hstop Hk.
  simpl in Hds. apply andb_true_iff in Hds. destruct Hds as [Hd Hds].
  simpl. rewrite Hd.
  apply star_greedy_run; try assumption.
  - rewrite length_app. lia.
  - rewrite (consumed_run pv _ (d :: ds) tail). exact Hk.
Qed.

(** ** Sizes *)

Lemma takes_nocase (p : ascii -> bool) (c : ascii) : Re.takes false p c = p c.
Proof. unfold Re.takes. simpl. apply orb_false_r. Qed.

Lemma forallb_takes_nocase (p : ascii -> bool) (l : list ascii) :
  forallb (Re.takes false p) l = forallb p l.
Proof.
  induction l as [|c l IH]; simpl; [reflexivity|].
  now rewrite takes_nocase, IH.
Qed.

(** The size pattern on digits followed by [tail], when the part of the
    pattern behind the digits matches [tail] with the unit [unit]. *)
Lemma size_pattern_run (d : ascii) (ds tail : list ascii) (unit : string) :
  forallb Py.is_digit (d :: ds) = true ->
  stops false Re.digit tail ->
  (forall pv caps, exists stop,
      Re.run false
        (Re.cat [Re.Group "2" (Re.opt (Re.Chr (Re.one_of "KkMmGgTtPp")));
                 Re.opt (Re.Chr (Re.one_of "Bb")); Re.Eol])
        {| Re.prev := pv; Re.rest := tail |} caps
        (fun cur' caps' => Some (caps', cur'))
      = Some (("2", unit) :: caps, stop)) ->
  Re.pmatch false _RE_SIZE (string_of_list_ascii ((d :: ds) ++ tail))
  = Some [("2", unit); ("1", string_of_list_ascii (d :: ds))].
Proof.
  intros Hds Hstop Hrest.
  unfold Re.pmatch, Re.match_at. rewrite list_ascii_of_string_of_list_ascii.
  destruct (Hrest (prev_after None (d :: ds)) [("1", string_of_list_ascii (d :: ds))])
    as [stop Hstop'].
  unfold _RE_SIZE.
  change (Re.cat (Re.Bol :: Re.Group "1" (Re.plus (Re.Chr Re.digit)) :: ?l))
    with (Re.Seq Re.Bol (Re.Seq (Re.Group "1" (Re.plus (Re.Chr Re.digit))) (Re.cat l))).
  change (Re.run false (Re.Seq Re.Bol (Re.Seq ?g ?r))
            {| Re.prev := None; Re.rest := ?s |} [] ?k)
    with (Re.run false g {| Re.prev := None; Re.rest := s |} []
            (fun cur' caps' => Re.run false r cur' caps' k)).
  rewrite (group_plus_run false "1" Re.digit _ d ds tail None []
             ([("2", unit); ("1", string_of_list_ascii (d :: ds))], stop)).
  - reflexivity.
  - now rewrite forallb_takes_nocase.
  - assumption.
  - exact Hstop'.
Qed.

Ltac size_case :=
  let pv := fresh "pv" in
  let caps := fresh "caps" in
  intros pv caps; eexists; vm_compute; reflexivity.

(** A size of digits followed by [tail]. *)
Lemma size_of_run (d : ascii) (ds tail : list ascii) (unit : string) :
  forallb Py.is_digit (d :: ds) = true ->
  stops false Re.digit tail ->
  forallb (fun c => negb (Py.is_space c)) tail = true ->
  (forall pv caps, exists stop,
      Re.run false
        (Re.cat [Re.Group "2" (Re.opt (Re.Chr (Re.one_of "KkMmGgTtPp")));
                 Re.opt (Re.Chr (Re.one_of "Bb")); Re.Eol])
        {| Re.prev := pv; Re.rest := tail |} caps
        (fun cur' caps' => Some (caps', cur'))
      = Some (("2", unit) :: caps, stop)) ->
  _parse_size_to_bytes (JStr (string_of_list_ascii ((d :: ds) ++ tail)))
  = Some (decimal_value (d :: ds) * 2 ^ unit_power (Py.lower unit)).
Proof.
  intros Hds Hstop Hsp Hrest.
  unfold _parse_size_to_bytes.
  assert (Ht : truthy (JStr (string_of_list_ascii ((d :: ds) ++ tail))) = true)
    by reflexivity.
  rewrite Ht. cbn [negb].
  rewrite strip_id.
  2:{ rewrite forallb_app, (digits_no_space _ Hds). exact Hsp. }
  rewrite (size_pattern_run d ds tail unit Hds Hstop Hrest).
  cbn [Re.group String.eqb Ascii.eqb Bool.eqb].
  rewrite (int_of_digits (d :: ds)) by (discriminate || assumption).
  now rewrite Z.shiftl_1_l.
Qed.

Lemma size_bare (ds b : list ascii) :
  ds <> [] -> forallb Py.is_digit ds = true -> In b byte_suffixes ->
  _parse_size_to_bytes (JStr (string_of_list_ascii (ds ++ b))) = Some (decimal_value ds).
Proof.
  intros Hne Hds Hb. destruct ds as [|d ds]; [contradiction|].
  rewrite <- (Z.mul_1_r (decimal_value (d :: ds))).
  simpl in Hb. destruct Hb as [Hb|[Hb|[Hb|[]]]]; subst b;
    apply (size_of_run d ds _ "" Hds); try reflexivity; size_case.
Qed.

Lemma size_with_unit (ds b : list ascii) (u : ascii) (pw : Z) :
  ds <> [] -> forallb Py.is_digit ds = true ->
  In (u, pw) size_units -> In b byte_suffixes ->
  _parse_size_to_bytes (JStr (string_of_list_ascii (ds ++ u :: b)))
  = Some (decimal_value ds * 2 ^ pw).
Proof.
  intros Hne Hds Hu Hb. destruct ds as [|d ds]; [contradiction|].
  simpl in Hb. destruct Hb as [Hb|[Hb|[Hb|[]]]]; subst b;
    simpl in Hu;
    repeat (destruct Hu as [Hu|Hu]; [inversion Hu; subst u pw|]);
    try contradiction;
    match goal with
    | |- context [(_ ++ ?c :: _)%list] =>
        apply (size_of_run d ds _ (String c EmptyString) Hds)
    end; try reflexivity; size_case.
Qed.

Lemma size_unparseable (s : string) :
  Re.pmatch false _RE_SIZE (Py.strip s) = None -> Py.int_of_str s = None ->
  _parse_size_to_bytes (JStr s) = None.
Proof.
  intros Hm Hi. unfold _parse_size_to_bytes.
  destruct (negb (truthy (JStr s))); [reflexivity|].
  now rewrite Hm.
Qed.

(** A result comes from a number that was read: from the digits the
    pattern matched, or from the whole string read by [int]. *)
Lemma size_result_origin (s : string) (z : Z) :
  _parse_size_to_bytes (JStr s) = Some z ->
  (exists m num,
      Re.pmatch false _RE_SIZE (Py.strip s) = Some m
      /\ Py.int_of_str (Re.group "1" m) = Some num
      /\ z = num * 2 ^ unit_power (Py.lower (Re.group "2" m)))
  \/ (Re.pmatch false _RE_SIZE (Py.strip s) = None /\ Py.int_of_str s = Some z).
Proof.
  unfold _parse_size_to_bytes.
  destruct (negb (truthy (JStr s))); [discriminate|].
  destruct (Re.pmatch false _RE_SIZE (Py.strip s)) as [m|] eqn:E.
  - destruct (Py.int_of_str (Re.group "1" m)) as [num|] eqn:N; [|discriminate].
    intros H. left. exists m, num.
    split; [reflexivity|]. split; [exact N|].
    cbv zeta in H. rewrite Z.shiftl_1_l in H. now inversion H.
  - intros H. right. now split.
Qed.

(** C7: the size expansion maps ["4G"] to 4*2^30 and ["256k"] to 256*2^10;
    digits followed by a unit letter of the table (k, m, g, t, p, in either
    case, with or without a byte suffix) map to the number times 2^10,
    2^20, 2^30, 2^40, 2^50; a bare integer string maps to itself; a string
    that neither matches the pattern nor is read by [int] maps to an
    absent value, and missing or empty text does too. *)
Theorem C7_size_expansion :
  _parse_size_to_bytes (JStr "4G") = Some (4 * 2 ^ 30)
  /\ _parse_size_to_bytes (JStr "256k") = Some (256 * 2 ^ 10)
  /\ (forall ds u pw b,
        ds <> [] -> forallb Py.is_digit ds = true ->
        In (u, pw) size_units -> In b byte_suffixes ->
        _parse_size_to_bytes (JStr (string_of_list_ascii (ds ++ u :: b)))
        = Some (decimal_value ds * 2 ^ pw))
  /\ (forall ds b,
        ds <> [] -> forallb Py.is_digit ds = true -> In b byte_suffixes ->
        _parse_size_to_bytes (JStr (string_of_list_ascii (ds ++ b)))
        = Some (decimal_value ds))
  /\ (forall s,
        Re.pmatch false _RE_SIZE (Py.strip s) = None -> Py.int_of_str s = None ->
        _parse_size_to_bytes (JStr s) = None)
  /\ (forall s z,
        _parse_size_to_bytes (JStr s) = Some z ->
        (exists m num,
            Re.pmatch false _RE_SIZE (Py.strip s) = Some m
            /\ Py.int_of_str (Re.group "1" m) = Some num
            /\ z = num * 2 ^ unit_power (Py.lower (Re.group "2" m)))
        \/ (Re.pmatch false _RE_SIZE (Py.strip s) = None /\ Py.int_of_str s = Some z))
  /\ _parse_size_to_bytes JNull = None
  /\ _parse_size_to_bytes (JStr "") = None.
Proof.
  split; [reflexivity|]. split; [reflexivity|].
  split; [intros ds u pw b; apply size_with_unit|]. split; [exact size_bare|].
  split; [exact size_unparseable|]. split; [exact size_result_origin|].
  split; reflexivity.
Qed.

Lemma C7_size_expansion_witness :
  _parse_size_to_bytes (JStr "128M") = Some (128 * 2 ^ 20)
  /\ _parse_size_to_bytes (JStr "4096") = Some 4096
  /\ _parse_size_to_bytes (JStr "4.5G") = None.
Proof.
  destruct C7_size_expansion as [_ [_ [Hu [Hb [Hn _]]]]].
  split; [|split].
  - apply (Hu ["1"; "2"; "8"]%char "M"%char 20 []);
      [discriminate|reflexivity|simpl; tauto|simpl; tauto].
  - apply (Hb ["4"; "0"; "9"; "6"]%char []);
      [discriminate|reflexivity|simpl; tauto].
  - apply Hn; reflexivity.
Defined.

(** ** Grouping *)

Section GroupByFacts.
Context {K : Type}.
Variable eqb : K -> K -> bool.
Hypothesis eqb_spec : forall a b, eqb a b = true <-> a = b.

Lemma eqb_refl_of (a : K) : eqb a a = true.
Proof. now apply eqb_spec. Qed.

Lemma filter_swap {T : Type} (p q : T -> bool) (l : list T) :
  filter p (filter q l) = filter q (filter p l).
Proof.
  induction l as [|x l IH]; simpl; [reflexivity|].
  destruct (p x) eqn:P, (q x) eqn:Q; simpl; rewrite ?P, ?Q, IH; reflexivity.
Qed.

Lemma uniq_incl (l : list K) (x : K) : In x (uniq eqb l) -> In x l.
Proof.
  revert x. induction l as [|a l IH]; simpl; intros x H; [assumption|].
  destruct H as [H|H]; [now left|].
  apply filter_In in H. right. now apply IH.
Qed.

Lemma uniq_complete (l : list K) (x : K) : In x l -> In x (uniq eqb l).
Proof.
  induction l as [|a l IH]; simpl; intros H; [assumption|].
  destruct (eqb x a) eqn:E.
  - left. symmetry. now apply eqb_spec.
  - right. apply filter_In. split; [|now rewrite E].
    destruct H as [H|H]; [|now apply IH].
    subst. now rewrite eqb_refl_of in E.
Qed.

(** Selecting keys commutes with removing duplicates. *)
Lemma filter_uniq (p : K -> bool) (l : list K) :
  filter p (uniq eqb l) = uniq eqb (filter p l).
Proof.
  induction l as [|a l IH]; simpl; [reflexivity|].
  destruct (p a) eqn:P; simpl.
  - now rewrite filter_swap, IH.
  - rewrite filter_swap, IH. apply forallb_filter_id.
    apply forallb_forall. intros y Hy.
    apply uniq_incl in Hy. apply filter_In in Hy. destruct Hy as [_ Hy].
    destruct (eqb y a) eqn:E; [|reflexivity].
    apply eqb_spec in E. subst. congruence.
Qed.

Lemma uniq_map {J : Type} (eqb' : J -> J -> bool) (f : J -> K) (l : list J) :
  (forall a b, eqb (f a) (f b) = eqb' a b) ->
  uniq eqb (map f l) = map f (uniq eqb' l).
Proof.
  intros Hf. induction l as [|a l IH]; simpl; [reflexivity|].
  rewrite IH, filter_map_swap. f_equal. f_equal.
  apply filter_ext. intros b. now rewrite Hf.
Qed.

(** The row of a key in a frame that has one row for each key of [ks]. *)
Lemma find_keyed {V : Type} (g : K -> V) (ks : list K) (k : K) :
  In k ks ->
  find (fun x => eqb (fst x) k) (map (fun k' => (k', g k')) ks) = Some (k, g k).
Proof.
  induction ks as [|a ks IH]; simpl; intros H; [contradiction|].
  destruct (eqb a k) eqn:E.
  - apply eqb_spec in E. now subst.
  - destruct H as [H|H]; [subst; now rewrite eqb_refl_of in E|now apply IH].
Qed.

Context {A : Type}.

Lemma groupby_agg_keyed (key : A -> K) (col : A -> option Q)
      (f : list (option Q) -> option Q) (df : list A) :
  groupby_agg eqb key col f df
  = map (fun k => (k, f (map col (filter (fun r => eqb (key r) k) df))))
        (uniq eqb (map key df)).
Proof.
  unfold groupby_agg, groupby. rewrite map_map. reflexivity.
Qed.

(** The aggregate of a group is the aggregate of the rows with its key. *)
Lemma at_key_groupby_agg (key : A -> K) (col : A -> option Q)
      (f : list (option Q) -> option Q) (df : list A) (k : K) :
  In k (map key df) ->
  at_key eqb k (groupby_agg eqb key col f df)
  = Some (f (map col (filter (fun r => eqb (key r) k) df))).
Proof.
  intros H. unfold at_key. rewrite groupby_agg_keyed.
  rewrite (find_keyed (fun k' => f (map col (filter (fun r => eqb (key r) k') df)))).
  - reflexivity.
  - now apply uniq_complete.
Qed.
End GroupByFacts.

(** A frame grouped by a key made of a group and a runner, then by the
    group: the second aggregate is taken over the per-runner means of the
    rows of the group. *)
Section Nested.
Context {A G R K2 : Type}.
Variable eqbG : G -> G -> bool.
Variable eqbR : R -> R -> bool.
Variable eqb2 : K2 -> K2 -> bool.
Hypothesis eqbG_spec : forall a b, eqbG a b = true <-> a = b.
Hypothesis eqb2_spec : forall a b, eqb2 a b = true <-> a = b.
Variable gkey : A -> G.
Variable rkey : A -> R.
Variable key2 : A -> K2.
Variable mk : G -> R -> K2.
Variable proj : K2 -> G.
Hypothesis key2_mk : forall r, key2 r = mk (gkey r) (rkey r).
Hypothesis proj_mk : forall g rho, proj (mk g rho) = g.
Hypothesis eqb2_split :
  forall g g' rho rho', eqb2 (mk g rho) (mk g' rho') = (eqbG g g' && eqbR rho rho')%bool.

Lemma nested_groupby (col : A -> option Q) (second : list (option Q) -> option Q)
      (df : list A) (g : G) :
  In g (map gkey df) ->
  at_key eqbG g
    (groupby_agg eqbG (fun x => proj (fst x)) snd second
       (groupby_agg eqb2 key2 col col_mean df))
  = Some (second
            (map (fun rho =>
                    col_mean
                      (map col (filter (fun r => eqbR (rkey r) rho)
                                       (filter (fun r => eqbG (gkey r) g) df))))
                 (uniq eqbR (map rkey (filter (fun r => eqbG (gkey r) g) df))))).
Proof.
  intros Hg.
  set (M := fun k2 => col_mean (map col (filter (fun r => eqb2 (key2 r) k2) df))).
  assert (Htmp : groupby_agg eqb2 key2 col col_mean df
                 = map (fun k2 => (k2, M k2)) (uniq eqb2 (map key2 df)))
    by apply groupby_agg_keyed.
  rewrite Htmp.
  rewrite (at_key_groupby_agg eqbG eqbG_spec).
  2:{ rewrite map_map. cbn [fst].
      apply in_map_iff in Hg. destruct Hg as [r [Hr Hin]].
      apply in_map_iff. exists (key2 r). split.
      - now rewrite key2_mk, proj_mk.
      - apply (uniq_complete eqb2 eqb2_spec). now apply in_map. }
  f_equal. f_equal.
  rewrite filter_map_swap, map_map. cbn [fst snd].
  rewrite (filter_uniq eqb2 eqb2_spec), filter_map_swap.
  set (grp := filter (fun r => eqbG (gkey r) g) df).
  assert (Hgrp : filter (fun r => eqbG (proj (key2 r)) g) df = grp).
  { apply filter_ext. intros r. now rewrite key2_mk, proj_mk. }
  rewrite Hgrp.
  assert (Hkeys : map key2 grp = map (mk g) (map rkey grp)).
  { rewrite map_map. apply map_ext_in. intros r Hr.
    apply filter_In in Hr. destruct Hr as [_ Hr]. apply eqbG_spec in Hr.
    now rewrite key2_mk, Hr. }
  rewrite Hkeys, (uniq_map eqb2 eqbR (mk g)).
  2:{ intros a b. rewrite eqb2_split.
      now rewrite (proj2 (eqbG_spec g g) eq_refl). }
  rewrite map_map. apply map_ext. intros rho. unfold M. f_equal. f_equal.
  unfold grp. clear -key2_mk eqb2_split.
  induction df as [|r df IH]; simpl; [reflexivity|].
  rewrite key2_mk, eqb2_split.
  destruct (eqbG (gkey r) g); simpl; [|exact IH].
  destruct (eqbR (rkey r) rho); simpl; now rewrite IH.
Qed.
End Nested.

(** ** Keys *)

Lemma name_eqb_spec (a b : option string) : name_eqb a b = true <-> a = b.
Proof.
  destruct a as [a|], b as [b|]; simpl; split; intros H;
    try reflexivity; try discriminate H.
  - apply String.eqb_eq in H. now subst.
  - inversion H. apply String.eqb_refl.
Qed.

Lemma pair_eqb_spec {S T : Type} (eqS : S -> S -> bool) (eqT : T -> T -> bool) :
  (forall a b, eqS a b = true <-> a = b) ->
  (forall a b, eqT a b = true <-> a = b) ->
  forall a b, pair_eqb eqS eqT a b = true <-> a = b.
Proof.
  intros HS HT [a1 a2] [b1 b2]. unfold pair_eqb. simpl.
  rewrite andb_true_iff, HS, HT. split.
  - intros [H1 H2]. now subst.
  - intros H. inversion H. now split.
Qed.


Lemma group_key_eqb_spec a b : group_key_eqb a b = true <-> a = b.
Proof.
  apply pair_eqb_spec; [|apply String.eqb_eq].
  apply pair_eqb_spec; apply name_eqb_spec.
Qed.

Lemma group_runner_eqb_spec a b : group_runner_eqb a b = true <-> a = b.
Proof. apply pair_eqb_spec; [apply group_key_eqb_spec|apply name_eqb_spec]. Qed.

(** ** Sums and means do not depend on the order of the rows *)

Lemma somes_perm (l l' : list (option Q)) :
  Permutation l l' -> Permutation (somes l) (somes l').
Proof.
  induction 1 as [|x l l' _ IH|x y l|l l' l'' _ IH1 _ IH2]; simpl.
  - constructor.
  - destruct x; [now constructor|assumption].
  - destruct x, y; try apply Permutation_refl. apply perm_swap.
  - now apply Permutation_trans with (somes l').
Qed.

Lemma Qsum_perm (l l' : list Q) : Permutation l l' -> Qeq (Qsum l) (Qsum l').
Proof.
  induction 1 as [|x l l' _ IH|x y l|l l' l'' _ IH1 _ IH2]; simpl.
  - reflexivity.
  - now rewrite IH.
  - ring.
  - now rewrite IH1.
Qed.

Lemma col_sum_perm (l l' : list (option Q)) :
  Permutation l l' -> col_sum l = col_sum l'.
Proof.
  intros H. unfold col_sum. f_equal. apply Qred_complete.
  apply Qsum_perm. now apply somes_perm.
Qed.

(** ** Throughput per runner *)





(** * Further properties of the code *)

(** ** Rows of the JSON parser *)

Lemma map_exc_map {A B C : Type} (f : A -> Exc B) (g : B -> C) (h : A -> C)
      (xs : list A) (ys : list B) :
  (forall x y, In x xs -> f x = Ok y -> g y = h x) ->
  map_exc f xs = Ok ys -> map g ys = map h xs.
Proof.
  revert ys. induction xs as [|x xs IH]; simpl; intros ys Hf H.
  - inversion H. reflexivity.
  - bind_inv H. bind_inv H. inversion H; subst. simpl.
    rewrite (Hf x a (or_introl eq_refl) Ha). f_equal.
    apply IH; [|assumption]. intros x' y' Hin. apply Hf. now right.
Qed.

Lemma map_exc_raise {A B : Type} (f : A -> Exc B) (xs : list A) (x : A) (e : pyerror) :
  In x xs -> f x = Raise e -> exists e', map_exc f xs = Raise e'.
Proof.
  induction xs as [|a xs IH]; simpl; intros Hin Hx; [contradiction|].
  destruct (f a) as [b|e0] eqn:E; simpl.
  - destruct Hin as [Hin|Hin]; [subst; congruence|].
    destruct (IH Hin Hx) as [e' He']. rewrite He'. simpl. now exists e'.
  - now exists e0.
Qed.

(** The identifying and derived fields of a row of [parse_op]. *)
Lemma parse_op_identity meta op_ od sf tk rn row :
  parse_op meta op_ od sf tk rn = Ok row ->
  op row = op_ /\ task row = tk /\ runner row = rn
  /\ source_file row = Py.basename sf
  /\ timestamp row = compute_timestamp_from_path sf
  /\ jobname row = jm_jobname meta
  /\ rw row = jm_rw meta /\ bs row = jm_bs meta
  /\ access_pattern row = _normalize_access_pattern (rw row)
  /\ bs_bytes row = _parse_bs_to_bytes (bs row).
Proof.
  intros H. destruct od as [| | | | | |fields]; try discriminate H.
  unfold parse_op in H. simpl in H.
  destruct (clat_pcts_of _ _ _) as [[p99 p95] p50].
  apply ParsedRow_init_Given in H. subst row. simpl.
  repeat split; reflexivity.
Qed.

Lemma parse_job_ops data job sf tk rn rows :
  parse_job data job sf tk rn = Ok rows -> map op rows = directions_of job.
Proof.
  intros H. unfold parse_job in H. bind_inv H.
  destruct job as [| | | | | |fields]; try discriminate H.
  unfold directions_of.
  rewrite <- (map_id (filter (fun o => has_key o fields) ["read"; "write"])).
  apply (map_exc_map _ op (fun o => o) _ _) with (2 := H).
  intros o r _ Hr. now apply parse_op_identity in Hr.
Qed.

Lemma concat_jobs_ops (f : json -> Exc (list ParsedRow)) (items : list json)
      (per_job : list (list ParsedRow)) :
  (forall job rows, f job = Ok rows -> map op rows = directions_of job) ->
  map_exc f items = Ok per_job ->
  map op (List.concat per_job) = flat_map directions_of items.
Proof.
  intros Hf. revert per_job. induction items as [|job items IH]; simpl; intros per_job H.
  - inversion H. reflexivity.
  - bind_inv H. bind_inv H. inversion H; subst. simpl.
    rewrite map_app, (Hf _ _ Ha), (IH _ Ha0). reflexivity.
Qed.

Lemma parse_fio_json_inv data sf tk rn rows :
  parse_fio_json data sf tk rn = Ok rows ->
  exists fields items per_job,
    data = JObj fields
    /\ iterate (if truthy (dict_get fields "jobs" JNull)
                then dict_get fields "jobs" JNull else JArr []) = Ok items
    /\ map_exc (fun job => parse_job data job sf tk rn) items = Ok per_job
    /\ rows = List.concat per_job.
Proof.
  intros H. unfold parse_fio_json in H. bind_inv H.
  destruct data as [| | | | | |fields]; try discriminate Ha.
  simpl in Ha. inversion Ha; subst a. bind_inv H. bind_inv H.
  inversion H; subst. exists fields, a, a0. repeat split; assumption.
Qed.

(** X1: every row the JSON parser returns is a read or a write row,
    carries the task and the runner it was given, the base name of the
    source file and the timestamp of its path, and its derived fields
    agree with its raw ones: the access pattern is the classification of
    [rw] and the block size in bytes is the expansion of [bs]. *)
Theorem X1_json_row_invariants (data : json) (path : string)
        (tk rn : option string) (rows : list ParsedRow)
        (Hrows : parse_fio_json data path tk rn = Ok rows) :
  forall r, In r rows ->
    (op r = "read" \/ op r = "write")
    /\ task r = tk /\ runner r = rn
    /\ source_file r = Py.basename path
    /\ timestamp r = compute_timestamp_from_path path
    /\ access_pattern r = _normalize_access_pattern (rw r)
    /\ bs_bytes r = _parse_bs_to_bytes (bs r).
Proof.
  intros r Hr.
  destruct (parse_fio_json_inv _ _ _ _ _ Hrows)
    as [fields [items [per_job [_ [_ [Hmap Hcat]]]]]].
  subst rows. apply in_concat in Hr. destruct Hr as [jrows [Hj Hin]].
  destruct (map_exc_In _ _ _ Hmap jrows Hj) as [job [_ Hjob]].
  destruct (parse_job_rows _ _ _ _ _ _ Hjob) as [meta [jf [_ [_ Hall]]]].
  destruct (Hall r Hin) as [o [Ho [_ Hp]]].
  destruct (parse_op_identity _ _ _ _ _ _ _ Hp)
    as [H1 [H2 [H3 [H4 [H5 [_ [_ [_ [H9 H10]]]]]]]]].
  repeat split; try assumption.
  rewrite H1. simpl in Ho. destruct Ho as [Ho|[Ho|[]]]; subst o; tauto.
Qed.

Lemma X1_json_row_invariants_witness :
  map op (rows_of (parse_fio_json two_jobs_doc "run/parallel-3-x-20240131T235959Z/out.json"
                     (Some "t") None))
  = ["read"; "write"; "write"]
  /\ access_pattern
       (hd (attempt "" "" "" 0 0)
           (rows_of (parse_fio_json two_jobs_doc "run/parallel-3-x-20240131T235959Z/out.json"
                       (Some "t") None)))
     = Some "random".
Proof.
  split; [reflexivity|].
  pose proof (X1_json_row_invariants two_jobs_doc
                "run/parallel-3-x-20240131T235959Z/out.json" (Some "t") None
                (rows_of (parse_fio_json two_jobs_doc
                            "run/parallel-3-x-20240131T235959Z/out.json" (Some "t") None))
                eq_refl) as T.
  specialize (T (hd (attempt "" "" "" 0 0)
                    (rows_of (parse_fio_json two_jobs_doc
                                "run/parallel-3-x-20240131T235959Z/out.json"
                                (Some "t") None)))).
  destruct T as [_ [_ [_ [_ [_ [Hap _]]]]]]; [left; reflexivity|].
  rewrite Hap. reflexivity.
Defined.

(** X2: the rows of a document come job by job in the order of the list,
    and within a job the read row comes before the write row, whatever the
    order of the keys in the job; a job contributes a row exactly for each
    of the two directions that is a key of it. *)
Theorem X2_json_row_order (fields : list (string * json)) (items : list json)
        (path : string) (tk rn : option string) (rows : list ParsedRow)
        (Hjobs : dict_get fields "jobs" JNull = JArr items)
        (Hrows : parse_fio_json (JObj fields) path tk rn = Ok rows) :
  map op rows = flat_map directions_of items
  /\ (List.length rows <= 2 * List.length items)%nat.
Proof.
  destruct (parse_fio_json_inv _ _ _ _ _ Hrows)
    as [fs [its [per_job [Hd [Hit [Hmap Hcat]]]]]].
  inversion Hd; subst fs. rewrite Hjobs in Hit.
  assert (Hits : its = items).
  { destruct items; simpl in Hit; now inversion Hit. }
  subst its rows.
  assert (Hops : map op (List.concat per_job) = flat_map directions_of items).
  { apply (concat_jobs_ops _ _ _) with (2 := Hmap).
    intros job jrows. apply parse_job_ops. }
  split; [exact Hops|].
  rewrite <- (length_map op), Hops. clear.
  induction items as [|job items IH]; simpl; [lia|].
  rewrite length_app.
  assert (List.length (directions_of job) <= 2)%nat.
  { destruct job; simpl; try lia.
    destruct (has_key "read" fields), (has_key "write" fields); simpl; lia. }
  lia.
Qed.

Lemma X2_json_row_order_witness :
  map op (rows_of (parse_fio_json two_jobs_doc "out.json" None None))
  = ["read"; "write"; "write"].
Proof.
  pose proof (X2_json_row_order
                [("jobs", JArr [JObj [("jobname", JStr "a"); ("write", plain_op_data);
                                      ("read", plain_op_data);
                                      ("job options",
                                       JObj [("rw", JStr "RandRW"); ("bs", JStr "4k")])];
                                JObj [("jobname", JStr "b"); ("write", plain_op_data)]])]
                _ "out.json" None None
                (rows_of (parse_fio_json two_jobs_doc "out.json" None None))
                eq_refl eq_refl) as T.
  exact (proj1 T).
Defined.

(** ** Malformed jobs and the text fallback *)

Lemma parse_job_not_dict data job sf tk rn :
  is_dict job = false -> parse_job data job sf tk rn = Raise AttributeError.
Proof. destruct job; simpl; intros H; try reflexivity; discriminate H. Qed.

Lemma parse_op_not_dict meta o od sf tk rn :
  is_dict od = false -> parse_op meta o od sf tk rn = Raise AttributeError.
Proof. destruct od; simpl; intros H; try reflexivity; discriminate H. Qed.

Lemma parse_job_bad_direction data jf o sf tk rn :
  In o ["read"; "write"] -> has_key o jf = true ->
  is_dict (dict_get jf o JNull) = false ->
  exists e, parse_job data (JObj jf) sf tk rn = Raise e.
Proof.
  intros Ho Hk Hd. unfold parse_job.
  destruct (job_meta_of data (JObj jf)) as [meta|e]; cbn [bind]; [|now exists e].
  apply (map_exc_raise _ _ o AttributeError).
  - apply filter_In. now split.
  - now apply parse_op_not_dict.
Qed.

Lemma text_fallback_no_rows relpath content path input_root :
  fst (text_fallback relpath content path input_root) = [].
Proof.
  unfold text_fallback.
  destruct (parse_fio_text content path _ _) as [rows|e] eqn:E; simpl; [|reflexivity].
  now apply parse_fio_text_no_rows in E.
Qed.

Lemma parse_fio_json_malformed fields items job sf tk rn :
  dict_get fields "jobs" JNull = JArr items -> In job items -> malformed_job job ->
  exists e, parse_fio_json (JObj fields) sf tk rn = Raise e.
Proof.
  intros Hj Hin Hbad. unfold parse_fio_json.
  change (get (JObj fields) "jobs") with (Ok (dict_get fields "jobs" JNull)).
  cbn [bind]. rewrite Hj.
  assert (Ht : truthy (JArr items) = true) by (destruct items; [contradiction|reflexivity]).
  rewrite Ht. cbn [iterate bind].
  assert (Hjob : exists e, parse_job (JObj fields) job sf tk rn = Raise e).
  { destruct Hbad as [Hd|[jf [o [Hjf [Ho [Hk Hd]]]]]].
    - exists AttributeError. now apply parse_job_not_dict.
    - subst job. now apply (parse_job_bad_direction _ jf o). }
  destruct Hjob as [e He].
  destruct (map_exc_raise (fun j => parse_job (JObj fields) j sf tk rn) items job e Hin He)
    as [e' He'].
  rewrite He'. now exists e'.
Qed.

(** X3: one malformed job (a job that is not a mapping, or a read or write
    key whose value is not a mapping) makes the JSON parser raise, whatever
    the other jobs hold; [parse_file] then turns to the text parser and the
    file yields no rows at all. *)
Theorem X3_malformed_job_discards_file
        (relpath : string -> string -> Exc string)
        (read_text : string -> Exc string) (json_loads : string -> Exc json)
        (path input_root content : string)
        (fields : list (string * json)) (items : list json) (job : json)
        (Hread : read_text path = Ok content)
        (Hload : json_loads content = Ok (JObj fields))
        (Hjobs : dict_get fields "jobs" JNull = JArr items)
        (Hin : In job items)
        (Hbad : malformed_job job) :
  (forall sf tk rn, exists e, parse_fio_json (JObj fields) sf tk rn = Raise e)
  /\ fst (parse_file relpath read_text json_loads path input_root) = [].
Proof.
  split.
  - intros sf tk rn. now apply (parse_fio_json_malformed fields items job).
  - unfold parse_file, json_attempt. rewrite Hread, Hload. simpl.
    destruct (parse_fio_json_malformed fields items job path
                (compute_task_name relpath path input_root)
                (compute_runner_name relpath path input_root) Hjobs Hin Hbad) as [e He].
    rewrite He. apply text_fallback_no_rows.
Qed.

Lemma X3_malformed_job_discards_file_witness :
  fst (parse_file (one_file_relpath "t/out.json") (one_file_read "doc")
         (one_file_loads "doc" (Ok broken_direction_doc)) "t/out.json" "") = []
  /\ map jobname (rows_of (parse_fio_json
                             (JObj [("jobs", JArr [JObj [("jobname", JStr "good");
                                                         ("read", plain_op_data)]])])
                             "t/out.json" None None))
     = [JStr "good"].
Proof.
  split; [|reflexivity].
  apply (X3_malformed_job_discards_file (one_file_relpath "t/out.json")
           (one_file_read "doc") (one_file_loads "doc" (Ok broken_direction_doc))
           "t/out.json" "" "doc"
           [("jobs", JArr [JObj [("jobname", JStr "good"); ("read", plain_op_data)];
                           JObj [("jobname", JStr "bad"); ("write", JNull)]])]
           [JObj [("jobname", JStr "good"); ("read", plain_op_data)];
            JObj [("jobname", JStr "bad"); ("write", JNull)]]
           (JObj [("jobname", JStr "bad"); ("write", JNull)])
           eq_refl eq_refl eq_refl).
  - right. left. reflexivity.
  - right. exists [("jobname", JStr "bad"); ("write", JNull)], "write".
    repeat split; simpl; tauto.
Defined.

(** X4: [parse_file] returns rows only from the JSON parser: when its
    result has a row, the file was read, [json.loads] accepted the content,
    the rows are those of [parse_fio_json] on the document and nothing was
    written to the error stream.  Whenever it turns to the text parser the
    file yields no rows. *)
Theorem X4_rows_only_from_json
        (relpath : string -> string -> Exc string)
        (read_text : string -> Exc string) (json_loads : string -> Exc json)
        (path input_root : string)
        (Hrows : fst (parse_file relpath read_text json_loads path input_root) <> []) :
  exists content data,
    read_text path = Ok content
    /\ json_loads content = Ok data
    /\ parse_fio_json data path (compute_task_name relpath path input_root)
         (compute_runner_name relpath path input_root)
       = Ok (fst (parse_file relpath read_text json_loads path input_root))
    /\ snd (parse_file relpath read_text json_loads path input_root) = [].
Proof.
  unfold parse_file in *.
  destruct (read_text path) as [content|e] eqn:Hr; [|now contradiction Hrows].
  unfold json_attempt in *.
  destruct (json_loads content) as [data|e] eqn:Hl; simpl in *.
  - destruct (parse_fio_json data path _ _) as [rows|e] eqn:Hp; simpl in *.
    + exists content, data. repeat split; reflexivity || assumption.
    + now rewrite text_fallback_no_rows in Hrows.
  - now rewrite text_fallback_no_rows in Hrows.
Qed.

Lemma X4_rows_only_from_json_witness :
  exists content data,
    one_file_read "doc" "t/out.json" = Ok content
    /\ one_file_loads "doc" (Ok two_jobs_doc) content = Ok data
    /\ parse_fio_json data "t/out.json"
         (compute_task_name (one_file_relpath "t/out.json") "t/out.json" "")
         (compute_runner_name (one_file_relpath "t/out.json") "t/out.json" "")
       = Ok (fst (parse_file (one_file_relpath "t/out.json") (one_file_read "doc")
                    (one_file_loads "doc" (Ok two_jobs_doc)) "t/out.json" ""))
    /\ snd (parse_file (one_file_relpath "t/out.json") (one_file_read "doc")
              (one_file_loads "doc" (Ok two_jobs_doc)) "t/out.json" "") = [].
Proof.
  apply (X4_rows_only_from_json (one_file_relpath "t/out.json") (one_file_read "doc")
           (one_file_loads "doc" (Ok two_jobs_doc)) "t/out.json" "").
  vm_compute. discriminate.
Defined.

(** ** Integer and float conversion *)

(** What [int] reads, [float] reads too. *)
Lemma int_then_float (s : string) (z : Z) :
  Py.int_of_str s = Some z -> exists f, Py.float s = Some f.
Proof.
  unfold Py.int_of_str, Py.float.
  destruct (Py.sign (list_ascii_of_string (Py.strip s))) as [neg body].
  destruct (Py.digit_run body 0 0) as [[z0 n] r] eqn:E.
  destruct n as [|n]; [discriminate|].
  destruct r as [|c r]; [|discriminate].
  intros _.
  destruct (_ || _)%bool; [eexists; reflexivity|].
  destruct (String.eqb _ "nan"); [eexists; reflexivity|].
  unfold Py.decimal_literal. rewrite E. cbn [Nat.add Py.exponent].
  eexists. reflexivity.
Qed.

(** X5: [_to_int] and [_to_float] accept the same values, provided that
    the float of the value is a number: for a string that [float] reads as
    a finite float, and for an integer within the range of the floats, an
    integer field is absent exactly when the same raw value would be
    absent as a float.  The integer of a JSON number is the number cut
    towards zero, whatever its size, and a string whose float is an
    infinity or nan has the integer that [int] reads from it, if any.
    Outside the proviso the two differ: [float] reads ["inf"] as the
    infinity while the string has no integer, and the integer 10^400 is
    kept as an integer while it has no float. *)
Theorem X5_to_int_defined_as_to_float (v : json)
        (Hstr : forall s f, v = JStr s -> Py.float s = Some f ->
                            Py.float_value f <> None)
        (Hint : forall z, v = JInt z -> Py.float_value (Py.float_of_int z) <> None) :
  (_to_int v = None <-> _to_float v = None)
  /\ (forall q, number_value v = Some q -> _to_int v = Some (trunc q))
  /\ (forall z, _to_int (JInt z) = Some z)
  /\ (forall s f, Py.float s = Some f -> Py.float_value f = None ->
        _to_int (JStr s) = Py.int_of_str s)
  /\ (Py.float "inf" = Some (S754_infinity false) /\ _to_int (JStr "inf") = None)
  /\ (_to_int (JInt (10 ^ 400)) = Some (10 ^ 400) /\ _to_float (JInt (10 ^ 400)) = None).
Proof.
  split; [|split; [|split; [|split; [|split]]]].
  5: split; vm_compute; reflexivity.
  5: split; [reflexivity|vm_compute; reflexivity].
  - destruct v as [|b|z|q|s|l|fs]; simpl; try tauto; try (split; discriminate).
    + split; [discriminate|]. intros H. now apply (Hint z eq_refl) in H.
    + destruct (Py.int_of_str s) as [z|] eqn:E.
      * destruct (int_then_float s z E) as [f Hf].
        split; [discriminate|]. unfold Py.float_of_str. rewrite Hf.
        intros H. now apply (Hstr s f eq_refl Hf) in H.
      * destruct (Py.float_of_str s); simpl; split; congruence.
  - intros q H. destruct v; simpl in H; inversion H; subst; simpl; [|reflexivity].
    unfold trunc. simpl. now rewrite Z.quot_1_r.
  - reflexivity.
  - intros s f Hf Hn. unfold _to_int, Py.float_of_str. rewrite Hf, Hn.
    destruct (Py.int_of_str s); reflexivity.
Qed.

Lemma X5_to_int_defined_as_to_float_witness :
  _to_int (JFloat (-7 # 2)) = Some (-3)
  /\ _to_int (JStr "4.7") = Some 4
  /\ (_to_int (JStr "4k") = None <-> _to_float (JStr "4k") = None)
  /\ _to_int (JStr "1e23") = Some 99999999999999991611392.
Proof.
  split; [|split; [|split]].
  - apply (proj1 (proj2 (X5_to_int_defined_as_to_float (JFloat (-7 # 2))
                           ltac:(discriminate) ltac:(discriminate))) (-7 # 2)%Q).
    reflexivity.
  - vm_compute. reflexivity.
  - apply (proj1 (X5_to_int_defined_as_to_float (JStr "4k")
                    ltac:(intros s f E H; inversion E; subst s; vm_compute in H; discriminate H)
                    ltac:(discriminate))).
  - vm_compute. reflexivity.
Defined.

(** ** The key of a percentile *)

Lemma dict_get_In (ps : list (string * json)) (key : string) :
  In key (map fst ps) ->
  exists v, In (key, v) ps /\ forall d, dict_get ps key d = v.
Proof.
  induction ps as [|[k v] ps IH]; simpl; intros H; [contradiction|].
  destruct (String.eqb k key) eqn:E.
  - apply String.eqb_eq in E. subst k. exists v. split; [now left|reflexivity].
  - destruct H as [H|H]; [subst; now rewrite String.eqb_refl in E|].
    destruct (IH H) as [v' [Hin Hd]]. exists v'. split; [now right|assumption].
Qed.

(** X6: the key [_find_percentile_key] returns is always a key of the
    mapping it was given, so the value then read under that key is an
    entry of the mapping and never the default of the lookup. *)
Theorem X6_percentile_key_in_mapping (ps : list (string * json)) (target : Q) (key : string)
        (Hkey : _find_percentile_key ps target = Some key) :
  In key (map fst ps)
  /\ exists v, In (key, v) ps /\ forall d, dict_get ps key d = v.
Proof.
  assert (Hin : In key (map fst ps)).
  { unfold _find_percentile_key, pct_exact_str, pct_exact_formatted in Hkey.
    destruct (has_key (Py.str_of_float target) ps) eqn:E1.
    - inversion Hkey; subst. now apply has_key_In.
    - destruct (has_key (Py.format_6f target) ps) eqn:E2.
      + inversion Hkey; subst. now apply has_key_In.
      + now apply pct_nearest_key in Hkey. }
  split; [assumption|now apply dict_get_In].
Qed.

Lemma X6_percentile_key_in_mapping_witness :
  In "98.5" (map fst near_key)
  /\ exists v, In ("98.5", v) near_key /\ forall d, dict_get near_key "98.5" d = v.
Proof. apply (X6_percentile_key_in_mapping near_key 99 "98.5"). reflexivity. Defined.

(** ** Latency units of the text parser *)

Lemma latency_nano (value unit : string) (v : Q) :
  Py.float_of_str value = Some v -> In (Py.lower unit) ["ns"; "nsec"] ->
  _parse_latency_to_ms value unit = _ns_to_ms (Some v).
Proof.
  intros Hv Hu. unfold _parse_latency_to_ms. rewrite Hv.
  apply existsb_eqb_In in Hu. now rewrite Hu.
Qed.

Lemma latency_micro (value unit : string) (v : Q) :
  Py.float_of_str value = Some v -> In (Py.lower unit) ["us"; "usec"] ->
  _parse_latency_to_ms value unit = _us_to_ms (Some v).
Proof.
  intros Hv Hu. unfold _parse_latency_to_ms. rewrite Hv.
  rewrite (existsb_eqb_not_In (Py.lower unit) ["ns"; "nsec"]).
  2:{ simpl in *. intros [E|[E|[]]]; rewrite <- E in Hu;
      destruct Hu as [F|[F|[]]]; discriminate F. }
  apply existsb_eqb_In in Hu. now rewrite Hu.
Qed.

Lemma latency_milli (value unit : string) (v : Q) :
  Py.float_of_str value = Some v -> In (Py.lower unit) ["ms"; "msec"] ->
  _parse_latency_to_ms value unit = Some v.
Proof.
  intros Hv Hu. unfold _parse_latency_to_ms. rewrite Hv.
  rewrite (existsb_eqb_not_In (Py.lower unit) ["ns"; "nsec"]).
  2:{ simpl in *. intros [E|[E|[]]]; rewrite <- E in Hu;
      destruct Hu as [F|[F|[]]]; discriminate F. }
  rewrite (existsb_eqb_not_In (Py.lower unit) ["us"; "usec"]).
  2:{ simpl in *. intros [E|[E|[]]]; rewrite <- E in Hu;
      destruct Hu as [F|[F|[]]]; discriminate F. }
  apply existsb_eqb_In in Hu. now rewrite Hu.
Qed.

Lemma latency_unknown (value unit : string) :
  ~ In (Py.lower unit) latency_units -> _parse_latency_to_ms value unit = None.
Proof.
  intros Hu. unfold _parse_latency_to_ms.
  destruct (Py.float_of_str value); [|reflexivity].
  rewrite !existsb_eqb_not_In; try reflexivity;
    intros H; apply Hu; unfold latency_units; simpl in *; tauto.
Qed.

(** X7: the text parser converts a latency as the JSON parser converts
    the container of the same unit: a value in [ns]/[nsec] as [_ns_to_ms],
    in [us]/[usec] as [_us_to_ms], in [ms]/[msec] unchanged, the unit in
    either case; a unit outside these six gives no latency, and that
    includes [sec], which the latency pattern accepts; and a bandwidth in
    [KiB/s] is converted as [_kbps_to_MBps] converts the [bw] field. *)
Theorem X7_text_units_agree_with_json (value : string) (v : Q)
        (Hv : Py.float_of_str value = Some v) :
  (forall unit, In (Py.lower unit) ["ns"; "nsec"] ->
     _parse_latency_to_ms value unit = _ns_to_ms (_to_float (JStr value)))
  /\ (forall unit, In (Py.lower unit) ["us"; "usec"] ->
        _parse_latency_to_ms value unit = _us_to_ms (_to_float (JStr value)))
  /\ (forall unit, In (Py.lower unit) ["ms"; "msec"] ->
        _parse_latency_to_ms value unit = _to_float (JStr value))
  /\ (forall unit, ~ In (Py.lower unit) latency_units ->
        _parse_latency_to_ms value unit = None)
  /\ _parse_latency_to_ms value "sec" = None
  /\ (forall unit, unit_norm unit = "kib/s" ->
        _parse_bw_to_MBps value unit = _kbps_to_MBps (_to_float (JStr value))).
Proof.
  simpl. rewrite Hv.
  split; [|split; [|split; [|split; [|split]]]].
  - intros unit. now apply latency_nano.
  - intros unit. now apply latency_micro.
  - intros unit. now apply latency_milli.
  - intros unit. now apply latency_unknown.
  - apply latency_unknown. unfold latency_units. simpl.
    intros H. repeat destruct H as [H|H]; discriminate H || contradiction.
  - intros unit Hu. unfold _parse_bw_to_MBps. rewrite Hv.
    fold (unit_norm unit). now rewrite Hu.
Qed.

Lemma X7_text_units_agree_with_json_witness :
  _parse_latency_to_ms "120.5" "USEC" = Some (241 # 2000)%Q
  /\ _parse_latency_to_ms "120.5" "sec" = None.
Proof.
  pose proof (X7_text_units_agree_with_json "120.5" (241 # 2)%Q eq_refl) as T.
  split.
  - rewrite (proj1 (proj2 T) "USEC"); [reflexivity|simpl; tauto].
  - exact (proj1 (proj2 (proj2 (proj2 (proj2 T))))).
Defined.

(** ** Access patterns *)

Lemma lower_ascii_idem (c : ascii) : Py.lower_ascii (Py.lower_ascii c) = Py.lower_ascii c.
Proof. destruct c as [[] [] [] [] [] [] [] []]; reflexivity. Qed.

Lemma lower_idem (s : string) : Py.lower (Py.lower s) = Py.lower s.
Proof.
  induction s as [|c s IH]; simpl; [reflexivity|].
  now rewrite lower_ascii_idem, IH.
Qed.

Lemma lower_empty (s : string) : String.eqb (Py.lower s) "" = String.eqb s "".
Proof. destruct s; reflexivity. Qed.

Lemma normalize_str (s : string) :
  _normalize_access_pattern (JStr s)
  = if String.eqb s "" then None
    else if Py.startswith "rand" (Py.lower s) then Some "random"
         else if existsb (String.eqb (Py.lower s)) ["read"; "write"; "rw"; "readwrite"]
              then Some "sequential" else None.
Proof.
  unfold _normalize_access_pattern. cbn [truthy].
  destruct (String.eqb s ""); reflexivity.
Qed.

(** X8: the access pattern is one of [random], [sequential] or absent; it
    does not depend on the case of [rw]; every mode that starts with
    [rand] is random; the modes [read], [write], [rw] and [readwrite] are
    sequential; any other mode, a missing or empty [rw] and a value that
    is not a string give no access pattern. *)
Theorem X8_access_pattern (rw_ : json) :
  (_normalize_access_pattern rw_ = None
   \/ _normalize_access_pattern rw_ = Some "random"
   \/ _normalize_access_pattern rw_ = Some "sequential")
  /\ (forall s, _normalize_access_pattern (JStr (Py.lower s))
                = _normalize_access_pattern (JStr s))
  /\ (forall s, Py.startswith "rand" (Py.lower s) = true ->
                _normalize_access_pattern (JStr s) = Some "random")
  /\ (forall s, In (Py.lower s) ["read"; "write"; "rw"; "readwrite"] ->
                _normalize_access_pattern (JStr s) = Some "sequential")
  /\ (forall s, Py.startswith "rand" (Py.lower s) = false ->
                ~ In (Py.lower s) ["read"; "write"; "rw"; "readwrite"] ->
                _normalize_access_pattern (JStr s) = None)
  /\ ((forall s, rw_ <> JStr s) -> _normalize_access_pattern rw_ = None).
Proof.
  split; [|split; [|split; [|split; [|split]]]].
  - unfold _normalize_access_pattern.
    destruct (negb (truthy rw_)); [tauto|].
    destruct rw_; try tauto.
    destruct (Py.startswith "rand" (Py.lower s)); [tauto|].
    destruct (existsb _ _); tauto.
  - intros s. rewrite !normalize_str. now rewrite lower_empty, lower_idem.
  - intros s H. rewrite normalize_str, H.
    destruct s as [|c s]; [discriminate H|reflexivity].
  - intros s H. rewrite normalize_str.
    destruct (String.eqb s "") eqn:E.
    + apply String.eqb_eq in E. subst s. simpl in H.
      repeat destruct H as [H|H]; discriminate H || contradiction.
    + destruct (Py.startswith "rand" (Py.lower s)) eqn:P.
      * exfalso. simpl in H.
        repeat destruct H as [H|H]; try contradiction; rewrite <- H in P; discriminate P.
      * apply existsb_eqb_In in H. now rewrite H.
  - intros s P H. rewrite normalize_str, P, (existsb_eqb_not_In _ _ H).
    now destruct (String.eqb s "").
  - intros H. unfold _normalize_access_pattern.
    destruct (negb (truthy rw_)); [reflexivity|].
    destruct rw_; try reflexivity. exfalso. now apply (H s).
Qed.

Lemma X8_access_pattern_witness :
  _normalize_access_pattern (JStr "RandRW") = Some "random"
  /\ _normalize_access_pattern (JStr "ReadWrite") = Some "sequential"
  /\ _normalize_access_pattern (JStr "trim") = None.
Proof.
  pose proof (X8_access_pattern JNull) as T.
  split; [|split].
  - apply (proj1 (proj2 (proj2 T))). reflexivity.
  - apply (proj1 (proj2 (proj2 (proj2 T)))). simpl. tauto.
  - apply (proj1 (proj2 (proj2 (proj2 (proj2 T))))); [reflexivity|].
    simpl. intros H. repeat destruct H as [H|H]; discriminate H || contradiction.
Defined.

(** ** Latency per runner *)


Lemma filter_none {T : Type} (f : T -> bool) (l : list T) :
  (forall x, In x l -> f x = false) -> filter f l = [].
Proof.
  induction l as [|a l IH]; simpl; intros H; [reflexivity|].
  rewrite (H a (or_introl eq_refl)). apply IH. intros x Hx. apply H. now right.
Qed.

Lemma filter_all {T : Type} (f : T -> bool) (l : list T) :
  (forall x, In x l -> f x = true) -> filter f l = l.
Proof.
  induction l as [|a l IH]; simpl; intros H; [reflexivity|].
  rewrite (H a (or_introl eq_refl)). f_equal. apply IH. intros x Hx. apply H. now right.
Qed.

Lemma uniq_all_None (l : list (option string)) :
  l <> [] -> (forall x, In x l -> x = None) -> uniq name_eqb l = [None].
Proof.
  destruct l as [|a l]; [contradiction|]. intros _ H. simpl.
  rewrite (H a (or_introl eq_refl)). f_equal.
  apply filter_none. intros x Hx.
  apply (uniq_incl name_eqb) in Hx. rewrite (H x (or_intror Hx)). reflexivity.
Qed.

Lemma runner_absent (df : list ParsedRow) :
  runner_present df = false -> forall r, In r df -> runner r = None.
Proof.
  unfold runner_present. intros H r Hr.
  destruct (runner r) as [rho|] eqn:E; [|reflexivity].
  assert (Ht : existsb (fun r => match runner r with Some _ => true | None => false end) df
               = true).
  { apply existsb_exists. exists r. split; [assumption|now rewrite E]. }
  congruence.
Qed.

(** The mean of a single mean is that mean. *)
Lemma col_mean_single (l : list (option Q)) : col_mean [col_mean l] = col_mean l.
Proof.
  unfold col_mean at 2 3. destruct (somes l) as [|x xs]; [reflexivity|].
  unfold col_mean. cbn [somes List.length Qsum fold_right].
  f_equal. apply Qred_complete. rewrite Qred_correct.
  change (inject_Z (Z.of_nat 1)) with 1%Q.
  generalize (Qsum (x :: xs) / inject_Z (Z.of_nat (List.length (x :: xs))))%Q.
  intros y. field.
  unfold Qeq, inject_Z. cbn [Qnum Qden]. lia.
Qed.

(** X9: a latency column of the summary sheet is, at each group of task,
    access pattern and operation, the mean over the runners of the mean of
    the repeated rows within each runner, so that the repeats of one runner
    weigh as one observation; that holds when a runner is known and also
    when none is, where all rows count as the rows of one runner. *)
Theorem X9_runner_normalized_latency
        (tcol : ParsedRow -> option string) (col : ParsedRow -> option Q)
        (df : list ParsedRow) (g : group_key)
        (Hg : In g (map (group_with_op tcol) df)) :
  at_key group_key_eqb g (agg_latency tcol col df)
  = Some (two_step_mean col
            (filter (fun r => group_key_eqb (group_with_op tcol r) g) df)).
Proof.
  unfold agg_latency. destruct (runner_present df) eqn:Hp.
  - unfold agg_lat, summary_tmp.
    rewrite (nested_groupby group_key_eqb name_eqb group_runner_eqb
               group_key_eqb_spec group_runner_eqb_spec
               (group_with_op tcol) runner
               (fun r => (group_with_op tcol r, runner r)) (fun g rho => (g, rho)) fst).
    + reflexivity.
    + reflexivity.
    + reflexivity.
    + reflexivity.
    + assumption.
  - unfold agg_rows.
    rewrite (at_key_groupby_agg group_key_eqb group_key_eqb_spec) by assumption.
    f_equal. set (grp := filter _ df).
    assert (Hnone : forall r, In r grp -> runner r = None).
    { intros r Hr. apply filter_In in Hr. now apply (runner_absent df Hp). }
    assert (Hne : grp <> []).
    { apply in_map_iff in Hg. destruct Hg as [r [Hr Hin]].
      intros E. assert (Hr' : In r grp).
      { apply filter_In. split; [assumption|]. now apply group_key_eqb_spec. }
      rewrite E in Hr'. contradiction. }
    unfold two_step_mean, runners_of.
    rewrite (uniq_all_None (map runner grp)).
    + cbn [map]. unfold mean_within_runner, rows_of_runner.
      rewrite (filter_all _ grp).
      * symmetry. apply col_mean_single.
      * intros r Hr. now rewrite (Hnone r Hr).
    + destruct grp; [contradiction|discriminate].
    + intros x Hx. apply in_map_iff in Hx. destruct Hx as [r [Hr Hin]].
      rewrite <- Hr. now apply Hnone.
Qed.

Lemma X9_runner_normalized_latency_witness :
  at_key group_key_eqb sample_group (agg_latency task clat_p99_ms latency_rows)
  = Some (Some 4%Q)
  /\ at_key group_key_eqb sample_group
       (agg_latency task clat_p99_ms (map without_runner latency_rows))
     = Some (Some (11 # 3)%Q).
Proof.
  split.
  - rewrite (X9_runner_normalized_latency task clat_p99_ms latency_rows sample_group).
    + reflexivity.
    + simpl. tauto.
  - rewrite (X9_runner_normalized_latency task clat_p99_ms
               (map without_runner latency_rows) sample_group).
    + reflexivity.
    + simpl. tauto.
Defined.

(** ** The naming conventions *)

Lemma run_chars {R : Type} (icase : bool) (cs pre rest : list ascii)
      (pv : option ascii) (caps : Re.captures)
      (k : Re.cursor -> Re.captures -> option R) :
  Forall2 (fun c x => Re.takes icase (Re.lit c) x = true) cs pre ->
  Re.run icase (Re.cat (map (fun c => Re.Chr (Re.lit c)) cs))
    {| Re.prev := pv; Re.rest := pre ++ rest |} caps k
  = k {| Re.prev := prev_after pv pre; Re.rest := rest |} caps.
Proof.
  intros H. revert pv. induction H as [|c x cs pre Hx _ IH]; intros pv.
  - reflexivity.
  - cbn [map Re.cat fold_right]. fold (Re.cat (map (fun c => Re.Chr (Re.lit c)) cs)).
    cbn [Re.run Re.rest app]. rewrite Hx. apply IH.
Qed.

(** A literal of lower-case letters matches, without regard to case, a
    text whose lower case it is. *)
Lemma run_str_icase {R : Type} (s : string) (pre rest : list ascii)
      (pv : option ascii) (caps : Re.captures)
      (k : Re.cursor -> Re.captures -> option R) :
  map Py.lower_ascii pre = list_ascii_of_string s ->
  Re.run true (Re.str s) {| Re.prev := pv; Re.rest := pre ++ rest |} caps k
  = k {| Re.prev := prev_after pv pre; Re.rest := rest |} caps.
Proof.
  intros H. unfold Re.str. apply run_chars.
  rewrite <- H. clear. induction pre as [|x pre IH]; simpl; constructor; [|exact IH].
  unfold Re.takes, Re.lit. rewrite Ascii.eqb_refl. simpl. apply orb_true_r.
Qed.

(** [p+] in front of a run of the class [p]. *)
Lemma plus_run {R : Type} (icase : bool) (p : ascii -> bool)
      (k : Re.cursor -> Re.captures -> option R) (ds tail : list ascii)
      (pv : option ascii) (caps : Re.captures) (res : R) :
  ds <> [] ->
  forallb (Re.takes icase p) ds = true ->
  stops icase p tail ->
  k {| Re.prev := prev_after pv ds; Re.rest := tail |} caps = Some res ->
  Re.run icase (Re.plus (Re.Chr p)) {| Re.prev := pv; Re.rest := ds ++ tail |} caps k
  = Some res.
Proof.
  intros Hne Hds Hstop Hk. destruct ds as [|d ds]; [contradiction|].
  simpl in Hds. apply andb_true_iff in Hds. destruct Hds as [Hd Hds].
  unfold Re.plus. cbn [Re.run Re.rest app]. rewrite Hd.
  apply star_greedy_run; try assumption.
  rewrite length_app. lia.
Qed.

Lemma takes_digit (c : ascii) : Py.is_digit c = true -> Re.takes true Re.digit c = true.
Proof. intros H. unfold Re.takes, Re.digit. now rewrite H. Qed.

Lemma takes_letter (c : ascii) :
  Py.is_alpha c = true -> Re.takes true (Re.range "a" "z") c = true.
Proof.
  destruct c as [[] [] [] [] [] [] [] []]; intros H; try reflexivity; discriminate H.
Qed.

Lemma takes_alnum (c : ascii) :
  (Py.is_alpha c || Py.is_digit c)%bool = true ->
  Re.takes true (Re.union (Re.range "a" "z") Re.digit) c = true.
Proof.
  destruct c as [[] [] [] [] [] [] [] []]; intros H; try reflexivity; discriminate H.
Qed.

Lemma forallb_impl {T : Type} (f g : T -> bool) (l : list T) :
  (forall x, f x = true -> g x = true) -> forallb f l = true -> forallb g l = true.
Proof.
  intros H. induction l as [|a l IH]; simpl; [reflexivity|].
  intros E. apply andb_true_iff in E. destruct E as [Ea El].
  now rewrite (H a Ea), (IH El).
Qed.

(** X10: every name of the task convention is recognised: the word
    [parallel-] in any case, one or more digits, a dash, one or more
    letters and a dash, followed by anything. *)
Theorem X10_task_convention_recognised (pre ds ls rest : list ascii)
        (Hpre : map Py.lower_ascii pre = list_ascii_of_string "parallel-")
        (Hds : ds <> []) (Hdigits : forallb Py.is_digit ds = true)
        (Hls : ls <> []) (Hletters : forallb Py.is_alpha ls = true) :
  matches true _RE_TASK
    (string_of_list_ascii (pre ++ ds ++ "-"%char :: ls ++ "-"%char :: rest)) = true.
Proof.
  unfold matches, Re.pmatch, Re.match_at.
  rewrite list_ascii_of_string_of_list_ascii.
  unfold _RE_TASK.
  change (Re.cat (Re.Bol :: Re.str "parallel-" :: ?l))
    with (Re.Seq Re.Bol (Re.Seq (Re.str "parallel-") (Re.cat l))).
  cbn [Re.run Re.prev].
  rewrite (run_str_icase "parallel-" pre _ None [] _ Hpre).
  change (Re.cat (Re.plus (Re.Chr Re.digit) :: Re.str "-" :: ?l))
    with (Re.Seq (Re.plus (Re.Chr Re.digit)) (Re.Seq (Re.str "-") (Re.cat l))).
  cbn [Re.run].
  erewrite (plus_run true Re.digit _ ds ("-"%char :: ls ++ "-"%char :: rest));
    [reflexivity|assumption| |reflexivity|].
  - apply (forallb_impl Py.is_digit); [apply takes_digit|assumption].
  - change ("-"%char :: ls ++ "-"%char :: rest)
      with (["-"%char] ++ ls ++ "-"%char :: rest)%list.
    rewrite (run_str_icase "-" ["-"%char]) by reflexivity.
    change (Re.cat [Re.plus (Re.Chr (Re.range "a" "z")); Re.str "-"])
      with (Re.Seq (Re.plus (Re.Chr (Re.range "a" "z"))) (Re.Seq (Re.str "-") Re.Eps)).
    cbn [Re.run].
    erewrite (plus_run true (Re.range "a" "z") _ ls ("-"%char :: rest));
      [reflexivity|assumption| |reflexivity|].
    + apply (forallb_impl Py.is_alpha); [apply takes_letter|assumption].
    + change ("-"%char :: rest) with (["-"%char] ++ rest)%list.
      rewrite (run_str_icase "-" ["-"%char]) by reflexivity.
      reflexivity.
Qed.

Lemma X10_task_convention_recognised_witness :
  matches true _RE_TASK "Parallel-12-randRead-20240131T235959Z" = true.
Proof.
  apply (X10_task_convention_recognised
           (list_ascii_of_string "Parallel-") (list_ascii_of_string "12")
           (list_ascii_of_string "randRead") (list_ascii_of_string "20240131T235959Z"));
    reflexivity || discriminate.
Defined.

(** X11: the runner of a file is the first segment of its relative path
    that matches the runner convention, and it is absent exactly when no
    segment matches; every segment made of [fio-runner-] (in any case) and
    one or more letters or digits matches. *)
Theorem X11_runner_name (relpath : string -> string -> Exc string)
        (path input_root : string) :
  let parts := rel_parts relpath path input_root in
  let conv := matches true _RE_RUNNER in
  (forall pre part post,
      parts = (pre ++ part :: post)%list -> conv part = true ->
      (forall y, In y pre -> conv y = false) ->
      compute_runner_name relpath path input_root = Some part)
  /\ (compute_runner_name relpath path input_root = None <->
        forall y, In y parts -> conv y = false)
  /\ (forall pre t,
        map Py.lower_ascii pre = list_ascii_of_string "fio-runner-" ->
        t <> [] -> forallb (fun c => (Py.is_alpha c || Py.is_digit c)%bool) t = true ->
        conv (string_of_list_ascii (pre ++ t)) = true).
Proof.
  intros parts conv. unfold compute_runner_name. fold parts. fold conv.
  split; [|split].
  - intros pre part post Hp Hc Hpre. rewrite Hp. now apply find_app_first.
  - apply find_none_all.
  - intros pre t Hpre Hne Ht. unfold conv, matches, Re.pmatch, Re.match_at.
    rewrite list_ascii_of_string_of_list_ascii.
    unfold _RE_RUNNER.
    change (Re.cat (Re.Bol :: Re.str "fio-runner-" :: ?l))
      with (Re.Seq Re.Bol (Re.Seq (Re.str "fio-runner-") (Re.cat l))).
    cbn [Re.run Re.prev].
    rewrite (run_str_icase "fio-runner-" pre _ None [] _ Hpre).
    change (Re.cat [Re.plus (Re.Chr (Re.union (Re.range "a" "z") Re.digit)); Re.Eol])
      with (Re.Seq (Re.plus (Re.Chr (Re.union (Re.range "a" "z") Re.digit)))
                   (Re.Seq Re.Eol Re.Eps)).
    cbn [Re.run].
    rewrite <- (app_nil_r t).
    erewrite (plus_run true (Re.union (Re.range "a" "z") Re.digit) _ t []);
      [reflexivity|assumption| |exact I|reflexivity].
    apply (forallb_impl (fun c => (Py.is_alpha c || Py.is_digit c)%bool));
      [apply takes_alnum|assumption].
Qed.

Lemma X11_runner_name_witness :
  compute_runner_name (one_file_relpath "parallel-3-randread-a/FIO-Runner-x7k2/out.json")
    "/data/parallel-3-randread-a/FIO-Runner-x7k2/out.json" "/data"
  = Some "FIO-Runner-x7k2"
  /\ matches true _RE_RUNNER "fio-runner-abc" = true.
Proof.
  pose proof (X11_runner_name
                (one_file_relpath "parallel-3-randread-a/FIO-Runner-x7k2/out.json")
                "/data/parallel-3-randread-a/FIO-Runner-x7k2/out.json" "/data") as T.
  split.
  - apply (proj1 T ["parallel-3-randread-a"] "FIO-Runner-x7k2" ["out.json"]).
    + reflexivity.
    + reflexivity.
    + intros y [Hy|[]]. subst y. reflexivity.
  - apply (proj2 (proj2 T) (list_ascii_of_string "fio-runner-")
             (list_ascii_of_string "abc")); reflexivity || discriminate.
Defined.

(** ** Order of the tasks *)

Section SortingFacts.
Context {A : Type}.
Variable leb : A -> A -> bool.

Lemma insert_by_perm (x : A) (l : list A) : Permutation (insert_by leb x l) (x :: l).
Proof.
  induction l as [|y l IH]; simpl; [apply Permutation_refl|].
  destruct (leb x y); [apply Permutation_refl|].
  apply Permutation_trans with (y :: x :: l); [now constructor|apply perm_swap].
Qed.

Lemma sort_by_perm (l : list A) : Permutation (sort_by leb l) l.
Proof.
  induction l as [|x l IH]; simpl; [constructor|].
  apply Permutation_trans with (x :: sort_by leb l);
    [apply insert_by_perm|now constructor].
Qed.

(** The result is in order for every transitive relation that the
    comparison decides. *)
Variable R : A -> A -> Prop.
Hypothesis R_trans : forall a b c, R a b -> R b c -> R a c.
Hypothesis leb_R : forall a b, leb a b = true -> R a b.
Hypothesis not_leb_R : forall a b, leb a b = false -> R b a.

Lemma insert_by_sorted (x : A) (l : list A) :
  StronglySorted R l -> StronglySorted R (insert_by leb x l).
Proof.
  induction 1 as [|y l Hs IH Hall]; simpl.
  - constructor; constructor.
  - destruct (leb x y) eqn:E.
    + constructor; [now constructor|].
      constructor; [now apply leb_R|].
      apply Forall_impl with (2 := Hall). intros z Hz.
      apply R_trans with y; [now apply leb_R|assumption].
    + constructor; [assumption|].
      eapply Permutation_Forall.
      * apply Permutation_sym, insert_by_perm.
      * constructor; [now apply not_leb_R|assumption].
Qed.

Lemma sort_by_sorted (l : list A) : StronglySorted R (sort_by leb l).
Proof.
  induction l as [|x l IH]; simpl; [constructor|now apply insert_by_sorted].
Qed.
End SortingFacts.

Lemma parts_le_trans (p q r : Z * Z) : parts_le p q -> parts_le q r -> parts_le p r.
Proof. unfold parts_le. lia. Qed.

Lemma task_order_leb_parts (a b : option string) :
  task_order_leb a b = true -> parts_le (task_order_parts a) (task_order_parts b).
Proof.
  unfold task_order_leb, parts_le.
  destruct (task_order_parts a) as [a1 a2], (task_order_parts b) as [b1 b2]. simpl.
  destruct (a1 <? b1) eqn:E1; [apply Z.ltb_lt in E1; lia|].
  destruct (b1 <? a1) eqn:E2; [discriminate|].
  apply Z.ltb_ge in E1. apply Z.ltb_ge in E2.
  destruct (a2 <? b2) eqn:E3; [apply Z.ltb_lt in E3; lia|].
  destruct (b2 <? a2) eqn:E4; [discriminate|].
  apply Z.ltb_ge in E3. apply Z.ltb_ge in E4. lia.
Qed.

Lemma task_order_not_leb_parts (a b : option string) :
  task_order_leb a b = false -> parts_le (task_order_parts b) (task_order_parts a).
Proof.
  unfold task_order_leb, parts_le.
  destruct (task_order_parts a) as [a1 a2], (task_order_parts b) as [b1 b2]. simpl.
  destruct (a1 <? b1) eqn:E1; [discriminate|].
  destruct (b1 <? a1) eqn:E2; [apply Z.ltb_lt in E2; lia|].
  apply Z.ltb_ge in E1. apply Z.ltb_ge in E2.
  destruct (a2 <? b2) eqn:E3; [discriminate|].
  destruct (b2 <? a2) eqn:E4; [apply Z.ltb_lt in E4; lia|].
  apply Z.ltb_ge in E3. apply Z.ltb_ge in E4. lia.
Qed.

Lemma index_of_Some (z : Z) (l : list Z) (i : nat) :
  index_of z l = Some i -> In z l.
Proof.
  revert i. induction l as [|y l IH]; simpl; intros i H; [discriminate H|].
  destruct (Z.eqb y z) eqn:E.
  - apply Z.eqb_eq in E. now left.
  - destruct (index_of z l) as [j|]; [|discriminate H]. right. now apply (IH j).
Qed.

(** X12: on a frame that has rows [_sort_df_by_task_order] keeps the
    rows and puts them in the order of the helper columns: a task whose
    degree is one of 3, 6, 9, 12, 15 gets the position of its degree in
    that list as first column and comes before every task of another or of
    no degree, which get 5; within the same first column the rows are in
    ascending degree, a task without a degree counting as 10^9.  On a frame
    that has the task column and no rows it raises [ValueError]. *)
Theorem X12_task_order {A : Type} (task_col : A -> option string) (df : list A)
        (Hrows : df <> []) :
  (exists sorted,
      _sort_df_by_task_order task_col df = Ok sorted
      /\ Permutation sorted df
      /\ StronglySorted
           (fun a b => parts_le (task_order_parts (task_col a))
                                (task_order_parts (task_col b)))
           sorted)
  /\ _sort_df_by_task_order task_col (@nil A) = Raise ValueError
  /\ (forall name deg,
        _extract_parallel_degree name = Some deg -> In deg desired ->
        0 <= fst (task_order_parts name) < 5 /\ snd (task_order_parts name) = deg
        /\ nth_error desired (Z.to_nat (fst (task_order_parts name))) = Some deg)
  /\ (forall name deg,
        _extract_parallel_degree name = Some deg -> ~ In deg desired ->
        task_order_parts name = (5, deg))
  /\ (forall name,
        _extract_parallel_degree name = None -> task_order_parts name = (5, 10 ^ 9)).
Proof.
  split; [|split; [reflexivity|]].
  - destruct df as [|a df]; [contradiction|].
    eexists. split; [reflexivity|]. split; [apply sort_by_perm|].
    apply sort_by_sorted.
    + intros x y z. apply parts_le_trans.
    + intros x y. apply task_order_leb_parts.
    + intros x y. apply task_order_not_leb_parts.
  - split; [|split].
    + intros name deg Hd Hin. unfold task_order_parts. rewrite Hd.
      unfold desired in *. simpl in Hin.
      repeat destruct Hin as [Hin|Hin]; try contradiction; subst deg;
        simpl; repeat split; lia || reflexivity.
    + intros name deg Hd Hin. unfold task_order_parts. rewrite Hd.
      destruct (index_of deg desired) as [i|] eqn:E; [|reflexivity].
      exfalso. apply Hin. now apply (index_of_Some deg desired i).
    + intros name Hd. unfold task_order_parts. now rewrite Hd.
Qed.

Lemma X12_task_order_witness :
  (exists sorted,
      _sort_df_by_task_order (fun x => x)
        [Some "parallel-6-randread-a"; Some "parallel-3-randread-a";
         Some "parallel-20-randread-a"] = Ok sorted
      /\ Permutation sorted
           [Some "parallel-6-randread-a"; Some "parallel-3-randread-a";
            Some "parallel-20-randread-a"]
      /\ sorted = [Some "parallel-3-randread-a"; Some "parallel-6-randread-a";
                   Some "parallel-20-randread-a"])
  /\ task_order_parts (Some "parallel-20-randread-a") = (5, 20)
  /\ task_order_parts (Some "parallel-9-randread-a") = (2, 9).
Proof.
  pose proof (X12_task_order (fun x : option string => x)
                [Some "parallel-6-randread-a"; Some "parallel-3-randread-a";
                 Some "parallel-20-randread-a"] ltac:(discriminate)) as T.
  destruct T as [[sorted [E [P _]]] [_ T]].
  split; [|split].
  - exists sorted. split; [exact E|]. split; [exact P|].
    vm_compute in E. now inversion E.
  - apply (proj1 (proj2 T)).
    + reflexivity.
    + unfold desired. simpl. intros H.
      repeat destruct H as [H|H]; discriminate H || contradiction.
  - destruct (proj1 T (Some "parallel-9-randread-a") 9) as [_ [_ _]].
    + reflexivity.
    + unfold desired. simpl. tauto.
    + reflexivity.
Defined.

Lemma search_from_here (icase : bool) (r : Re.re) (p : option ascii) (s : list ascii)
      (caps : Re.captures) (stop : Re.cursor) :
  Re.match_at icase r {| Re.prev := p; Re.rest := s |} = Some (caps, stop) ->
  Re.search_from icase r p s = Some (caps, {| Re.prev := p; Re.rest := s |}, stop).
Proof. intros H. destruct s; simpl; rewrite H; reflexivity. Qed.

(** X13: the degree of a task name that starts with [parallel-] (in any
    case) and a run of digits is the number the digits denote; a missing
    or empty name has no degree. *)
Theorem X13_parallel_degree (pre ds tail : list ascii)
        (Hpre : map Py.lower_ascii pre = list_ascii_of_string "parallel-")
        (Hds : ds <> []) (Hdigits : forallb Py.is_digit ds = true)
        (Htail : stops true Re.digit tail) :
  _extract_parallel_degree (Some (string_of_list_ascii (pre ++ ds ++ tail)))
  = Some (decimal_value ds)
  /\ _extract_parallel_degree None = None
  /\ _extract_parallel_degree (Some "") = None.
Proof.
  split; [|split; reflexivity].
  unfold _extract_parallel_degree.
  assert (Hne : String.eqb (string_of_list_ascii (pre ++ ds ++ tail)) "" = false).
  { destruct pre as [|c pre]; [discriminate Hpre|reflexivity]. }
  rewrite Hne. unfold Re.search. rewrite list_ascii_of_string_of_list_ascii.
  destruct ds as [|d ds]; [contradiction|].
  rewrite (search_from_here true _RE_PARALLEL_DEGREE None _
             [("1", string_of_list_ascii (d :: ds))]
             {| Re.prev := prev_after (prev_after None pre) (d :: ds); Re.rest := tail |}).
  - cbn [option_map fst Re.group String.eqb Ascii.eqb Bool.eqb].
    apply int_of_digits; [discriminate|assumption].
  - unfold Re.match_at, _RE_PARALLEL_DEGREE.
    change (Re.cat [Re.str "parallel-"; ?g]) with (Re.Seq (Re.str "parallel-") (Re.Seq g Re.Eps)).
    change (Re.run true (Re.Seq ?a ?b) ?c ?cp ?k)
      with (Re.run true a c cp (fun cur' caps' => Re.run true b cur' caps' k)).
    rewrite (run_str_icase "parallel-" pre _ None [] _ Hpre).
    change (Re.run true (Re.Seq ?a Re.Eps) ?c ?cp ?k) with (Re.run true a c cp k).
    apply group_plus_run.
    + apply (forallb_impl Py.is_digit); [apply takes_digit|assumption].
    + assumption.
    + reflexivity.
Qed.

Lemma X13_parallel_degree_witness :
  _extract_parallel_degree (Some "Parallel-12-randread-20240131T235959Z") = Some 12.
Proof.
  apply (proj1 (X13_parallel_degree (list_ascii_of_string "Parallel-")
                  (list_ascii_of_string "12")
                  (list_ascii_of_string "-randread-20240131T235959Z")
                  eq_refl ltac:(discriminate) eq_refl eq_refl)).
Defined.

(** ** The size of a job *)

(** A run of digits ends at a character that is neither a digit nor an
    underscore. *)
Lemma digit_run_stop (ds : list ascii) (c : ascii) (t : list ascii) (acc : Z) (n : nat) :
  forallb Py.is_digit ds = true ->
  Py.is_digit c = false -> Ascii.eqb c "_" = false ->
  Py.digit_run (ds ++ c :: t) acc n
  = (fold_left (fun a x => a * 10 + Py.digit_val x) ds acc, (n + List.length ds)%nat, c :: t).
Proof.
  intros Hds Hc Hu. revert acc n.
  induction ds as [|d ds IH]; intros acc n.
  - simpl. rewrite Hc, Hu. simpl. now rewrite Nat.add_0_r.
  - simpl in Hds. apply andb_true_iff in Hds. destruct Hds as [Hd Hs].
    simpl. rewrite Hd, (IH Hs). now rewrite Nat.add_succ_r.
Qed.

Lemma size_unit_chars (u : ascii) (pw : Z) :
  In (u, pw) size_units ->
  Py.is_digit u = false /\ Ascii.eqb u "_" = false /\ Py.is_space u = false
  /\ Ascii.eqb u "." = false /\ Ascii.eqb (Py.lower_ascii u) "e" = false.
Proof.
  simpl. intros H.
  repeat (destruct H as [H|H]; [inversion H; subst u pw; repeat split; reflexivity|]).
  contradiction.
Qed.

(** A text that starts with a digit is none of the words [inf],
    [infinity] and [nan]. *)
Lemma digit_head_no_word (d : ascii) (l : list ascii) :
  Py.is_digit d = true ->
  let word := string_of_list_ascii (map Py.lower_ascii (d :: l)) in
  (String.eqb word "inf" || String.eqb word "infinity")%bool = false
  /\ String.eqb word "nan" = false.
Proof.
  intros Hd. cbn [map string_of_list_ascii String.eqb].
  destruct d as [[] [] [] [] [] [] [] []]; try discriminate Hd; split; reflexivity.
Qed.

(** Neither [int] nor [float] reads digits that a unit letter follows, so
    [_to_int] gives nothing on a size such as [4k]. *)
Lemma to_int_unit_suffix (ds b : list ascii) (u : ascii) (pw : Z) :
  ds <> [] -> forallb Py.is_digit ds = true ->
  In (u, pw) size_units -> In b byte_suffixes ->
  _to_int (JStr (string_of_list_ascii (ds ++ u :: b))) = None.
Proof.
  intros Hne Hds Hu Hb.
  destruct (size_unit_chars u pw Hu) as [Hud [Huu [Hus [Hdot He]]]].
  assert (Hstrip : Py.strip (string_of_list_ascii (ds ++ u :: b))
                   = string_of_list_ascii (ds ++ u :: b)).
  { apply strip_id. rewrite forallb_app, (digits_no_space ds Hds). simpl.
    rewrite Hus. simpl.
    simpl in Hb. destruct Hb as [Hb|[Hb|[Hb|[]]]]; subst b; reflexivity. }
  destruct ds as [|d ds]; [contradiction|].
  assert (Hd0 : Py.is_digit d = true).
  { simpl in Hds. now apply andb_true_iff in Hds. }
  assert (Hrun : Py.digit_run ((d :: ds) ++ u :: b) 0 0
                 = (decimal_value (d :: ds), List.length (d :: ds), (u :: b)%list)).
  { exact (digit_run_stop (d :: ds) u b 0 0 Hds Hud Huu). }
  assert (Hint : Py.int_of_str (string_of_list_ascii ((d :: ds) ++ u :: b)) = None).
  { unfold Py.int_of_str.
    rewrite Hstrip, list_ascii_of_string_of_list_ascii.
    change ((d :: ds) ++ u :: b)%list with (d :: (ds ++ u :: b))%list.
    rewrite (sign_digit d _ Hd0).
    change (d :: (ds ++ u :: b))%list with ((d :: ds) ++ u :: b)%list.
    rewrite Hrun. reflexivity. }
  assert (Hfloat : Py.float (string_of_list_ascii ((d :: ds) ++ u :: b)) = None).
  { unfold Py.float.
    rewrite Hstrip, list_ascii_of_string_of_list_ascii.
    change ((d :: ds) ++ u :: b)%list with (d :: (ds ++ u :: b))%list.
    rewrite (sign_digit d _ Hd0).
    destruct (digit_head_no_word d (ds ++ u :: b) Hd0) as [W1 W2].
    cbv zeta in W1, W2. rewrite W1, W2.
    change (d :: (ds ++ u :: b))%list with ((d :: ds) ++ u :: b)%list.
    unfold Py.decimal_literal. rewrite Hrun.
    assert (Hr : match (u :: b)%list with
                 | "."%char :: r => Py.digit_run r 0 0%nat
                 | _ => (0, 0%nat, (u :: b)%list)
                 end = (0, 0%nat, (u :: b)%list)).
    { destruct u as [[] [] [] [] [] [] [] []]; try reflexivity; discriminate Hdot. }
    rewrite Hr. cbn [Nat.add List.length]. unfold Py.exponent. rewrite He. reflexivity. }
  unfold _to_int, Py.float_of_str. rewrite Hint, Hfloat. reflexivity.
Qed.

Lemma parse_op_size meta op_ od sf tk rn row :
  parse_op meta op_ od sf tk rn = Ok row -> size_bytes row = jm_size_bytes meta.
Proof.
  intros H. destruct od as [| | | | | |fields]; try discriminate H.
  unfold parse_op in H. simpl in H.
  destruct (clat_pcts_of _ _ _) as [[p99 p95] p50].
  apply ParsedRow_init_Given in H. subst row. reflexivity.
Qed.

Lemma job_meta_size data job meta :
  job_meta_of data job = Ok meta -> size_bytes_of job = Ok (jm_size_bytes meta).
Proof.
  intros H. unfold job_meta_of in H.
  repeat bind_inv H.
  inversion H; subst; simpl. assumption.
Qed.

Lemma dict_get_present (fields : list (string * json)) (key : string) (d1 d2 : json) :
  has_key key fields = true -> dict_get fields key d1 = dict_get fields key d2.
Proof.
  induction fields as [|[k v] fields IH]; simpl; intros H; [discriminate H|].
  destruct (String.eqb k key); [reflexivity|]. now apply IH.
Qed.

(** X14: the size of a job, read from the [size] option: an integer is
    kept, a string of digits is the number it denotes, and digits followed
    by a unit letter, which [_to_int] does not read, go through the
    expansion of [_parse_size_to_bytes]; a job without the option has no
    size; and every row of the job carries that size. *)
Theorem X14_job_size (data : json) (jf opts : list (string * json))
        (Hopts : dict_get jf "job options" (JObj []) = JObj opts) :
  let job := JObj jf in
  let size := dict_get opts "size" JNull in
  (forall z, size = JInt z -> size_bytes_of job = Ok (Some z))
  /\ (forall ds, ds <> [] -> forallb Py.is_digit ds = true ->
        size = JStr (string_of_list_ascii ds) ->
        size_bytes_of job = Ok (Some (decimal_value ds)))
  /\ (forall ds u pw b,
        ds <> [] -> forallb Py.is_digit ds = true ->
        In (u, pw) size_units -> In b byte_suffixes ->
        size = JStr (string_of_list_ascii (ds ++ u :: b)) ->
        _to_int size = None
        /\ size_bytes_of job = Ok (Some (decimal_value ds * 2 ^ pw)))
  /\ (size = JNull -> size_bytes_of job = Ok None)
  /\ (forall sf tk rn rows,
        parse_job data job sf tk rn = Ok rows ->
        forall r, In r rows -> size_bytes_of job = Ok (size_bytes r)).
Proof.
  intros job size.
  assert (Hs : size_bytes_of job
               = match _to_int size with
                 | Some z => Ok (Some z)
                 | None => Ok (_parse_size_to_bytes size)
                 end).
  { unfold size_bytes_of, job, get_default. cbn [bind]. rewrite Hopts.
    unfold get, get_default. cbn [bind]. reflexivity. }
  split; [|split; [|split; [|split]]].
  - intros z Hz. rewrite Hs, Hz. reflexivity.
  - intros ds Hne Hds Hz. rewrite Hs, Hz. unfold _to_int.
    rewrite (int_of_digits ds Hne Hds). reflexivity.
  - intros ds u pw b Hne Hds Hu Hb Hz.
    pose proof (to_int_unit_suffix ds b u pw Hne Hds Hu Hb) as Hi.
    split; [rewrite Hz; exact Hi|].
    rewrite Hs, Hz, Hi, (size_with_unit ds b u pw Hne Hds Hu Hb). reflexivity.
  - intros Hz. rewrite Hs, Hz. reflexivity.
  - intros sf tk rn rows Hrows r Hr.
    destruct (parse_job_rows _ _ _ _ _ _ Hrows) as [meta [fields [Hm [_ Hall]]]].
    destruct (Hall r Hr) as [o [_ [_ Hp]]].
    rewrite (parse_op_size _ _ _ _ _ _ _ Hp).
    exact (job_meta_size _ _ _ Hm).
Qed.

Lemma X14_job_size_witness :
  size_bytes_of (JObj [("jobname", JStr "a");
                       ("job options", JObj [("size", JStr "4G")])])
  = Ok (Some (4 * 2 ^ 30)).
Proof.
  pose proof (X14_job_size JNull
                [("jobname", JStr "a"); ("job options", JObj [("size", JStr "4G")])]
                [("size", JStr "4G")] eq_refl) as T.
  cbv zeta in T.
  destruct T as [_ [_ [T _]]].
  destruct (T ["4"%char] "G"%char 30 [] ltac:(discriminate) eq_refl
              ltac:(simpl; tauto) ltac:(simpl; tauto) eq_refl) as [_ T'].
  exact T'.
Defined.

(** X15: a job whose [job options] key is present with a value that is
    not a mapping makes the parser raise, and that includes [null] and the
    other empty values, which the first lookup replaces by an empty mapping
    but the lookup of the size does not. *)
Theorem X15_job_options_not_mapping (data : json) (jf : list (string * json))
        (sf : string) (tk rn : option string)
        (Hkey : has_key "job options" jf = true)
        (Hopts : is_dict (dict_get jf "job options" JNull) = false) :
  exists e, parse_job data (JObj jf) sf tk rn = Raise e.
Proof.
  unfold parse_job, job_meta_of.
  unfold get at 1, get_default at 1. cbn [bind].
  unfold get at 1, get_default at 1. cbn [bind].
  remember (dict_get jf "job options" JNull) as o eqn:Ho.
  destruct (truthy o) eqn:Ht.
  - exists AttributeError.
    destruct o; try discriminate Hopts; try discriminate Ht; reflexivity.
  - unfold get at 1, get_default at 1. cbn [bind dict_get truthy].
    unfold get at 1, get_default at 1. cbn [bind dict_get].
    unfold get at 1, get_default at 1. cbn [bind dict_get].
    unfold get at 1, get_default at 1. cbn [bind dict_get].
    unfold get at 1, get_default at 1. cbn [bind dict_get].
    destruct (runtime_ms_of data (JObj jf)) as [raw|e]; cbn [bind].
    + exists AttributeError.
      unfold size_bytes_of, get_default at 1. cbn [bind].
      rewrite (dict_get_present jf "job options" (JObj []) JNull Hkey), <- Ho.
      destruct o; try discriminate Hopts; reflexivity.
    + exists e. reflexivity.
Qed.

Lemma X15_job_options_not_mapping_witness :
  exists e,
    parse_fio_json (JObj [("jobs", JArr [JObj [("jobname", JStr "a");
                                               ("job options", JNull);
                                               ("read", plain_op_data)]])])
      "out.json" None None = Raise e.
Proof.
  destruct (X15_job_options_not_mapping
              (JObj [("jobs", JArr [JObj [("jobname", JStr "a");
                                          ("job options", JNull);
                                          ("read", plain_op_data)]])])
              [("jobname", JStr "a"); ("job options", JNull); ("read", plain_op_data)]
              "out.json" None None eq_refl eq_refl) as [e He].
  exists e. unfold parse_fio_json. cbn [get get_default bind dict_get String.eqb
    Ascii.eqb Bool.eqb truthy iterate map_exc].
  rewrite He. reflexivity.
Defined.

(** ** Sheet names *)

Lemma substring_length_le (m : nat) (s : string) :
  (String.length (String.substring 0 m s) <= m)%nat.
Proof.
  revert s. induction m as [|m IH]; intros s; destruct s as [|c s]; simpl; try lia.
  specialize (IH s). lia.
Qed.

Lemma substring_length_min (m : nat) (s : string) :
  String.length (String.substring 0 m s) = Nat.min m (String.length s).
Proof.
  revert s. induction m as [|m IH]; intros s; destruct s as [|c s]; simpl; try lia.
  now rewrite IH.
Qed.

Lemma substring_chars (m : nat) (s : string) (c : ascii) :
  In c (list_ascii_of_string (String.substring 0 m s)) -> In c (list_ascii_of_string s).
Proof.
  revert s. induction m as [|m IH]; intros s; destruct s as [|d s]; simpl; try tauto.
  intros [H|H]; [now left|right; now apply IH].
Qed.

Lemma substring_all (m : nat) (s : string) :
  (String.length s <= m)%nat -> String.substring 0 m s = s.
Proof.
  revert s. induction m as [|m IH]; intros s; destruct s as [|d s]; simpl; intros H;
    try reflexivity; try lia.
  f_equal. apply IH. lia.
Qed.

Lemma list_of_append (a b : string) :
  list_ascii_of_string (append a b)
  = (list_ascii_of_string a ++ list_ascii_of_string b)%list.
Proof. induction a as [|c a IH]; simpl; [reflexivity|now rewrite IH]. Qed.

Lemma length_append (a b : string) :
  String.length (append a b) = (String.length a + String.length b)%nat.
Proof. induction a as [|c a IH]; simpl; [reflexivity|now rewrite IH]. Qed.

Lemma map_fixed {A : Type} (f : A -> A) (l : list A) :
  (forall x, In x l -> f x = x) -> map f l = l.
Proof.
  induction l as [|x l IH]; simpl; intros H; [reflexivity|].
  rewrite (H x (or_introl eq_refl)), IH; [reflexivity|].
  intros y Hy. apply H. now right.
Qed.

Lemma safe_of_valid (name : string) (c : ascii) :
  In c (list_ascii_of_string (safe_of name)) -> is_invalid c = false.
Proof.
  unfold safe_of. intros H. apply substring_chars in H.
  rewrite list_ascii_of_string_of_list_ascii in H.
  apply in_map_iff in H. destruct H as [x [Hx _]].
  destruct (is_invalid x) eqn:E; subst c; [reflexivity|exact E].
Qed.

Lemma safe_of_length (name : string) : (String.length (safe_of name) <= 31)%nat.
Proof. apply substring_length_le. Qed.

Lemma safe_of_fixed (name : string) :
  (String.length name <= 31)%nat ->
  (forall c, In c (list_ascii_of_string name) -> is_invalid c = false) ->
  safe_of name = name.
Proof.
  intros Hlen Hval. unfold safe_of.
  rewrite map_fixed.
  - rewrite string_of_list_ascii_of_string. now apply substring_all.
  - intros c Hc. now rewrite (Hval c Hc).
Qed.

(** X16: without a registry [sanitize_sheet_name] returns a name of at most
    31 characters that holds none of the characters [: \ / ? * [ ]]; it
    leaves the registry absent, returns a name that already meets both
    conditions unchanged, and so cleaning twice is cleaning once. *)
Theorem X16_sheet_name_valid (name : string) :
  exists safe,
    sanitize_sheet_name name None = Some (safe, None)
    /\ (String.length safe <= 31)%nat
    /\ (forall c, In c (list_ascii_of_string safe) -> ~ In c invalid)
    /\ ((String.length name <= 31)%nat ->
        (forall c, In c (list_ascii_of_string name) -> ~ In c invalid) ->
        safe = name)
    /\ sanitize_sheet_name safe None = Some (safe, None).
Proof.
  assert (Hinv : forall c, is_invalid c = false <-> ~ In c invalid).
  { intros c. unfold is_invalid. split.
    - intros H Hin. assert (T : existsb (Ascii.eqb c) invalid = true).
      { apply existsb_exists. exists c. split; [exact Hin|apply Ascii.eqb_refl]. }
      congruence.
    - intros H. destruct (existsb (Ascii.eqb c) invalid) eqn:E; [|reflexivity].
      apply existsb_exists in E. destruct E as [x [Hx Hcx]].
      apply Ascii.eqb_eq in Hcx. subst x. contradiction. }
  exists (safe_of name). split; [reflexivity|].
  split; [apply safe_of_length|].
  split; [intros c Hc; apply Hinv; now apply (safe_of_valid name)|].
  split.
  - intros Hlen Hval. apply safe_of_fixed; [exact Hlen|].
    intros c Hc. apply Hinv. now apply Hval.
  - unfold sanitize_sheet_name. cbv zeta.
    rewrite (safe_of_fixed (safe_of name)); [reflexivity|apply safe_of_length|].
    intros c Hc. now apply (safe_of_valid name).
Qed.

(** ** The registry of sheet names *)

Lemma uint_chars (d : Decimal.uint) (c : ascii) :
  In c (list_ascii_of_string (NilEmpty.string_of_uint d)) -> Py.is_digit c = true.
Proof.
  induction d; simpl; try tauto; (intros [H|H]; [subst c; reflexivity|now apply IHd]).
Qed.

(** [str] of an integer holds digits and at most a minus sign. *)
Lemma string_of_Z_chars (z : Z) (c : ascii) :
  In c (list_ascii_of_string (Py.string_of_Z z)) ->
  Py.is_digit c = true \/ c = "-"%char.
Proof.
  unfold Py.string_of_Z, NilZero.string_of_int.
  assert (U : forall d, In c (list_ascii_of_string (NilZero.string_of_uint d)) ->
                        Py.is_digit c = true).
  { intros d. unfold NilZero.string_of_uint.
    destruct d; try apply uint_chars.
    simpl. intros [H|[]]. subst c. reflexivity. }
  destruct (Z.to_int z) as [d|d].
  - intros H. left. now apply (U d).
  - simpl. intros [H|H]; [right; now symmetry|left; now apply (U d)].
Qed.

Lemma suffix_char (c : ascii) :
  Py.is_digit c = true \/ c = "-"%char ->
  Ascii.eqb c "_" = false /\ is_invalid c = false.
Proof.
  intros [H|H].
  - destruct c as [[] [] [] [] [] [] [] []]; try discriminate H; split; reflexivity.
  - subst c. split; reflexivity.
Qed.

Lemma string_of_Z_inj (i j : Z) : Py.string_of_Z i = Py.string_of_Z j -> i = j.
Proof.
  unfold Py.string_of_Z. intros H.
  assert (N : forall z, Z.to_int z <> Decimal.Pos Decimal.Nil
                        /\ Z.to_int z <> Decimal.Neg Decimal.Nil).
  { intros z. destruct z as [|p|p]; simpl; split; try discriminate;
      intros E; injection E; apply DecimalPos.Unsigned.to_uint_nonnil. }
  apply DecimalZ.to_int_inj.
  assert (S1 : Some (Z.to_int i) = Some (Z.to_int j)).
  { rewrite <- (NilZero.isi (Z.to_int i) (proj1 (N i)) (proj2 (N i))).
    rewrite <- (NilZero.isi (Z.to_int j) (proj1 (N j)) (proj2 (N j))).
    now rewrite H. }
  now inversion S1.
Qed.

Lemma until_underscore_app (d p : list ascii) :
  (forall c, In c d -> Ascii.eqb c "_" = false) ->
  until_underscore (d ++ "_"%char :: p) = d.
Proof.
  induction d as [|x d IH]; simpl; intros H; [reflexivity|].
  rewrite (H x (or_introl eq_refl)). f_equal. apply IH.
  intros c Hc. apply H. now right.
Qed.

(** The index can be read back from a candidate: it is what follows the
    last underscore. *)
Lemma candidate_index (base : string) (idx : Z) :
  until_underscore (rev (list_ascii_of_string (candidate_of base idx)))
  = rev (list_ascii_of_string (Py.string_of_Z idx)).
Proof.
  unfold candidate_of, suffix_of. rewrite list_of_append. simpl.
  rewrite rev_app_distr. simpl. rewrite <- app_assoc. simpl.
  apply until_underscore_app.
  intros c Hc. apply in_rev in Hc.
  exact (proj1 (suffix_char c (string_of_Z_chars idx c Hc))).
Qed.

Lemma candidate_inj (base : string) (i j : Z) :
  candidate_of base i = candidate_of base j -> i = j.
Proof.
  intros H. apply string_of_Z_inj.
  pose proof (candidate_index base i) as Hi.
  rewrite H, (candidate_index base j) in Hi.
  apply (f_equal (@rev ascii)) in Hi. rewrite !rev_involutive in Hi.
  apply (f_equal string_of_list_ascii) in Hi.
  now rewrite !string_of_list_ascii_of_string in Hi.
Qed.

Lemma candidate_valid (base : string) (idx : Z) (c : ascii) :
  (forall x, In x (list_ascii_of_string base) -> is_invalid x = false) ->
  In c (list_ascii_of_string (candidate_of base idx)) -> is_invalid c = false.
Proof.
  intros Hb. unfold candidate_of, suffix_of. rewrite list_of_append. simpl.
  intros H. apply in_app_or in H. destruct H as [H|[H|H]].
  - apply Hb. now apply substring_chars in H.
  - subst c. reflexivity.
  - exact (proj2 (suffix_char c (string_of_Z_chars idx c H))).
Qed.

Lemma candidate_length (base : string) (idx : Z) :
  (String.length (suffix_of idx) <= 31)%nat ->
  (String.length (candidate_of base idx) <= 31)%nat.
Proof.
  intros H. unfold candidate_of. rewrite length_append, substring_length_min. lia.
Qed.

Lemma reg_has_In (key : string) (used : registry) :
  reg_has key used = true <-> In key (map fst used).
Proof.
  unfold reg_has. rewrite existsb_exists. split.
  - intros [[k v] [Hin Hk]]. apply String.eqb_eq in Hk. simpl in Hk. subst k.
    apply in_map_iff. exists (key, v). now split.
  - intros H. apply in_map_iff in H. destruct H as [[k v] [Hk Hin]].
    exists (k, v). split; [exact Hin|]. simpl in *. subst k. apply String.eqb_refl.
Qed.

Lemma reg_get_missing (used : registry) (key : string) (d : Z) :
  reg_has key used = false -> reg_get used key d = d.
Proof.
  induction used as [|[k v] used IH]; simpl; intros H; [reflexivity|].
  apply orb_false_iff in H. destruct H as [Hk Hrest].
  rewrite Hk. now apply IH.
Qed.

(** A key that is not in the registry is added at its end. *)
Lemma reg_set_new (used : registry) (key : string) (v : Z) :
  reg_has key used = false -> reg_set used key v = (used ++ [(key, v)])%list.
Proof.
  induction used as [|[k x] used IH]; simpl; intros H; [reflexivity|].
  apply orb_false_iff in H. destruct H as [Hk Hrest].
  rewrite Hk. f_equal. now apply IH.
Qed.

Lemma candidates_In (fuel : nat) (base : string) (idx : Z) (c : string) :
  In c (candidates fuel base idx) ->
  exists i, idx < i <= idx + Z.of_nat fuel /\ c = candidate_of base i.
Proof.
  revert idx. induction fuel as [|fuel IH]; intros idx; simpl; [tauto|].
  intros [H|H].
  - exists (idx + 1). split; [lia|now symmetry].
  - destruct (IH _ H) as [i [Hi Hc]]. exists i. split; [lia|exact Hc].
Qed.

Lemma candidates_NoDup (fuel : nat) (base : string) (idx : Z) :
  NoDup (candidates fuel base idx).
Proof.
  revert idx. induction fuel as [|fuel IH]; intros idx; simpl; constructor.
  - intros H. apply candidates_In in H. destruct H as [i [Hi Hc]].
    apply candidate_inj in Hc. lia.
  - apply IH.
Qed.

Lemma candidates_length (fuel : nat) (base : string) (idx : Z) :
  List.length (candidates fuel base idx) = fuel.
Proof. revert idx. induction fuel as [|fuel IH]; intros idx; simpl; [|rewrite IH]; reflexivity. Qed.

Lemma next_free_Some (fuel : nat) (base : string) (used : registry) (idx : Z) (c : string) :
  next_free fuel base used idx = Some c ->
  reg_has c used = false
  /\ exists i, idx < i <= idx + Z.of_nat fuel /\ c = candidate_of base i.
Proof.
  revert idx. induction fuel as [|fuel IH]; intros idx; simpl; [discriminate|].
  destruct (reg_has (candidate_of base (idx + 1)) used) eqn:E.
  - intros H. destruct (IH _ H) as [Hc [i [Hi Hci]]].
    split; [exact Hc|]. exists i. split; [lia|exact Hci].
  - intros H. inversion H; subst c. split; [exact E|].
    exists (idx + 1). split; [lia|reflexivity].
Qed.

Lemma next_free_None (fuel : nat) (base : string) (used : registry) (idx : Z) :
  next_free fuel base used idx = None ->
  incl (candidates fuel base idx) (map fst used).
Proof.
  revert idx. induction fuel as [|fuel IH]; intros idx; simpl; intros H c Hc;
    [contradiction|].
  destruct (reg_has (candidate_of base (idx + 1)) used) eqn:E; [|discriminate H].
  destruct Hc as [Hc|Hc].
  - subst c. now apply reg_has_In.
  - exact (IH _ H c Hc).
Qed.

(** The loop returns within one round more than the registry has keys:
    the candidates are pairwise distinct, so they cannot all be keys. *)
Lemma next_free_total (base : string) (used : registry) (idx : Z) :
  exists c, next_free (S (List.length used)) base used idx = Some c.
Proof.
  destruct (next_free (S (List.length used)) base used idx) as [c|] eqn:E;
    [now exists c|].
  apply next_free_None in E.
  pose proof (NoDup_incl_length (candidates_NoDup _ base idx) E) as L.
  rewrite candidates_length, length_map in L. lia.
Qed.

Lemma sanitize_with_registry (name : string) (used : registry) :
  exists name',
    sanitize_sheet_name name (Some used) = Some (name', Some (used ++ [(name', 1)])%list)
    /\ reg_has name' used = false
    /\ (forall c, In c (list_ascii_of_string name') -> is_invalid c = false)
    /\ (reg_has (safe_of name) used = false -> name' = safe_of name)
    /\ (reg_has (safe_of name) used = true ->
        exists idx,
          reg_get used (safe_of name) 0 < idx
            <= reg_get used (safe_of name) 0 + Z.of_nat (S (List.length used))
          /\ name' = candidate_of (safe_of name) idx).
Proof.
  unfold sanitize_sheet_name. cbv zeta.
  destruct (reg_has (safe_of name) used) eqn:Hb.
  - rewrite andb_false_r.
    destruct (next_free_total (safe_of name) used (reg_get used (safe_of name) 0))
      as [c Hc].
    rewrite Hc. destruct (next_free_Some _ _ _ _ _ Hc) as [Hfree [i [Hi Hci]]].
    exists c. rewrite (reg_set_new used c 1 Hfree).
    split; [reflexivity|]. split; [exact Hfree|]. split; [|split].
    + intros x Hx. subst c. apply (candidate_valid (safe_of name) i x); [|exact Hx].
      intros y Hy. now apply (safe_of_valid name).
    + discriminate.
    + intros _. exists i. split; [exact Hi|exact Hci].
  - rewrite (reg_get_missing used (safe_of name) 0 Hb). simpl.
    exists (safe_of name). rewrite (reg_set_new used _ 1 Hb).
    split; [reflexivity|]. split; [exact Hb|]. split; [|split].
    + intros x Hx. now apply (safe_of_valid name).
    + reflexivity.
    + discriminate.
Qed.

(** X17: with a registry [sanitize_sheet_name] always returns: the loop
    ends within one round more than the registry has keys.  The name
    returned was not a key of the registry, holds no invalid character and
    is added to the registry with the value 1, the other entries being
    kept; it is the cleaned name itself when that is not a key, and else
    the cleaned name cut and followed by an underscore and a number, of at
    most 31 characters whenever that suffix has at most 31; and no later
    call returns the same name again. *)
Theorem X17_sheet_name_unique (name : string) (used : registry) :
  exists name',
    sanitize_sheet_name name (Some used) = Some (name', Some (used ++ [(name', 1)])%list)
    /\ ~ In name' (map fst used)
    /\ (forall c, In c (list_ascii_of_string name') -> ~ In c invalid)
    /\ (~ In (safe_of name) (map fst used) -> name' = safe_of name)
    /\ (In (safe_of name) (map fst used) ->
        exists idx,
          reg_get used (safe_of name) 0 < idx
            <= reg_get used (safe_of name) 0 + Z.of_nat (S (List.length used))
          /\ name' = candidate_of (safe_of name) idx
          /\ ((String.length (suffix_of idx) <= 31)%nat ->
              (String.length name' <= 31)%nat))
    /\ (forall other later used',
          sanitize_sheet_name other (Some (used ++ [(name', 1)])%list)
          = Some (later, used') -> later <> name').
Proof.
  destruct (sanitize_with_registry name used) as [n [Hrun [Hfree [Hval [Hnew Hold]]]]].
  exists n. split; [exact Hrun|].
  assert (Hnot : forall k u, reg_has k u = false <-> ~ In k (map fst u)).
  { intros k u. rewrite <- reg_has_In. destruct (reg_has k u); intuition congruence. }
  split; [now apply Hnot|]. split; [|split; [|split]].
  - intros c Hc Hin. specialize (Hval c Hc). unfold is_invalid in Hval.
    assert (T : existsb (Ascii.eqb c) invalid = true).
    { apply existsb_exists. exists c. split; [exact Hin|apply Ascii.eqb_refl]. }
    congruence.
  - intros H. apply Hnew. now apply Hnot.
  - intros H. apply reg_has_In in H. destruct (Hold H) as [i [Hi Hn]].
    exists i. split; [exact Hi|]. split; [exact Hn|].
    intros Hs. subst n. now apply candidate_length.
  - intros other later used' H2 Heq.
    destruct (sanitize_with_registry other (used ++ [(n, 1)])%list)
      as [n2 [Hrun2 [Hfree2 _]]].
    pose proof (eq_trans (eq_sym Hrun2) H2) as E. inversion E; subst later.
    apply Hnot in Hfree2. apply Hfree2. subst n2.
    rewrite map_app. apply in_or_app. right. now left.
Qed.

(** ** Time stamps *)

Lemma search_from_eq (icase : bool) (r : Re.re) (p : option ascii) (s : list ascii) :
  Re.search_from icase r p s
  = match Re.match_at icase r {| Re.prev := p; Re.rest := s |} with
    | Some (caps, stop) => Some (caps, {| Re.prev := p; Re.rest := s |}, stop)
    | None =>
        match s with
        | [] => None
        | c :: s' => Re.search_from icase r (Some c) s'
        end
    end.
Proof. destruct s; reflexivity. Qed.

(** A search that finds nothing finds nothing from any later position. *)
Lemma search_from_suffix (icase : bool) (r : Re.re) (a t : list ascii) (p : option ascii) :
  Re.search_from icase r p (a ++ t) = None ->
  Re.search_from icase r (prev_after p a) t = None.
Proof.
  revert p. induction a as [|c a IH]; intros p H; [exact H|].
  rewrite search_from_eq in H.
  destruct (Re.match_at icase r _) as [[caps stop]|]; [discriminate H|].
  apply (IH (Some c)). exact H.
Qed.

Section PrevIndependent.
Variable icase : bool.
Variable r : Re.re.
Hypothesis r_ind : forall p p' t,
  Re.match_at icase r {| Re.prev := p; Re.rest := t |}
  = Re.match_at icase r {| Re.prev := p'; Re.rest := t |}.

Lemma search_from_prev (t : list ascii) (p p' : option ascii) :
  Re.search_from icase r p t = None -> Re.search_from icase r p' t = None.
Proof.
  revert p p'. induction t as [|c t IH]; intros p p' H;
    rewrite search_from_eq in H; rewrite search_from_eq;
    rewrite (r_ind p' p);
    destruct (Re.match_at icase r _) as [[caps stop]|]; try discriminate H;
    try reflexivity.
  exact H.
Qed.

End PrevIndependent.

Lemma timestamp_prev_independent (p p' : option ascii) (t : list ascii) :
  Re.match_at false _RE_TIMESTAMP {| Re.prev := p; Re.rest := t |}
  = Re.match_at false _RE_TIMESTAMP {| Re.prev := p'; Re.rest := t |}.
Proof. reflexivity. Qed.

(** The base name is the end of the path. *)
Lemma basename_suffix (path : string) :
  exists a, list_ascii_of_string path = (a ++ list_ascii_of_string (Py.basename path))%list.
Proof.
  unfold Py.basename.
  assert (G : exists a,
             list_ascii_of_string path
             = (a ++ list_ascii_of_string (last (Py.split "/" path) EmptyString))%list
             /\ (tl (Py.split "/" path) = [] -> a = [])).
  { induction path as [|c s IH].
    - exists []. split; reflexivity.
    - destruct IH as [a [Ha Hone]]. simpl.
      destruct (Ascii.eqb c "/") eqn:E.
      + exists (c :: a). split.
        * pose proof (split_not_nil "/" s) as Hn.
          destruct (Py.split "/" s) as [|x l] eqn:Es; [contradiction|].
          simpl. rewrite Ha. reflexivity.
        * simpl. intros Hn. exfalso. exact (split_not_nil "/" s Hn).
      + destruct (Py.split "/" s) as [|x l] eqn:Es.
        * exfalso. exact (split_not_nil "/" s Es).
        * destruct l as [|y l].
          -- exists []. split; [|reflexivity].
             simpl in *. rewrite Ha, (Hone eq_refl). reflexivity.
          -- exists (c :: a). split; [|discriminate].
             simpl in *. rewrite Ha. reflexivity. }
  destruct G as [a [Ha _]]. now exists a.
Qed.

(** The second search, in the base name, never finds a stamp the first
    search, in the whole path, has not found. *)
Lemma timestamp_basename_retry (path : string) :
  Re.search false _RE_TIMESTAMP path = None ->
  Re.search false _RE_TIMESTAMP (Py.basename path) = None.
Proof.
  unfold Re.search. intros H.
  destruct (Re.search_from false _RE_TIMESTAMP None (list_ascii_of_string path))
    as [m|] eqn:E; [discriminate H|].
  destruct (basename_suffix path) as [a Ha]. rewrite Ha in E.
  apply search_from_suffix in E.
  rewrite (search_from_prev false _RE_TIMESTAMP timestamp_prev_independent _ _ None E).
  reflexivity.
Qed.

(** A pattern that starts with a literal does not match in front of
    another character. *)
Lemma run_first_literal {R : Type} (name : string) (x : ascii) (b more : Re.re)
      (p : option ascii) (c : ascii) (s : list ascii) (caps : Re.captures)
      (k : Re.cursor -> Re.captures -> option R) :
  Ascii.eqb x c = false ->
  Re.run false (Re.Group name (Re.Seq (Re.Seq (Re.Chr (Re.lit x)) b) more))
    {| Re.prev := p; Re.rest := c :: s |} caps k = None.
Proof.
  intros H. cbn [Re.run Re.rest]. rewrite takes_nocase. unfold Re.lit.
  rewrite H. reflexivity.
Qed.

(** A stamp starts with the digit 2. *)
Lemma timestamp_starts_with_2 (p : option ascii) (c : ascii) (s : list ascii) :
  Ascii.eqb "2" c = false ->
  Re.match_at false _RE_TIMESTAMP {| Re.prev := p; Re.rest := c :: s |} = None.
Proof.
  intros H. unfold Re.match_at, _RE_TIMESTAMP.
  exact (run_first_literal "1" "2" (Re.Seq (Re.Chr (Re.lit "0")) Re.Eps) _ p c s [] _ H).
Qed.

Lemma search_from_skip (pre s : list ascii) (p : option ascii) :
  (forall c, In c pre -> Ascii.eqb "2" c = false) ->
  Re.search_from false _RE_TIMESTAMP p (pre ++ s)
  = Re.search_from false _RE_TIMESTAMP (prev_after p pre) s.
Proof.
  revert p. induction pre as [|c pre IH]; intros p H; [reflexivity|].
  rewrite search_from_eq.
  change ((c :: pre) ++ s)%list with (c :: (pre ++ s))%list.
  rewrite (timestamp_starts_with_2 p c (pre ++ s) (H c (or_introl eq_refl))).
  apply (IH (Some c)). intros x Hx. apply H. now right.
Qed.

(** A class repeated as many times as a run of the class is long. *)
Lemma run_times {R : Type} (icase : bool) (q : ascii -> bool) (ds tail : list ascii)
      (pv : option ascii) (caps : Re.captures)
      (k : Re.cursor -> Re.captures -> option R) :
  forallb (Re.takes icase q) ds = true ->
  Re.run icase (Re.times (List.length ds) (Re.Chr q))
    {| Re.prev := pv; Re.rest := ds ++ tail |} caps k
  = k {| Re.prev := prev_after pv ds; Re.rest := tail |} caps.
Proof.
  revert pv. induction ds as [|d ds IH]; intros pv H; [reflexivity|].
  simpl in H. apply andb_true_iff in H. destruct H as [Hd Hds].
  unfold Re.times. cbn [List.length repeat Re.cat fold_right].
  fold (Re.cat (repeat (Re.Chr q) (List.length ds))).
  fold (Re.times (List.length ds) (Re.Chr q)).
  cbn [Re.run Re.rest app]. rewrite Hd. apply (IH (Some d) Hds).
Qed.

Lemma timestamp_match (date time post : list ascii) (p : option ascii) :
  List.length date = 6%nat -> List.length time = 6%nat ->
  forallb Py.is_digit date = true -> forallb Py.is_digit time = true ->
  Re.match_at false _RE_TIMESTAMP {| Re.prev := p; Re.rest := stamp_of date time ++ post |}
  = Some ([("1", string_of_list_ascii (stamp_of date time))],
          {| Re.prev := Some "Z"%char; Re.rest := post |}).
Proof.
  intros Ld Lt Hd Ht. unfold Re.match_at, _RE_TIMESTAMP.
  rewrite <- Ld at 1. rewrite <- Lt at 1.
  assert (E : (stamp_of date time ++ post
               = ["2"%char; "0"%char] ++ date ++ ["T"%char] ++ time ++ ["Z"%char] ++ post)%list).
  { unfold stamp_of. simpl. rewrite <- app_assoc. simpl. rewrite <- app_assoc. reflexivity. }
  assert (L : forall c, Forall2 (fun c x => Re.takes false (Re.lit c) x = true) [c] [c]).
  { intros c. constructor; [|constructor]. rewrite takes_nocase. apply Ascii.eqb_refl. }
  assert (L2 : Forall2 (fun c x => Re.takes false (Re.lit c) x = true)
                 ["2"%char; "0"%char] ["2"%char; "0"%char]).
  { repeat constructor. }
  cbn [Re.cat fold_right].
  change (Re.run false (Re.Group ?n ?a) ?c ?cp ?k)
    with (Re.run false a c cp (fun cur' caps' => k cur' ((n, Re.consumed c cur') :: caps'))).
  rewrite E at 1.
  change (Re.run false (Re.Seq ?a ?b) ?c ?cp ?k)
    with (Re.run false a c cp (fun cur' caps' => Re.run false b cur' caps' k)).
  unfold Re.str at 1.
  rewrite (run_chars false ["2"%char; "0"%char] ["2"%char; "0"%char] _ p [] _ L2).
  change (Re.run false (Re.Seq ?a ?b) ?c ?cp ?k)
    with (Re.run false a c cp (fun cur' caps' => Re.run false b cur' caps' k)).
  rewrite (run_times false Re.digit date _ _ [] _);
    [|rewrite forallb_takes_nocase; exact Hd].
  change (Re.run false (Re.Seq ?a ?b) ?c ?cp ?k)
    with (Re.run false a c cp (fun cur' caps' => Re.run false b cur' caps' k)).
  unfold Re.str at 1.
  rewrite (run_chars false ["T"%char] ["T"%char] _ _ [] _ (L "T"%char)).
  change (Re.run false (Re.Seq ?a ?b) ?c ?cp ?k)
    with (Re.run false a c cp (fun cur' caps' => Re.run false b cur' caps' k)).
  rewrite (run_times false Re.digit time _ _ [] _);
    [|rewrite forallb_takes_nocase; exact Ht].
  change (Re.run false (Re.Seq ?a Re.Eps) ?c ?cp ?k) with (Re.run false a c cp k).
  unfold Re.str at 1.
  rewrite (run_chars false ["Z"%char] ["Z"%char] _ _ [] _ (L "Z"%char)).
  cbn [prev_after fold_left].
  rewrite (consumed_run p (Some "Z"%char) (stamp_of date time) post).
  reflexivity.
Qed.

Lemma two_digit_value (a b : ascii) :
  Py.is_digit a = true -> Py.is_digit b = true ->
  Py.int_of_str (String a (String b EmptyString)) = Some (decimal_value [a; b]).
Proof.
  intros Ha Hb. apply (int_of_digits [a; b]); [discriminate|].
  simpl. now rewrite Ha, Hb.
Qed.

(** [strptime] on a stamp: the date and time of its fields, when they are
    a date of the calendar and a time of the day. *)
Lemma strptime_stamp (date time : list ascii) :
  List.length date = 6%nat -> List.length time = 6%nat ->
  forallb Py.is_digit date = true -> forallb Py.is_digit time = true ->
  strptime (string_of_list_ascii (stamp_of date time))
  = if in_calendar (stamp_datetime date time)
    then Some (stamp_datetime date time) else None.
Proof.
  intros Ld Lt Hd Ht.
  destruct date as [|y1 [|y2 [|m1 [|m2 [|d1 [|d2 [|]]]]]]]; try discriminate Ld.
  destruct time as [|h1 [|h2 [|n1 [|n2 [|s1 [|s2 [|]]]]]]]; try discriminate Lt.
  simpl in Hd, Ht.
  repeat match goal with
         | H : (_ && _)%bool = true |- _ =>
             apply andb_true_iff in H; let H1 := fresh "D" in destruct H as [H1 H]
         end.
  unfold strptime, two_digits, stamp_of.
  cbn [app string_of_list_ascii String.substring].
  assert (Y : Py.int_of_str (String "2" (String "0" (String y1 (String y2 EmptyString))))
              = Some (decimal_value ["2"%char; "0"%char; y1; y2])).
  { apply (int_of_digits ["2"%char; "0"%char; y1; y2]); [discriminate|].
    simpl.
    repeat match goal with
           | H : Py.is_digit ?c = true |- context [Py.is_digit ?c] => rewrite H
           end.
    reflexivity. }
  rewrite Y.
  rewrite !two_digit_value by assumption.
  reflexivity.
Qed.

(** X18: the time stamp of a path is read from the first stamp
    [20YYMMDDThhmmssZ] in it: when no digit 2 comes before the stamp, the
    result is the date and time its fields denote, and it is absent when
    they are not a date of the calendar and a time of the day.  The second
    search, in the base name alone, never adds a result, and a path without
    the digit 2 has no time stamp. *)
Theorem X18_timestamp (pre date time post : list ascii)
        (Hpre : forall c, In c pre -> Ascii.eqb "2" c = false)
        (Ld : List.length date = 6%nat) (Lt : List.length time = 6%nat)
        (Hd : forallb Py.is_digit date = true) (Ht : forallb Py.is_digit time = true) :
  compute_timestamp_from_path (string_of_list_ascii (pre ++ stamp_of date time ++ post))
  = (if in_calendar (stamp_datetime date time)
     then Some (stamp_datetime date time) else None)
  /\ (forall path,
        compute_timestamp_from_path path
        = match Re.search false _RE_TIMESTAMP path with
          | Some m => strptime (Re.group "1" m)
          | None => None
          end)
  /\ (forall path,
        (forall c, In c (list_ascii_of_string path) -> Ascii.eqb "2" c = false) ->
        compute_timestamp_from_path path = None).
Proof.
  assert (G : forall path,
             compute_timestamp_from_path path
             = match Re.search false _RE_TIMESTAMP path with
               | Some m => strptime (Re.group "1" m)
               | None => None
               end).
  { intros path. unfold compute_timestamp_from_path.
    destruct (Re.search false _RE_TIMESTAMP path) as [m|] eqn:E; [reflexivity|].
    now rewrite (timestamp_basename_retry path E). }
  split; [|split; [exact G|]].
  - rewrite G. unfold Re.search.
    rewrite list_ascii_of_string_of_list_ascii.
    rewrite (search_from_skip pre _ None Hpre).
    rewrite (search_from_here false _RE_TIMESTAMP _ _ _ _
               (timestamp_match date time post _ Ld Lt Hd Ht)).
    cbn [option_map fst Re.group String.eqb Ascii.eqb Bool.eqb].
    now apply strptime_stamp.
  - intros path Hpath. rewrite G. unfold Re.search.
    rewrite <- (app_nil_r (list_ascii_of_string path)).
    rewrite (search_from_skip _ [] None Hpath). reflexivity.
Qed.

Lemma X18_timestamp_witness :
  compute_timestamp_from_path "run/parallel-3-x-20240131T235959Z/out.json"
  = Some {| year := 2024; month := 1; day := 31; hour := 23; minute := 59; second := 59 |}
  /\ compute_timestamp_from_path "run/parallel-3-x-20240231T235959Z/out.json" = None.
Proof.
  split.
  - exact (proj1 (X18_timestamp (list_ascii_of_string "run/parallel-3-x-")
                    (list_ascii_of_string "240131") (list_ascii_of_string "235959")
                    (list_ascii_of_string "/out.json")
                    ltac:(simpl; intuition (subst; reflexivity))
                    eq_refl eq_refl eq_refl eq_refl)).
  - exact (proj1 (X18_timestamp (list_ascii_of_string "run/parallel-3-x-")
                    (list_ascii_of_string "240231") (list_ascii_of_string "235959")
                    (list_ascii_of_string "/out.json")
                    ltac:(simpl; intuition (subst; reflexivity))
                    eq_refl eq_refl eq_refl eq_refl)).
Defined.

(** ** Task names without their time stamp *)

(** A match of a pattern of fixed shape takes one character of each class
    of the shape. *)
Lemma run_shape {R : Type} (icase : bool) (r : Re.re) :
  forall (ps : list (ascii -> bool)) (cur : Re.cursor) (caps : Re.captures)
         (k : Re.cursor -> Re.captures -> option R) (x : R),
    shape r = Some ps ->
    Re.run icase r cur caps k = Some x ->
    exists body cur' caps',
      Re.rest cur = (body ++ Re.rest cur')%list
      /\ Forall2 (fun p c => Re.takes icase p c = true) ps body
      /\ k cur' caps' = Some x.
Proof.
  induction r as [|q|a IHa b IHb|a IHa b IHb|g a IHa|n a IHa| | |];
    intros ps cur caps k x Hs Hr; simpl in Hs.
  - inversion Hs; subst ps. exists [], cur, caps. repeat split; [constructor|exact Hr].
  - inversion Hs; subst ps. cbn [Re.run] in Hr.
    destruct (Re.rest cur) as [|c s] eqn:E; [discriminate Hr|].
    destruct (Re.takes icase q c) eqn:T; [|discriminate Hr].
    exists [c], {| Re.prev := Some c; Re.rest := s |}, caps.
    repeat split; [repeat constructor; exact T|exact Hr].
  - destruct (shape a) as [pa|]; [|discriminate Hs].
    destruct (shape b) as [pb|]; [|discriminate Hs].
    inversion Hs; subst ps. cbn [Re.run] in Hr.
    destruct (IHa pa cur caps _ x eq_refl Hr) as [b1 [c1 [cp1 [E1 [F1 K1]]]]].
    destruct (IHb pb c1 cp1 k x eq_refl K1) as [b2 [c2 [cp2 [E2 [F2 K2]]]]].
    exists (b1 ++ b2)%list, c2, cp2. split; [|split].
    + rewrite E1, E2. now rewrite app_assoc.
    + now apply Forall2_app.
    + exact K2.
  - discriminate Hs.
  - discriminate Hs.
  - cbn [Re.run] in Hr.
    destruct (IHa ps cur caps _ x Hs Hr) as [b1 [c1 [cp1 [E1 [F1 K1]]]]].
    exists b1, c1, ((n, Re.consumed cur c1) :: cp1). repeat split; assumption.
  - inversion Hs; subst ps. cbn [Re.run] in Hr.
    destruct (Re.prev cur); [discriminate Hr|].
    exists [], cur, caps. repeat split; [constructor|exact Hr].
  - inversion Hs; subst ps. cbn [Re.run] in Hr.
    exists [], cur, caps. split; [reflexivity|]. split; [constructor|].
    destruct (Re.rest cur) as [|c s]; [exact Hr|].
    destruct c as [[] [] [] [] [] [] [] []]; destruct s; simpl in Hr;
      first [exact Hr | discriminate Hr].
  - inversion Hs; subst ps. cbn [Re.run] in Hr.
    exists [], cur, caps. split; [reflexivity|]. split; [constructor|].
    destruct (xorb _ _); [exact Hr|discriminate Hr].
Qed.

Lemma suffix_pattern_split (cur : Re.cursor) :
  Re.match_at false task_suffix_pattern cur
  = Re.run false task_suffix_body cur []
      (fun cur' caps' => Re.run false Re.Eol cur' caps' (fun c cp => Some (cp, c))).
Proof. reflexivity. Qed.

(** What a match of the suffix pattern has taken: 17 characters up to the
    end of the text, or up to a newline that ends the text. *)
Lemma suffix_match_inv (p : option ascii) (t : list ascii)
      (caps : Re.captures) (stop : Re.cursor) :
  Re.match_at false task_suffix_pattern {| Re.prev := p; Re.rest := t |} = Some (caps, stop) ->
  exists body,
    t = (body ++ Re.rest stop)%list /\ List.length body = 17%nat
    /\ ((Re.rest stop = [] /\ forall d, last t d = "Z"%char)
        \/ (Re.rest stop = ["010"%char] /\ forall d, last t d = "010"%char)).
Proof.
  rewrite suffix_pattern_split. intros H.
  destruct (run_shape false task_suffix_body _ _ _ _ _ eq_refl H)
    as [body [cur' [caps' [E [F K]]]]].
  cbn [Re.rest] in E.
  assert (Hstop : stop = cur'
                  /\ (Re.rest cur' = [] \/ Re.rest cur' = ["010"%char])).
  { cbn [Re.run] in K. destruct (Re.rest cur') as [|c s] eqn:Er.
    - inversion K. split; [reflexivity|now left].
    - destruct c as [[] [] [] [] [] [] [] []]; destruct s; simpl in K;
        try discriminate K.
      inversion K. split; [reflexivity|now right]. }
  destruct Hstop as [Hs Hr]. subst cur'.
  exists body. split; [exact E|].
  split; [exact (eq_sym (Forall2_length F))|].
  cbn [app] in F.
  repeat match goal with
         | H : Forall2 _ (_ :: _) _ |- _ => inversion H; clear H; subst
         | H : Forall2 _ [] _ |- _ => inversion H; clear H; subst
         end.
  match goal with
  | H : Re.takes false (Re.lit "Z") ?c = true |- _ =>
      rewrite takes_nocase in H; unfold Re.lit in H; apply Ascii.eqb_eq in H; subst c
  end.
  try subst t.
  destruct Hr as [Hr|Hr]; rewrite Hr; [left|right]; split; try reflexivity;
    intros d; reflexivity.
Qed.

Lemma stamp_length (date time : list ascii) :
  List.length date = 6%nat -> List.length time = 6%nat ->
  List.length ("-"%char :: stamp_of date time) = 17%nat.
Proof.
  intros Ld Lt. unfold stamp_of. simpl. rewrite length_app. simpl.
  rewrite length_app. simpl. lia.
Qed.

Lemma stamp_last (l date time : list ascii) (d : ascii) :
  last (l ++ "-"%char :: stamp_of date time) d = "Z"%char.
Proof.
  unfold stamp_of.
  replace (l ++ "-"%char :: "2"%char :: "0"%char :: date ++ "T"%char :: time ++ ["Z"%char])%list
    with ((l ++ "-"%char :: "2"%char :: "0"%char :: date ++ "T"%char :: time) ++ ["Z"%char])%list.
  - apply last_last.
  - rewrite <- app_assoc. simpl. rewrite <- app_assoc. reflexivity.
Qed.

(** The pattern matches nowhere before the stamp that ends the name. *)
Lemma suffix_no_earlier_match (c : ascii) (l date time : list ascii) (p : option ascii) :
  List.length date = 6%nat -> List.length time = 6%nat ->
  Re.match_at false task_suffix_pattern
    {| Re.prev := p; Re.rest := c :: l ++ "-"%char :: stamp_of date time |} = None.
Proof.
  intros Ld Lt.
  destruct (Re.match_at false task_suffix_pattern _) as [[caps stop]|] eqn:E;
    [|reflexivity].
  exfalso. apply suffix_match_inv in E.
  destruct E as [body [Et [Lb Hend]]].
  pose proof (f_equal (@List.length ascii) Et) as Hlen.
  simpl in Hlen. rewrite !length_app in Hlen.
  rewrite (stamp_length date time Ld Lt) in Hlen.
  destruct Hend as [[Hr _]|[Hr Hl]]; rewrite Hr in Hlen; simpl in Hlen; [lia|].
  specialize (Hl "a"%char).
  change (c :: l ++ "-"%char :: stamp_of date time)%list
    with ((c :: l) ++ "-"%char :: stamp_of date time)%list in Hl.
  rewrite stamp_last in Hl. discriminate Hl.
Qed.

Lemma suffix_match_here (date time : list ascii) (p : option ascii) :
  List.length date = 6%nat -> List.length time = 6%nat ->
  forallb Py.is_digit date = true -> forallb Py.is_digit time = true ->
  Re.match_at false task_suffix_pattern
    {| Re.prev := p; Re.rest := "-"%char :: stamp_of date time |}
  = Some ([], {| Re.prev := Some "Z"%char; Re.rest := [] |}).
Proof.
  intros Ld Lt Hd Ht. rewrite suffix_pattern_split. unfold task_suffix_body.
  rewrite <- Ld at 1. rewrite <- Lt at 1.
  assert (E : ("-"%char :: stamp_of date time
               = ["-"%char; "2"%char; "0"%char] ++ date ++ ["T"%char] ++ time
                   ++ ["Z"%char] ++ [])%list).
  { reflexivity. }
  assert (L : forall c, Forall2 (fun c x => Re.takes false (Re.lit c) x = true) [c] [c]).
  { intros c. constructor; [|constructor]. rewrite takes_nocase. apply Ascii.eqb_refl. }
  assert (L3 : Forall2 (fun c x => Re.takes false (Re.lit c) x = true)
                 ["-"%char; "2"%char; "0"%char] ["-"%char; "2"%char; "0"%char]).
  { repeat constructor. }
  cbn [Re.cat fold_right].
  rewrite E.
  change (Re.run false (Re.Seq ?a ?b) ?c ?cp ?k)
    with (Re.run false a c cp (fun cur' caps' => Re.run false b cur' caps' k)).
  unfold Re.str at 1.
  rewrite (run_chars false _ _ _ p [] _ L3).
  change (Re.run false (Re.Seq ?a ?b) ?c ?cp ?k)
    with (Re.run false a c cp (fun cur' caps' => Re.run false b cur' caps' k)).
  rewrite (run_times false Re.digit date _ _ [] _);
    [|rewrite forallb_takes_nocase; exact Hd].
  change (Re.run false (Re.Seq ?a ?b) ?c ?cp ?k)
    with (Re.run false a c cp (fun cur' caps' => Re.run false b cur' caps' k)).
  unfold Re.str at 1.
  rewrite (run_chars false ["T"%char] ["T"%char] _ _ [] _ (L "T"%char)).
  change (Re.run false (Re.Seq ?a ?b) ?c ?cp ?k)
    with (Re.run false a c cp (fun cur' caps' => Re.run false b cur' caps' k)).
  rewrite (run_times false Re.digit time _ _ [] _);
    [|rewrite forallb_takes_nocase; exact Ht].
  change (Re.run false (Re.Seq ?a Re.Eps) ?c ?cp ?k) with (Re.run false a c cp k).
  unfold Re.str at 1.
  rewrite (run_chars false ["Z"%char] ["Z"%char] _ _ [] _ (L "Z"%char)).
  reflexivity.
Qed.

Lemma suffix_search (name date time : list ascii) (p : option ascii) :
  List.length date = 6%nat -> List.length time = 6%nat ->
  forallb Py.is_digit date = true -> forallb Py.is_digit time = true ->
  Re.search_from false task_suffix_pattern p (stamped name date time)
  = Some ([], {| Re.prev := prev_after p name; Re.rest := "-"%char :: stamp_of date time |},
          {| Re.prev := Some "Z"%char; Re.rest := [] |}).
Proof.
  intros Ld Lt Hd Ht. unfold stamped. revert p.
  induction name as [|c l IH]; intros p.
  - apply search_from_here. now apply suffix_match_here.
  - rewrite search_from_eq.
    change ((c :: l) ++ "-"%char :: stamp_of date time)%list
      with (c :: l ++ "-"%char :: stamp_of date time)%list.
    rewrite (suffix_no_earlier_match c l date time p Ld Lt).
    apply (IH (Some c)).
Qed.

Lemma sub_from_nil (fuel : nat) (p : option ascii) :
  sub_from fuel false task_suffix_pattern p [] = [].
Proof. destruct fuel; reflexivity. Qed.

(** The stamp that ends a task name is removed with its dash, whatever
    comes before it. *)
Lemma strip_stamped (name date time : list ascii) :
  List.length date = 6%nat -> List.length time = 6%nat ->
  forallb Py.is_digit date = true -> forallb Py.is_digit time = true ->
  strip_task_suffix (Some (string_of_list_ascii (stamped name date time)))
  = Some (string_of_list_ascii name).
Proof.
  intros Ld Lt Hd Ht. unfold strip_task_suffix, re_sub_empty. cbn [option_map].
  rewrite list_ascii_of_string_of_list_ascii.
  cbn [sub_from]. rewrite (suffix_search name date time None Ld Lt Hd Ht).
  cbn [Re.rest Re.prev]. rewrite (stamp_length date time Ld Lt).
  cbn [List.length Nat.ltb Nat.leb]. rewrite sub_from_nil, app_nil_r.
  unfold stamped. rewrite length_app, (stamp_length date time Ld Lt).
  replace (List.length name + 17 - 17)%nat with (List.length name) by lia.
  rewrite firstn_app, firstn_all, Nat.sub_diag. simpl. now rewrite app_nil_r.
Qed.

(** A name that ends neither in [Z] nor in a newline holds no match. *)
Lemma suffix_search_none (s : list ascii) (p : option ascii) :
  (s = [] \/ (last s "a"%char <> "Z"%char /\ last s "a"%char <> "010"%char)) ->
  Re.search_from false task_suffix_pattern p s = None.
Proof.
  revert p. induction s as [|c s IH]; intros p H.
  - reflexivity.
  - rewrite search_from_eq.
    destruct (Re.match_at false task_suffix_pattern _) as [[caps stop]|] eqn:E.
    + exfalso. apply suffix_match_inv in E. destruct E as [body [_ [_ Hend]]].
      destruct H as [H|[H1 H2]]; [discriminate H|].
      destruct Hend as [[_ Hl]|[_ Hl]]; specialize (Hl "a"%char); congruence.
    + apply IH. destruct s as [|d s]; [now left|right].
      destruct H as [H|H]; [discriminate H|]. exact H.
Qed.

(** X19: under [remove_suffix] a task name that ends in a dash and a
    stamp [20YYMMDDThhmmssZ] loses them, whatever comes before, so that runs
    of one task taken at different times share a name; a name that is empty
    or ends neither in [Z] nor in a newline is kept, and a missing task
    stays missing.  The summary applies the removal to the column that has
    already been through it: a name that ends in two stamps keeps one of
    them in the other outputs and none in the summary. *)
Theorem X19_task_suffix (name date time : list ascii)
        (Ld : List.length date = 6%nat) (Lt : List.length time = 6%nat)
        (Hd : forallb Py.is_digit date = true) (Ht : forallb Py.is_digit time = true) :
  strip_task_suffix (Some (string_of_list_ascii (stamped name date time)))
  = Some (string_of_list_ascii name)
  /\ (forall r,
        task r = Some (string_of_list_ascii (stamped name date time)) ->
        output_task true r = Some (string_of_list_ascii name)
        /\ summary_task true r = strip_task_suffix (Some (string_of_list_ascii name)))
  /\ (forall r,
        task r = Some (string_of_list_ascii (stamped (stamped name date time) date time)) ->
        output_task true r = Some (string_of_list_ascii (stamped name date time))
        /\ summary_task true r = Some (string_of_list_ascii name))
  /\ (forall s,
        s = [] \/ (last s "a"%char <> "Z"%char /\ last s "a"%char <> "010"%char) ->
        strip_task_suffix (Some (string_of_list_ascii s)) = Some (string_of_list_ascii s))
  /\ strip_task_suffix None = None.
Proof.
  pose proof (strip_stamped name date time Ld Lt Hd Ht) as S1.
  pose proof (strip_stamped (stamped name date time) date time Ld Lt Hd Ht) as S2.
  split; [exact S1|]. split; [|split; [|split; [|reflexivity]]].
  - intros r Hr. unfold summary_task, output_task. rewrite Hr, S1. now split.
  - intros r Hr. unfold summary_task, output_task. rewrite Hr, S2, S1. now split.
  - intros s Hs. unfold strip_task_suffix, re_sub_empty. cbn [option_map].
    rewrite list_ascii_of_string_of_list_ascii. cbn [sub_from].
    now rewrite (suffix_search_none s None Hs).
Qed.

Lemma X19_task_suffix_witness :
  strip_task_suffix (Some "parallel-3-randread-20240131T235959Z")
  = Some "parallel-3-randread".
Proof.
  exact (proj1 (X19_task_suffix (list_ascii_of_string "parallel-3-randread")
                  (list_ascii_of_string "240131") (list_ascii_of_string "235959")
                  eq_refl eq_refl eq_refl eq_refl)).
Defined.
